(** * A shallow embedding of the retrieval pipeline

    The development follows the Python sources module by module:
    [models.py], [document_processor.py], [vector_store.py],
    [web_search.py], [llm_provider.py] and [core.py].

    Conventions.
    - A Python [str] is a Rocq [string]; a character stands for the code
      point of the same number, so the texts covered are those over the
      code points below 256.  [isspace] and [lower] are Python's, cut down
      to that range.
    - A Python [int] is a [Z]; list indices that the code obtains from
      [enumerate] or [len] are [nat].
    - A Python [float] is a binary64 value of [SpecFloat].
    - A call that may raise returns an [outcome]; the exceptions that the
      collaborators raise are instances of Python's [Exception] class,
      the ones an [except Exception] clause (and a bare [except])
      catches.  Exceptions of the other classes ([base_exn]) come to a
      running call from outside; [Core.call_ask_question] takes them as
      an input.
    - Third-party collaborators (the embedding index, the encoder, the two
      search engines, the converters, the chat model, the file system) are
      fields of environment records: what they answer is an input of the
      model, what the repository does with the answer is the model. *)

From Stdlib Require Import ZArith List String Ascii Lia Bool.
From Stdlib Require Import Floats.SpecFloat.
From stdpp Require Import base list strings gmap pretty sorting.

Open Scope string_scope.
Open Scope list_scope.
Open Scope Z_scope.

(** ** Python primitives used by the sources *)

Module Py.

Inductive exn_class : Type :=
| Exception
| ValueError
| TypeError
| IndexError
| OSError
| UnicodeDecodeError.

(** An exception instance; [str(e)] is its message. *)
Record exn : Type := mkExn { exn_type : exn_class; exn_msg : string }.

Definition str_exn (e : exn) : string := exn_msg e.

(** Exceptions of the classes outside [Exception]: an [except Exception]
    clause lets them pass.  The collaborators modelled below do not raise
    them; they reach a running call from outside, as the interrupt of the
    user or the cancellation of the task. *)
Inductive base_exn : Type :=
| KeyboardInterrupt
| CancelledError
| SystemExit.

Inductive outcome (A : Type) : Type :=
| Return (a : A)
| Raise (e : exn).
Arguments Return {A} a.
Arguments Raise {A} e.

Definition bind {A B : Type} (m : outcome A) (k : A -> outcome B) : outcome B :=
  match m with
  | Return a => k a
  | Raise e => Raise e
  end.

(** Sequencing of calls: [x ← m; k] runs [k] unless [m] raised. *)
#[export] Instance outcome_bind : MBind outcome :=
  fun A B k m => bind m k.

(** [len(l)] *)
Definition len {A : Type} (l : list A) : Z := Z.of_nat (length l).

(** [str.isspace] on one character. *)
Definition isspace (c : ascii) : bool :=
  let n := nat_of_ascii c in
  ((9 <=? n)%nat && (n <=? 13)%nat)
  || ((28 <=? n)%nat && (n <=? 32)%nat)
  || (n =? 133)%nat || (n =? 160)%nat.

(** [str.lower] on one character. *)
Definition lower_char (c : ascii) : ascii :=
  let n := nat_of_ascii c in
  if ((65 <=? n)%nat && (n <=? 90)%nat)
     || ((192 <=? n)%nat && (n <=? 222)%nat && negb (n =? 215)%nat)
  then ascii_of_nat (n + 32) else c.

Fixpoint lower (s : string) : string :=
  match s with
  | EmptyString => EmptyString
  | String c s' => String (lower_char c) (lower s')
  end.

(** [str.upper] on one character (the two code points below 256 whose
    upper case lies above, 181 and 255, and 223, whose upper case is two
    letters, do not occur in the strings the sources upper-case). *)
Definition upper_char (c : ascii) : ascii :=
  let n := nat_of_ascii c in
  if ((97 <=? n)%nat && (n <=? 122)%nat)
     || ((224 <=? n)%nat && (n <=? 254)%nat && negb (n =? 247)%nat)
  then ascii_of_nat (n - 32) else c.

Fixpoint upper (s : string) : string :=
  match s with
  | EmptyString => EmptyString
  | String c s' => String (upper_char c) (upper s')
  end.

(** [s.replace(' ', '+')] *)
Fixpoint replace_space_plus (s : string) : string :=
  match s with
  | EmptyString => EmptyString
  | String c s' =>
      String (if Ascii.eqb c " "%char then "+"%char else c) (replace_space_plus s')
  end.

(** The line feed, the one-character string written with a backslash and
    an n in the sources. *)
Definition nl : string := String (ascii_of_nat 10) EmptyString.

(** [s.split(nl)]: the pieces between line feeds; [cur] is the piece
    read so far. *)
Fixpoint split_lines_from (cur s : string) : list string :=
  match s with
  | EmptyString => [cur]
  | String c s' =>
      if Ascii.eqb c (ascii_of_nat 10)
      then cur :: split_lines_from "" s'
      else split_lines_from (cur +:+ String c "") s'
  end.

Definition split_lines (s : string) : list string := split_lines_from "" s.

(** [sub in s] for strings. *)
Fixpoint contains (sub s : string) : bool :=
  String.prefix sub s ||
  match s with
  | EmptyString => false
  | String _ s' => contains sub s'
  end.

(** [s.split()]: the maximal runs of non-whitespace characters.  [w] is
    the run read so far. *)
Fixpoint split_from (w s : string) : list string :=
  match s with
  | EmptyString => if String.eqb w "" then [] else [w]
  | String c s' =>
      if isspace c
      then (if String.eqb w "" then split_from "" s' else w :: split_from "" s')
      else split_from (w +:+ String c "") s'
  end.

Definition split (s : string) : list string := split_from "" s.

Fixpoint lstrip (s : string) : string :=
  match s with
  | EmptyString => EmptyString
  | String c s' => if isspace c then lstrip s' else s
  end.

Fixpoint rstrip (s : string) : string :=
  match s with
  | EmptyString => EmptyString
  | String c s' =>
      let r := rstrip s' in
      if isspace c && String.eqb r "" then EmptyString else String c r
  end.

(** A string with a character that is not whitespace. *)
Fixpoint has_nonspace (s : string) : bool :=
  match s with
  | EmptyString => false
  | String c s' => negb (isspace c) || has_nonspace s'
  end.

(** [s.strip()] *)
Definition strip (s : string) : string := rstrip (lstrip s).

(** Truth value of a string: non-empty. *)
Definition truthy (s : string) : bool := negb (String.eqb s "").

(** [sep.join(l)] *)
Definition join (sep : string) (l : list string) : string := String.concat sep l.

(** Index adjustment of a slice bound ([PySlice_AdjustIndices], step 1). *)
Definition adjust_index (n i : Z) : Z :=
  if i <? 0 then Z.max 0 (i + n) else Z.min i n.

(** [l[i:j]] *)
Definition slice {A : Type} (l : list A) (i j : Z) : list A :=
  let a := adjust_index (len l) i in
  let b := adjust_index (len l) j in
  take (Z.to_nat (b - a)) (drop (Z.to_nat a) l).

(** [l[:j]] *)
Definition slice_to {A : Type} (l : list A) (j : Z) : list A := slice l 0 j.

(** [len(range(start, stop, step))] for a non-zero step. *)
Definition range_length (start stop step : Z) : Z :=
  if 0 <? step
  then (if start <? stop then (stop - start - 1) / step + 1 else 0)
  else (if stop <? start then (start - stop - 1) / (- step) + 1 else 0).

(** [range(start, stop, step)], which raises on a zero step. *)
Definition range (start stop step : Z) : outcome (list Z) :=
  if step =? 0
  then Raise (mkExn ValueError "range() arg 3 must not be zero")
  else Return (map (fun k : nat => start + Z.of_nat k * step)
                   (seq 0 (Z.to_nat (range_length start stop step)))).

(** [str(i)] for an integer. *)
Definition str_int (i : Z) : string := pretty i.

(** [dict.get(k, default)] on an association list read as a dict whose
    later bindings win. *)
Fixpoint assoc_get {V : Type} (k : string) (d : list (string * V)) : option V :=
  match d with
  | [] => None
  | (k', v) :: d' =>
      match assoc_get k d' with
      | Some v' => Some v'
      | None => if String.eqb k k' then Some v else None
      end
  end.

End Py.

Import Py.

(** ** Binary64 arithmetic of Python's [float] *)

Module Float.

Definition prec : Z := 53.
Definition emax : Z := 1024.

(** [float(z)] *)
Definition of_int (z : Z) : spec_float := binary_normalize prec emax z 0 false.

Definition zero : spec_float := S754_zero false.
Definition one : spec_float := S754_finite false 4503599627370496 (-52).
(** The literal [0.1]: 0x1.999999999999ap-4. *)
Definition tenth : spec_float := S754_finite false 7205759403792794 (-56).

Definition sub (x y : spec_float) : spec_float := SFsub prec emax x y.
Definition mul (x y : spec_float) : spec_float := SFmul prec emax x y.

(** [x > y] *)
Definition gt (x y : spec_float) : bool := SFltb y x.

(** [0 <= x], the reading of a non-negative score. *)
Definition nonneg (x : spec_float) : bool := SFleb zero x.

(** [max(0, x)]: the built-in keeps its first argument unless the second
    compares greater; the integer 0 it then returns is the float of the
    same value here. *)
Definition max0 (x : spec_float) : spec_float := if gt x zero then x else zero.

End Float.


(** ** [models.py] *)

Module Models.

Inductive TaskType : Type :=
| DOCUMENT_QUERY
| WEB_SEARCH
| HYBRID_SEARCH
| SUMMARIZATION
| ANALYSIS.

Definition TaskType_eqb (a b : TaskType) : bool :=
  match a, b with
  | DOCUMENT_QUERY, DOCUMENT_QUERY
  | WEB_SEARCH, WEB_SEARCH
  | HYBRID_SEARCH, HYBRID_SEARCH
  | SUMMARIZATION, SUMMARIZATION
  | ANALYSIS, ANALYSIS => true
  | _, _ => false
  end.

Definition TaskType_value (t : TaskType) : string :=
  match t with
  | DOCUMENT_QUERY => "document_query"
  | WEB_SEARCH => "web_search"
  | HYBRID_SEARCH => "hybrid_search"
  | SUMMARIZATION => "summarization"
  | ANALYSIS => "analysis"
  end.

Inductive SourceType : Type :=
| DOCUMENT
| WEB.

Definition SourceType_value (t : SourceType) : string :=
  match t with
  | DOCUMENT => "document"
  | WEB => "web"
  end.

(** The values stored in a [Document]'s metadata. *)
Inductive pyval : Type :=
| VStr (s : string)
| VInt (z : Z)
| VFloat (f : spec_float).

Record Document : Type := mkDocument {
  doc_id : string;
  doc_title : string;
  doc_content : string;
  markdown_content : string;
  doc_metadata : gmap string pyval;
  processing_time : spec_float
}.

(** [Document.word_count] *)
Definition word_count (d : Document) : Z := len (split (doc_content d)).

(** The metadata of a search result holds strings only: the index stores
    what [add_document] wrote, the parsers store page text. *)
Record SearchResult : Type := mkSearchResult {
  sr_content : string;
  source : string;
  score : spec_float;
  sr_metadata : gmap string string;
  source_type : SourceType;
  rank : Z
}.

(** [SearchResult.title] *)
Definition title (r : SearchResult) : string :=
  default (default "Unknown" (sr_metadata r !! "document_title"))
          (sr_metadata r !! "title").

Record QueryRequest : Type := mkQueryRequest {
  question : string;
  task_type : option TaskType;
  max_results : Z;
  include_web : bool;
  include_documents : bool
}.

Record TextChunk : Type := mkTextChunk {
  content : string;
  start_pos : Z;
  end_pos : Z
}.

End Models.

Import Models.

(** ** [document_processor.py]: the chunker *)

Module Chunker.

(** The chunk that the loop body builds for the index [i]. *)
Definition window_at (words : list string) (chunk_size i : Z) : TextChunk :=
  {| content := join " " (slice words i (i + chunk_size));
     start_pos := i;
     end_pos := Z.min (i + chunk_size) (len words) |}.

(** One pass of the loop body of [create_chunks] for the index [i]. *)
Definition chunk_step (words : list string) (chunk_size : Z)
    (chunks : list TextChunk) (i : Z) : list TextChunk :=
  let chunk_words := slice words i (i + chunk_size) in
  let chunk_content := join " " chunk_words in
  if truthy (strip chunk_content)
  then chunks ++ [ {| content := chunk_content;
                      start_pos := i;
                      end_pos := Z.min (i + chunk_size) (len words) |} ]
  else chunks.

Definition create_chunks (text : string) (chunk_size overlap : Z)
    : outcome (list TextChunk) :=
  let words := split text in
  idx ← range 0 (len words) (chunk_size - overlap);
  Return (fold_left (chunk_step words chunk_size) idx []).

End Chunker.

Import Chunker.

(** ** [document_processor.py]: the converters *)

Module DocumentProcessor.

(** What the processor reads from its surroundings: which optional
    libraries were importable, [pathlib], the file system, the clock,
    [hashlib] and the two conversion libraries. *)
Record Env : Type := mkEnv {
  HAS_MARKITDOWN : bool;
  HAS_DOCX : bool;
  (** [Path(p).name], [.stem], [.suffix]; a [Path] is identified with
      the string [str(path)], the form in which [load_documents] passes
      the paths on *)
  path_name : string -> string;
  path_stem : string -> string;
  path_suffix : string -> string;
  path_exists : string -> bool;
  st_mtime : string -> spec_float;
  st_size : string -> Z;
  (** the readings of [time.time()]: at entry, at [processed_at], at the end *)
  time_time : string -> nat -> spec_float;
  str_float : spec_float -> string;
  md5_hexdigest : string -> string;
  (** [MarkItDown().convert]: [text_content] (possibly [None]) and the
      value of [getattr(result, 'metadata', {}) or {}] *)
  markitdown_convert : string -> outcome (option string * gmap string pyval);
  (** [DocxDocument(path).paragraphs], as paragraph texts *)
  docx_paragraphs : string -> outcome (list string);
  (** [open(path, encoding=...).read()] for utf-8 and for latin-1 *)
  read_utf8 : string -> outcome string;
  read_latin1 : string -> outcome string
}.

(** First loop of [_clean_text]: strip every line, drop an empty line
    unless the last line kept is non-empty.  [cleaned_lines] is kept
    in reverse, so its head is [cleaned_lines[-1]]. *)
Definition clean_keep (rev_cleaned : list string) (line : string) : list string :=
  let line := strip line in
  if truthy line
     || match rev_cleaned with
        | [] => false
        | last :: _ => truthy last
        end
  then line :: rev_cleaned
  else rev_cleaned.

(** Second loop of [_clean_text]: the state is [(result, prev_empty)],
    [result] in reverse. *)
Definition clean_squeeze (st : list string * bool) (line : string)
    : list string * bool :=
  let '(rev_result, prev_empty) := st in
  if negb (truthy line)
  then ((if negb prev_empty then line :: rev_result else rev_result), true)
  else (line :: rev_result, false).

Definition _clean_text (text : option string) : string :=
  match text with
  | None => ""
  | Some text =>
      if negb (truthy text) then ""
      else
        let lines := split_lines text in
        let cleaned_lines := rev (fold_left clean_keep lines []) in
        let result := rev (fst (fold_left clean_squeeze cleaned_lines ([], false))) in
        join nl result
  end.

Definition _process_with_markitdown (env : Env) (file_path : string)
    : outcome (string * gmap string pyval) :=
  result ← markitdown_convert env (file_path);
  let content := _clean_text (fst result) in
  let metadata := snd result in
  Return (content, metadata).

Definition _process_with_docx (env : Env) (file_path : string)
    : outcome (string * gmap string pyval) :=
  if negb (String.eqb (lower (path_suffix env file_path)) ".docx")
  then Raise (mkExn Exception "python-docx only supports DOCX files")
  else
    paragraphs ← docx_paragraphs env file_path;
    let content_parts := List.filter (fun t => truthy (strip t)) paragraphs in
    let content := join nl content_parts in
    let metadata : gmap string pyval :=
      <["paragraph_count" := VInt (len paragraphs)]>
        (<["processor" := VStr "python-docx"]> ∅) in
    Return (_clean_text (Some content), metadata).

Definition _process_with_text (env : Env) (file_path : string)
    : outcome (string * gmap string pyval) :=
  let suffix := lower (path_suffix env file_path) in
  if negb (String.eqb suffix ".txt" || String.eqb suffix ".md")
  then Raise (mkExn Exception "Text processor only supports .txt and .md files")
  else
    content ←
      match read_utf8 env file_path with
      | Raise e =>
          match exn_type e with
          | UnicodeDecodeError => read_latin1 env file_path
          | _ => Raise e
          end
      | Return content => Return content
      end;
    let metadata : gmap string pyval :=
      <["encoding" := VStr "utf-8"]> (<["processor" := VStr "text"]> ∅) in
    Return (_clean_text (Some content), metadata).

Definition processor : Type :=
  string * (Env -> string -> outcome (string * gmap string pyval)).

(** [self.processors] as [__init__] builds it. *)
Definition processors (env : Env) : list processor :=
  (if HAS_MARKITDOWN env then [("markitdown", _process_with_markitdown)] else [])
  ++ (if HAS_DOCX env then [("docx", _process_with_docx)] else [])
  ++ [("text", _process_with_text)].

(** [self.supported_extensions], the set that [__init__] builds. *)
Definition supported_extensions (env : Env) : gset string :=
  (if HAS_MARKITDOWN env
   then {[ ".pdf"; ".docx"; ".pptx"; ".xlsx"; ".txt"; ".md" ]} else ∅)
  ∪ (if HAS_DOCX env then {[ ".docx" ]} else ∅)
  ∪ {[ ".txt"; ".md" ]}.

Definition supports_file (env : Env) (file_path : string) : bool :=
  bool_decide (lower (path_suffix env file_path) ∈ supported_extensions env).

(** The [Document] built when [processor_name] returned [content] and
    [metadata]: the dict literal lists the provenance keys first and
    unpacks [metadata] last, so a key of [metadata] wins. *)
Definition build_document (env : Env) (file_path processor_name content : string)
    (metadata : gmap string pyval) : Document :=
  let start_time := time_time env file_path 0%nat in
  let doc_id :=
    md5_hexdigest env (file_path +:+ str_float env (st_mtime env file_path)) in
  let provenance : gmap string pyval :=
    <["source_path" := VStr (file_path)]>
    (<["filename" := VStr (path_name env file_path)]>
    (<["file_size" := VInt (st_size env file_path)]>
    (<["file_type" := VStr (lower (path_suffix env file_path))]>
    (<["processed_at" := VFloat (time_time env file_path 1%nat)]>
    (<["processor_used" := VStr processor_name]> ∅))))) in
  {| doc_id := doc_id;
     doc_title := path_stem env file_path;
     doc_content := content;
     markdown_content := content;
     doc_metadata := metadata ∪ provenance;
     processing_time := Float.sub (time_time env file_path 2%nat) start_time |}.

(** The [for] loop of [process_document] over the processors still to
    try, [last_error] being the exception caught last. *)
Fixpoint try_processors (env : Env) (file_path : string)
    (todo : list processor) (last_error : option exn) : outcome Document :=
  match todo with
  | [] =>
      Raise (mkExn Exception
        ("All processors failed for " +:+ file_path +:+ ". Last error: "
         +:+ match last_error with
            | Some e => str_exn e
            | None => "None"
            end))
  | (processor_name, processor_func) :: rest =>
      match processor_func env file_path with
      | Return (content, metadata) =>
          if truthy (strip content)
          then Return (build_document env file_path processor_name content metadata)
          else try_processors env file_path rest last_error
      | Raise e => try_processors env file_path rest (Some e)
      end
  end.

(** A processor yields when it returns text that is not blank. *)
Definition yields (env : Env) (file_path : string) (p : processor) : bool :=
  match snd p env file_path with
  | Return (content, _) => truthy (strip content)
  | Raise _ => false
  end.

(** The exception raised last among the processors of [todo], or
    [last] when none of them raised. *)
Fixpoint last_raised (env : Env) (file_path : string) (todo : list processor)
    (last : option exn) : option exn :=
  match todo with
  | [] => last
  | p :: rest =>
      last_raised env file_path rest
        match snd p env file_path with
        | Raise e => Some e
        | Return _ => last
        end
  end.

Definition process_document (env : Env) (file_path : string) : outcome Document :=
  if negb (supports_file env (file_path))
  then Raise (mkExn Exception ("Unsupported file type: " +:+ path_suffix env file_path))
  else if negb (path_exists env file_path)
  then Raise (mkExn Exception ("File not found: " +:+ file_path))
  else try_processors env file_path (processors env) None.

End DocumentProcessor.

(** ** [config.py]: the settings the pipeline reads *)

Module Config.

Record AppSettings : Type := mkAppSettings {
  chunk_size : Z;
  chunk_overlap : Z
}.

(** The defaults of the dataclass. *)
Definition default_settings : AppSettings :=
  {| chunk_size := 1000; chunk_overlap := 200 |}.

End Config.

(** ** [vector_store.py] *)

Module VectorStore.

Import Config.

(** One record of the index: what [collection.add] was given. *)
Record Entry : Type := mkEntry {
  entry_id : string;
  entry_embedding : list spec_float;
  entry_document : string;
  entry_metadata : gmap string string
}.

(** The index is the list of its records, the latest last.  Nothing in
    this type keeps ids apart: [collection_add] appends what it is
    given. *)
Definition Collection : Type := list Entry.

Definition ids (c : Collection) : list string := map entry_id c.

(** The answer of [collection.query]: one inner list per query
    embedding. *)
Record QueryResult : Type := mkQueryResult {
  documents : list (list string);
  metadatas : list (list (gmap string string));
  distances : list (list spec_float)
}.

(** The collaborators of the store.  [get_absent] is what
    [collection.get] does for an id the index does not hold: an empty
    answer, or an exception, which the bare [except] takes for absence. *)
Record Env : Type := mkEnv {
  encode : string -> outcome (list spec_float);
  get_absent : string -> option exn;
  add_error : Collection -> Entry -> option exn;
  query : Collection -> list spec_float -> Z -> outcome QueryResult;
  (** [Path(p).name], for [Document.file_name] *)
  path_name : string -> string
}.

(** [collection.get(ids=[chunk_id])['ids']] *)
Definition collection_get (env : Env) (c : Collection) (chunk_id : string)
    : outcome (list string) :=
  match List.filter (String.eqb chunk_id) (ids c) with
  | [] =>
      match get_absent env chunk_id with
      | Some err => Raise err
      | None => Return []
      end
  | found => Return found
  end.

(** [collection.add(...)] of one record: the state after the call and
    what the call returned. *)
Definition collection_add (env : Env) (c : Collection) (e : Entry)
    : Collection * outcome unit :=
  match add_error env c e with
  | Some err => (c, Raise err)
  | None => (c ++ [e], Return tt)
  end.

(** [Document.file_name]: [Path(...)] takes a string and raises a
    [TypeError] for a [source_path] of another type. *)
Definition file_name (env : Env) (d : Document) : outcome string :=
  match doc_metadata d !! "source_path" with
  | None => Return (path_name env "")
  | Some (VStr p) => Return (path_name env p)
  | Some (VInt _) =>
      Raise (mkExn TypeError "expected str, bytes or os.PathLike object, not int")
  | Some (VFloat _) =>
      Raise (mkExn TypeError "expected str, bytes or os.PathLike object, not float")
  end.

Definition chunk_id (document : Document) (i : nat) : string :=
  doc_id document +:+ "_chunk_" +:+ str_int (Z.of_nat i).

(** The body of the [for] loop of [add_document] for the [i]-th chunk:
    the chunk is encoded first, then the arguments of [collection.add]
    are evaluated, [document.file_name] among them. *)
Definition add_chunk (env : Env) (document : Document) (c : Collection)
    (i : nat) (chunk : TextChunk) : Collection * outcome unit :=
  let chunk_id := chunk_id document i in
  let existing :=
    match collection_get env c chunk_id with
    | Return found => negb (Nat.eqb (length found) 0)
    | Raise _ => false
    end in
  if existing then (c, Return tt)
  else
    match encode env (content chunk) with
    | Raise err => (c, Raise err)
    | Return embedding =>
        match file_name env document with
        | Raise err => (c, Raise err)
        | Return filename =>
            collection_add env c
              {| entry_id := chunk_id;
                 entry_embedding := embedding;
                 entry_document := content chunk;
                 entry_metadata :=
                   <["doc_id" := doc_id document]>
                   (<["document_title" := doc_title document]>
                   (<["filename" := filename]> ∅)) |}
        end
    end.

(** The [for] loop over [enumerate(chunks)], from index [i] on; an
    exception leaves the loop. *)
Fixpoint add_chunks (env : Env) (document : Document) (c : Collection)
    (i : nat) (chunks : list TextChunk) : Collection * outcome unit :=
  match chunks with
  | [] => (c, Return tt)
  | chunk :: rest =>
      match add_chunk env document c i chunk with
      | (c', Return _) => add_chunks env document c' (S i) rest
      | (c', Raise err) => (c', Raise err)
      end
  end.

(** The [try] block of [add_document]. *)
Definition add_document_try (env : Env) (settings : AppSettings)
    (c : Collection) (document : Document) : Collection * outcome unit :=
  match create_chunks (doc_content document) (chunk_size settings)
                      (chunk_overlap settings) with
  | Raise err => (c, Raise err)
  | Return chunks => add_chunks env document c 0 chunks
  end.

(** [add_document]: the [except Exception] clause logs and falls
    through, so the call returns [None] on both paths. *)
Definition add_document (env : Env) (settings : AppSettings)
    (c : Collection) (document : Document) : Collection * outcome unit :=
  match add_document_try env settings c document with
  | (c', Return _) => (c', Return tt)
  | (c', Raise _) => (c', Return tt)
  end.

(** [max(0, 1 - distance)] *)
Definition similarity_score (distance : spec_float) : spec_float :=
  Float.max0 (Float.sub (Float.of_int 1) distance).

(** [l[0]], an [IndexError] on the empty list. *)
Definition first {A : Type} (l : list A) : outcome A :=
  match l with
  | [] => Raise (mkExn IndexError "list index out of range")
  | x :: _ => Return x
  end.

(** The results built from the zipped inner lists; [i] is the index
    [enumerate] has reached. *)
Fixpoint hits (i : nat) (docs : list string) (metas : list (gmap string string))
    (dists : list spec_float) : list SearchResult :=
  match docs, metas, dists with
  | doc :: docs', metadata :: metas', distance :: dists' =>
      {| sr_content := doc;
         source := default "Unknown" (metadata !! "filename");
         score := similarity_score distance;
         sr_metadata := metadata;
         source_type := DOCUMENT;
         rank := Z.of_nat i + 1 |} :: hits (S i) docs' metas' dists'
  | _, _, _ => []
  end.

Definition search_try (env : Env) (c : Collection) (q : string) (max_results : Z)
    : outcome (list SearchResult) :=
  query_embedding ← encode env q;
  results ← query env c query_embedding max_results;
  match documents results with
  | [] => Return []
  | [] :: _ => Return []
  | docs :: _ =>
      metas ← first (metadatas results);
      dists ← first (distances results);
      Return (hits 0 docs metas dists)
  end.

(** [search]: any exception becomes the empty list. *)
Definition search (env : Env) (c : Collection) (q : string) (max_results : Z)
    : outcome (list SearchResult) :=
  match search_try env c q max_results with
  | Return rs => Return rs
  | Raise _ => Return []
  end.

End VectorStore.

(** ** [web_search.py] *)

Module WebSearch.

(** The parts of a result page the parsers look at.  An element that
    [find] did not locate is [None]; a tag that was found is true in a
    condition whatever it contains. *)
Record Anchor : Type := mkAnchor {
  a_text : string;              (** [get_text()] *)
  a_href : option string        (** the [href] attribute *)
}.

(** A [div] of class [result] of the first engine's page. *)
Record DdgDiv : Type := mkDdgDiv {
  ddg_title : option Anchor;    (** [find('a', class_='result__a')] *)
  ddg_snippet : option string   (** text of [find('div', class_='result__snippet')] *)
}.

(** A [li] of class [b_algo] of the second engine's page: the [h2], with
    its text and the anchor inside it, and the caption. *)
Record BingItem : Type := mkBingItem {
  bing_h2 : option (string * option Anchor);
  bing_caption : option string
}.

(** An HTTP answer: the status and the containers of the parsed body. *)
Record Response (A : Type) : Type := mkResponse {
  status : Z;
  containers : list A
}.
Arguments mkResponse {A} status containers.
Arguments status {A} r.
Arguments containers {A} r.

(** The network: what a GET of a search URL answers, and what closing
    the session does. *)
Record Env : Type := mkEnv {
  ddg_get : string -> outcome (Response DdgDiv);
  bing_get : string -> outcome (Response BingItem);
  session_close : option exn
}.

(** The requests a search issued, with the result budget of each. *)
Inductive EngineCall : Type :=
| CallDuckDuckGo (q : string) (budget : Z)
| CallBing (q : string) (budget : Z).

(** [1.0 - (i * 0.1)] *)
Definition rank_score (i : nat) : spec_float :=
  Float.sub Float.one (Float.mul (Float.of_int (Z.of_nat i)) Float.tenth).

(** The loop over [enumerate(result_divs)], from index [i] on. *)
Fixpoint parse_ddg (q : string) (i : nat) (result_divs : list DdgDiv)
    : list SearchResult :=
  match result_divs with
  | [] => []
  | div :: rest =>
      match ddg_title div, ddg_snippet div with
      | Some title_elem, Some snippet_elem =>
          [ {| sr_content := strip (a_text title_elem) +:+ nl +:+ strip snippet_elem;
               source := default "" (a_href title_elem);
               score := rank_score i;
               sr_metadata :=
                 <["title" := strip (a_text title_elem)]>
                 (<["snippet" := strip snippet_elem]>
                 (<["search_engine" := "duckduckgo"]>
                 (<["search_query" := q]> ∅)));
               source_type := WEB;
               rank := Z.of_nat i + 1 |} ]
      | _, _ => []
      end ++ parse_ddg q (S i) rest
  end.

Definition _search_duckduckgo (env : Env) (q : string) (max_results : Z)
    : outcome (list SearchResult) :=
  let search_url := "https://html.duckduckgo.com/html/?q=" +:+ replace_space_plus q in
  response ← ddg_get env search_url;
  if negb (status response =? 200) then Return []
  else
    let result_divs := slice_to (containers response) max_results in
    Return (parse_ddg q 0 result_divs).

(** The loop over [enumerate(result_items)], from index [i] on. *)
Fixpoint parse_bing (q : string) (i : nat) (result_items : list BingItem)
    : list SearchResult :=
  match result_items with
  | [] => []
  | item :: rest =>
      match bing_h2 item, bing_caption item with
      | Some (h2_text, Some link_elem), Some snippet_elem =>
          let title := strip h2_text in
          let url := default "" (a_href link_elem) in
          let snippet := strip snippet_elem in
          [ {| sr_content := title +:+ nl +:+ snippet;
               source := url;
               score := rank_score i;
               sr_metadata :=
                 <["title" := title]>
                 (<["snippet" := snippet]>
                 (<["search_engine" := "bing"]>
                 (<["search_query" := q]> ∅)));
               source_type := WEB;
               rank := Z.of_nat i + 1 + 10 |} ]
      | _, _ => []
      end ++ parse_bing q (S i) rest
  end.

(** [_search_bing] catches every exception itself. *)
Definition _search_bing (env : Env) (q : string) (max_results : Z)
    : outcome (list SearchResult) :=
  let search_url := "https://www.bing.com/search?q=" +:+ replace_space_plus q in
  match bing_get env search_url with
  | Raise _ => Return []
  | Return response =>
      if negb (status response =? 200) then Return []
      else
        let result_items := slice_to (containers response) max_results in
        Return (parse_bing q 0 result_items)
  end.

(** One pass of the deduplication loop; the state is
    [(seen_urls, unique_results)]. *)
Definition dedup_step (max_results : Z) (st : gset string * list SearchResult)
    (result : SearchResult) : gset string * list SearchResult :=
  let '(seen_urls, unique_results) := st in
  if negb (bool_decide (source result ∈ seen_urls))
     && (len unique_results <? max_results)
  then ({[ source result ]} ∪ seen_urls, unique_results ++ [result])
  else st.

(** What an engine call contributes to [results]: nothing when it
    raised. *)
Definition or_nothing (r : outcome (list SearchResult)) : list SearchResult :=
  match r with
  | Return rs => rs
  | Raise _ => []
  end.

(** [search]: the requests issued and the list returned. *)
Definition search (env : Env) (q : string) (max_results : Z)
    : list EngineCall * list SearchResult :=
  let ddg_results := or_nothing (_search_duckduckgo env q max_results) in
  let results := ddg_results in
  let '(calls, results) :=
    if len results <? max_results
    then
      let budget := max_results - len results in
      ([CallDuckDuckGo q max_results; CallBing q budget],
       results ++ or_nothing (_search_bing env q budget))
    else ([CallDuckDuckGo q max_results], results) in
  (calls, snd (fold_left (dedup_step max_results) results (∅, []))).

(** The merge as the specification words it: keep the first result of
    every source, in the order seen ([seen] holds the sources already
    met), then truncate. *)
Fixpoint spec_dedup (seen : gset string) (l : list SearchResult)
    : list SearchResult :=
  match l with
  | [] => []
  | r :: l' =>
      if bool_decide (source r ∈ seen) then spec_dedup seen l'
      else r :: spec_dedup ({[ source r ]} ∪ seen) l'
  end.

Definition spec_merge (max_results : Z) (l : list SearchResult) : list SearchResult :=
  take (Z.to_nat max_results) (spec_dedup ∅ l).

End WebSearch.

(** ** [llm_provider.py] *)

Module LLM.

(** The chat model: the text of the first choice for a system and a
    user prompt, or the exception of the call. *)
Record Env : Type := mkEnv {
  chat_completion : string -> string -> outcome string
}.

Definition base_prompt : string :=
  "You are an expert real estate agent and your task is documents analysis and providing insights. Provide clear, accurate answers based on the provided context. Always cite your sources and be specific about what information comes from which document.".

Definition _get_system_prompt (task_type : option TaskType) : string :=
  match task_type with
  | Some SUMMARIZATION => base_prompt +:+ " Focus on giving concise, comprehensive summaries."
  | Some WEB_SEARCH => base_prompt +:+ " Focus on current information and web sources."
  | Some ANALYSIS => base_prompt +:+ " Provide detailed analysis and insights."
  | _ => base_prompt
  end.

(** [generate_response] answers with a string on both paths. *)
Definition generate_response (env : Env) (request : QueryRequest) (context : string)
    : outcome string :=
  let system_prompt := _get_system_prompt (task_type request) in
  let user_prompt :=
    "Context:" +:+ nl +:+ context +:+ nl +:+ nl +:+ "Question: " +:+ question request
    +:+ nl +:+ nl
    +:+ "Please provide a comprehensive answer based on the context above." in
  match chat_completion env system_prompt user_prompt with
  | Return text => Return (strip text)
  | Raise e => Return ("I encountered an error generating the response: " +:+ str_exn e)
  end.

(** [any(word in query_lower for word in words)] *)
Definition any_in (words : list string) (query_lower : string) : bool :=
  existsb (fun word => contains word query_lower) words.

Definition summary_words : list string := ["summarize"; "summary"; "overview"].
Definition web_words : list string := ["current"; "latest"; "news"; "market"].
Definition document_words : list string := ["contract"; "document"; "clause"; "agreement"].

(** [TaskClassifier.classify] *)
Definition classify (query : string) : TaskType :=
  let query_lower := lower query in
  if any_in summary_words query_lower then SUMMARIZATION
  else if any_in web_words query_lower then WEB_SEARCH
  else if any_in document_words query_lower then DOCUMENT_QUERY
  else HYBRID_SEARCH.

End LLM.

(** ** [core.py] *)

Module Core.

Import Config.

(** Everything the orchestrator's components read, the file system as
    [load_documents] sees it and the clock of [ask_question]. *)
Record Env : Type := mkEnv {
  doc_env : DocumentProcessor.Env;
  store_env : VectorStore.Env;
  web_env : WebSearch.Env;
  llm_env : LLM.Env;
  (** [str(Path(path))]: the path as [pathlib] writes it; a [Path] is
      identified with this string *)
  path_str : string -> string;
  (** [Path.exists()], [Path.is_file()], [Path.is_dir()]: they answer, or
      re-raise the [OSError] that they do not take for absence *)
  path_exists : string -> outcome bool;
  is_file : string -> outcome bool;
  is_dir : string -> outcome bool;
  (** the paths that [path.glob("*" + ext)] yields, or the exception
      that ends the iteration *)
  glob : string -> string -> outcome (list string);
  (** readings of [time.time()] and the [:.2f] format *)
  now : nat -> spec_float;
  format_2f : spec_float -> string
}.

(** The mutable part of an [AgenticAISystem]: the document registry and
    the index behind the vector store. *)
Record State : Type := mkState {
  registry : gmap string Document;
  collection : VectorStore.Collection
}.

(** The body of the loop of [load_documents] for one file; the state is
    the system and the [results] dict. *)
Definition load_one (env : Env) (settings : AppSettings)
    (st : State * gmap string string) (file_path : string)
    : State * gmap string string :=
  let '(sys, results) := st in
  match DocumentProcessor.process_document (doc_env env) file_path with
  | Raise e => (sys, <[file_path := "[ERROR] Error: " +:+ str_exn e]> results)
  | Return document =>
      let registry' := <[doc_id document := document]> (registry sys) in
      match VectorStore.add_document (store_env env) settings (collection sys) document with
      | (c', Return _) =>
          ({| registry := registry'; collection := c' |},
           <[file_path := "[OK] Success: " +:+ str_int (word_count document) +:+ " words"]>
             results)
      | (c', Raise e) =>
          ({| registry := registry'; collection := c' |},
           <[file_path := "[ERROR] Error: " +:+ str_exn e]> results)
      end
  end.

(** The entry that a pass of the loop leaves for a file when indexing
    returns: it depends on the conversion only. *)
Definition recorded (env : Env) (file_path : string) : string :=
  match DocumentProcessor.process_document (doc_env env) file_path with
  | Return document => "[OK] Success: " +:+ str_int (word_count document) +:+ " words"
  | Raise e => "[ERROR] Error: " +:+ str_exn e
  end.

(** The loop over the extensions,
    [file_paths.extend(path_obj.glob("*" + ext))]. *)
Fixpoint glob_all (env : Env) (path_obj : string) (exts : list string)
    : outcome (list string) :=
  match exts with
  | [] => Return []
  | ext :: rest =>
      found ← glob env path_obj ext;
      more ← glob_all env path_obj rest;
      Return (found ++ more)
  end.

(** The files [load_documents] settles on, or the exception that ends
    the call before the loop: one of its [ValueError]s, or what a call of
    the file system raised.  The set of extensions is walked in the order
    of [elements]; each extension is met once. *)
Definition resolve_paths (env : Env) (path : string) : outcome (list string) :=
  let denv := doc_env env in
  let path_obj := path_str env path in
  match path_exists env path_obj with
  | Raise e => Raise e
  | Return false => Raise (mkExn ValueError ("Path not found: " +:+ path))
  | Return true =>
      match is_file env path_obj with
      | Raise e => Raise e
      | Return true =>
          if DocumentProcessor.supports_file denv path_obj then Return [path_obj]
          else Raise (mkExn ValueError
                        ("Unsupported file type: "
                         +:+ DocumentProcessor.path_suffix denv path_obj))
      | Return false =>
          match is_dir env path_obj with
          | Raise e => Raise e
          | Return true =>
              match glob_all env path_obj
                      (elements (DocumentProcessor.supported_extensions denv)) with
              | Raise e => Raise e
              | Return [] =>
                  Raise (mkExn ValueError
                           ("No supported files found in directory: " +:+ path))
              | Return file_paths => Return file_paths
              end
          | Return false =>
              Raise (mkExn ValueError
                       ("Path is neither file nor directory: " +:+ path))
          end
      end
  end.

Definition load_documents (env : Env) (settings : AppSettings) (sys : State)
    (path : string) : State * outcome (gmap string string) :=
  match resolve_paths env path with
  | Raise e => (sys, Raise e)
  | Return file_paths =>
      let '(sys', results) := fold_left (load_one env settings) file_paths (sys, ∅) in
      (sys', Return results)
  end.

(** The keyword arguments of [ask_question]: the fields of
    [QueryRequest] the caller set, and the other keywords it passed, in
    the order of the call.  The body of the method receives them as
    [kwargs]; a call that names one of the method's own parameters among
    them is refused before the body runs, see [call_ask_question]. *)
Record Kwargs : Type := mkKwargs {
  kw_task_type : option (option TaskType);
  kw_max_results : option Z;
  kw_include_web : option bool;
  kw_include_documents : option bool;
  kw_other : list string
}.

Definition no_kwargs : Kwargs :=
  {| kw_task_type := None; kw_max_results := None; kw_include_web := None;
     kw_include_documents := None; kw_other := [] |}.

(** [QueryRequest(question=question, **kwargs)]: a keyword that is no
    field of the dataclass is a [TypeError], raised inside the [try]
    block.  ([kwargs] never holds the names [self] and [question]: the
    call that passes them is refused while it binds its arguments, see
    [call_ask_question].) *)
Definition make_request (q : string) (kw : Kwargs) : outcome QueryRequest :=
  match kw_other kw with
  | k :: _ =>
      Raise (mkExn TypeError
        ("QueryRequest.__init__() got an unexpected keyword argument '" +:+ k +:+ "'"))
  | [] =>
      Return {| question := q;
                task_type := default None (kw_task_type kw);
                max_results := default 5 (kw_max_results kw);
                include_web := default true (kw_include_web kw);
                include_documents := default true (kw_include_documents kw) |}
  end.

(** The calls [ask_question] makes to its retrieval sources. *)
Inductive Call : Type :=
| DocumentSearch (q : string) (n : Z)
| WebSearchCall (q : string) (n : Z)
| WebRequest (c : WebSearch.EngineCall).

Definition is_document_search (c : Call) : bool :=
  match c with DocumentSearch _ _ => true | _ => false end.
Definition is_web_search (c : Call) : bool :=
  match c with WebSearchCall _ _ => true | _ => false end.
Definition is_web_request (c : Call) : bool :=
  match c with WebRequest _ => true | _ => false end.

(** An item of the [sources] list of a response. *)
Record SourceEntry : Type := mkSourceEntry {
  src_type : string;
  src_title : string;
  src_source : string;
  src_score : spec_float
}.

(** The values of a response dict. *)
Inductive rval : Type :=
| RStr (s : string)
| RInt (z : Z)
| RBool (b : bool)
| RSources (l : list SourceEntry).

(** A response: the dict literal, key by key. *)
Definition ResponseDict : Type := list (string * rval).

Definition keys (d : ResponseDict) : list string := map fst d.

Definition elapsed (env : Env) : string :=
  format_2f env (Float.sub (now env 1%nat) (now env 0%nat)) +:+ "s".

Definition context_part (result : SearchResult) : string :=
  let source_info :=
    "[" +:+ upper (SourceType_value (source_type result)) +:+ "] " +:+ title result in
  source_info +:+ nl +:+ sr_content result +:+ nl.

Definition source_entry (r : SearchResult) : SourceEntry :=
  {| src_type := SourceType_value (source_type r);
     src_title := title r;
     src_source := source r;
     src_score := score r |}.

(** The [try] block of [ask_question]: the calls made and the dict
    returned, or the exception that left the block. *)
Definition ask_question_try (env : Env) (sys : State) (q : string) (kw : Kwargs)
    : list Call * outcome ResponseDict :=
  match make_request q kw with
  | Raise e => ([], Raise e)
  | Return request =>
      let task_type := LLM.classify q in
      let '(calls, found) :=
        if include_documents request && negb (TaskType_eqb task_type WEB_SEARCH)
        then ([DocumentSearch q (max_results request)],
              VectorStore.search (store_env env) (collection sys) q (max_results request))
        else ([], Return []) in
      match found with
      | Raise e => (calls, Raise e)
      | Return all_results =>
          let '(calls, found) :=
            if include_web request
               && (TaskType_eqb task_type WEB_SEARCH
                   || TaskType_eqb task_type HYBRID_SEARCH)
            then
              let '(requests, web_results) :=
                WebSearch.search (web_env env) q (max_results request) in
              (calls ++ WebSearchCall q (max_results request) :: map WebRequest requests,
               match WebSearch.session_close (web_env env) with
               | Some e => Raise e
               | None => Return (all_results ++ web_results)
               end)
            else (calls, Return all_results) in
          match found with
          | Raise e => (calls, Raise e)
          | Return all_results =>
              let context_parts :=
                map context_part (slice_to all_results (max_results request)) in
              let context :=
                match context_parts with
                | [] => "No relevant context found."
                | _ => join nl context_parts
                end in
              match LLM.generate_response (llm_env env) request context with
              | Raise e => (calls, Raise e)
              | Return answer =>
                  let confidence :=
                    match all_results with [] => 0 | _ => 85 end in
                  (calls,
                   Return
                     [ ("answer", RStr answer);
                       ("task_type", RStr (TaskType_value task_type));
                       ("processing_time", RStr (elapsed env));
                       ("confidence", RInt confidence);
                       ("sources", RSources (map source_entry (slice_to all_results 5)));
                       ("has_sources", RBool (0 <? len all_results));
                       ("total_sources", RInt (len all_results)) ])
              end
          end
      end
  end.

(** The keys of a response. *)
Definition response_keys : list string :=
  ["answer"; "task_type"; "processing_time"; "confidence"; "sources";
   "has_sources"; "total_sources"].

(** The dict of the [except Exception] clause. *)
Definition error_response (env : Env) (e : exn) : ResponseDict :=
  [ ("answer", RStr ("Error processing question: " +:+ str_exn e));
    ("task_type", RStr "error");
    ("processing_time", RStr (elapsed env));
    ("confidence", RInt 0);
    ("sources", RSources []);
    ("has_sources", RBool false);
    ("total_sources", RInt 0) ].

(** The body of [ask_question], run with the keywords that the call
    bound to [kwargs]: the calls made and the dict returned. *)
Definition ask_question (env : Env) (sys : State) (q : string) (kw : Kwargs)
    : list Call * outcome ResponseDict :=
  match ask_question_try env sys q kw with
  | (calls, Return d) => (calls, Return d)
  | (calls, Raise e) => (calls, Return (error_response env e))
  end.

(** What a call of [ask_question] comes to for its caller: a response,
    an exception that is an instance of [Exception], or one that is
    not. *)
Inductive Reaches : Type :=
| Responds (d : ResponseDict)
| Propagates (e : exn)
| PropagatesBase (b : base_exn).

(** What leaves the [try] block. *)
Inductive Leaves : Type :=
| Returned (d : ResponseDict)
| Raised (e : exn)
| RaisedBase (b : base_exn).

(** The [try] statement of [ask_question]: its one clause,
    [except Exception], takes the instances of [Exception]. *)
Definition except_Exception (env : Env) (l : Leaves) : Reaches :=
  match l with
  | Returned d => Responds d
  | Raised e => Responds (error_response env e)
  | RaisedBase b => PropagatesBase b
  end.

(** The parameters that a call [ask_question(question, **kwargs)] has
    bound when it comes to its keywords. *)
Definition own_parameters : list string := ["self"; "question"].

(** The first keyword of the call that names a bound parameter. *)
Definition clash (kw : Kwargs) : option string :=
  List.find (fun k => bool_decide (k ∈ own_parameters)) (kw_other kw).

(** A call [system.ask_question(question, **kwargs)].  Binding the
    arguments comes first and is outside the [try] statement: a keyword
    that names a bound parameter is a [TypeError] for the caller.
    [interrupt] is the exception outside [Exception], if any, that
    leaves the [try] block in place of the block's own outcome (a
    [KeyboardInterrupt] while it runs, the [CancelledError] of the task's
    cancellation); whether one does is not the program's doing, so it is
    an input. *)
Definition call_ask_question (env : Env) (sys : State) (q : string) (kw : Kwargs)
    (interrupt : option base_exn) : Reaches :=
  match clash kw with
  | Some k =>
      Propagates (mkExn TypeError
        ("AgenticAISystem.ask_question() got multiple values for argument '"
         +:+ k +:+ "'"))
  | None =>
      except_Exception env
        match interrupt with
        | Some b => RaisedBase b
        | None =>
            match snd (ask_question_try env sys q kw) with
            | Return d => Returned d
            | Raise e => Raised e
            end
        end
  end.

End Core.

(** ** Concrete surroundings, for running the model *)

Module Samples.

(** A result [div] of the first engine with a title, a link and a
    snippet. *)
Definition ddg_div (k : nat) : WebSearch.DdgDiv :=
  {| WebSearch.ddg_title :=
       Some {| WebSearch.a_text := "Title " +:+ pretty k;
               WebSearch.a_href := Some ("https://example.org/" +:+ pretty k) |};
     WebSearch.ddg_snippet := Some "snippet" |}.

(** A result item of the second engine, likewise. *)
Definition bing_item (k : nat) : WebSearch.BingItem :=
  {| WebSearch.bing_h2 :=
       Some ("Title " +:+ pretty k,
             Some {| WebSearch.a_text := "Title " +:+ pretty k;
                     WebSearch.a_href := Some ("https://example.org/" +:+ pretty k) |});
     WebSearch.bing_caption := Some "caption" |}.

(** The first engine answers with the pages 0 .. [a - 1], the second
    with the pages [b] .. [b + m - 1]. *)
Definition web (a b m : nat) : WebSearch.Env :=
  {| WebSearch.ddg_get := fun _ =>
       Return (WebSearch.mkResponse 200 (map ddg_div (seq 0 a)));
     WebSearch.bing_get := fun _ =>
       Return (WebSearch.mkResponse 200 (map bing_item (seq b m)));
     WebSearch.session_close := None |}.

(** A store whose encoder and index answer, with an empty query
    answer. *)
Definition store : VectorStore.Env :=
  {| VectorStore.encode := fun _ => Return [Float.one];
     VectorStore.get_absent := fun _ => None;
     VectorStore.add_error := fun _ _ => None;
     VectorStore.query := fun _ _ _ =>
       Return {| VectorStore.documents := [];
                 VectorStore.metadatas := [];
                 VectorStore.distances := [] |};
     VectorStore.path_name := fun p => p |}.

(** A store whose encoder is down. *)
Definition store_down : VectorStore.Env :=
  {| VectorStore.encode := fun _ => Raise (mkExn Exception "encoder unavailable");
     VectorStore.get_absent := fun _ => Some (mkExn Exception "index unavailable");
     VectorStore.add_error := fun _ _ => Some (mkExn Exception "index unavailable");
     VectorStore.query := fun _ _ _ => Raise (mkExn Exception "index unavailable");
     VectorStore.path_name := fun p => p |}.

(** A store that finds one chunk at the given distance. *)
Definition store_hit (distance : spec_float) : VectorStore.Env :=
  {| VectorStore.encode := fun _ => Return [Float.one];
     VectorStore.get_absent := fun _ => None;
     VectorStore.add_error := fun _ _ => None;
     VectorStore.query := fun _ _ _ =>
       Return {| VectorStore.documents := [["lease text"]];
                 VectorStore.metadatas := [[ <["filename" := "lease.txt"]> ∅ ]];
                 VectorStore.distances := [[distance]] |};
     VectorStore.path_name := fun p => p |}.

(** The distances 0.25 and 1.5, and the similarity 0.75. *)
Definition quarter : spec_float := binary_normalize Float.prec Float.emax 1 (-2) false.
Definition one_and_half : spec_float := binary_normalize Float.prec Float.emax 3 (-1) false.
Definition three_quarters : spec_float := binary_normalize Float.prec Float.emax 3 (-2) false.

(** A network whose session fails to close. *)
Definition web_close_fails (a : nat) : WebSearch.Env :=
  {| WebSearch.ddg_get := WebSearch.ddg_get (web a 0 0);
     WebSearch.bing_get := WebSearch.bing_get (web a 0 0);
     WebSearch.session_close := Some (mkExn OSError "connection reset") |}.

(** A file system with the text file [notes.txt], read by the plain
    text converter only. *)
Definition files : DocumentProcessor.Env :=
  {| DocumentProcessor.HAS_MARKITDOWN := false;
     DocumentProcessor.HAS_DOCX := false;
     DocumentProcessor.path_name := fun p => p;
     DocumentProcessor.path_stem := fun _ => "notes";
     DocumentProcessor.path_suffix := fun _ => ".txt";
     DocumentProcessor.path_exists := fun p => String.eqb p "notes.txt";
     DocumentProcessor.st_mtime := fun _ => Float.one;
     DocumentProcessor.st_size := fun _ => 11;
     DocumentProcessor.time_time := fun _ _ => Float.one;
     DocumentProcessor.str_float := fun _ => "1.0";
     DocumentProcessor.md5_hexdigest := fun s => "md5:" +:+ s;
     DocumentProcessor.markitdown_convert := fun _ =>
       Raise (mkExn Exception "not installed");
     DocumentProcessor.docx_paragraphs := fun _ =>
       Raise (mkExn Exception "not installed");
     DocumentProcessor.read_utf8 := fun _ => Return "alpha beta gamma";
     DocumentProcessor.read_latin1 := fun _ => Return "alpha beta gamma" |}.

(** The same file system, the file holding blanks only. *)
Definition blank_files : DocumentProcessor.Env :=
  {| DocumentProcessor.HAS_MARKITDOWN := false;
     DocumentProcessor.HAS_DOCX := false;
     DocumentProcessor.path_name := DocumentProcessor.path_name files;
     DocumentProcessor.path_stem := DocumentProcessor.path_stem files;
     DocumentProcessor.path_suffix := DocumentProcessor.path_suffix files;
     DocumentProcessor.path_exists := DocumentProcessor.path_exists files;
     DocumentProcessor.st_mtime := DocumentProcessor.st_mtime files;
     DocumentProcessor.st_size := DocumentProcessor.st_size files;
     DocumentProcessor.time_time := DocumentProcessor.time_time files;
     DocumentProcessor.str_float := DocumentProcessor.str_float files;
     DocumentProcessor.md5_hexdigest := DocumentProcessor.md5_hexdigest files;
     DocumentProcessor.markitdown_convert := DocumentProcessor.markitdown_convert files;
     DocumentProcessor.docx_paragraphs := DocumentProcessor.docx_paragraphs files;
     DocumentProcessor.read_utf8 := fun _ => Return "   ";
     DocumentProcessor.read_latin1 := fun _ => Return "   " |}.

(** The document that the plain text converter makes of [notes.txt]. *)
Definition notes_document : Document :=
  DocumentProcessor.build_document files "notes.txt" "text" "alpha beta gamma"
    (<["encoding" := VStr "utf-8"]> (<["processor" := VStr "text"]> ∅)).

Definition chat : LLM.Env :=
  {| LLM.chat_completion := fun _ _ => Return "An answer." |}.

(** [str(Path(p))] for the paths used below: a leading [./] goes. *)
Definition normal (p : string) : string :=
  if String.prefix "./" p then String.substring 2 (String.length p - 2) p else p.

(** A whole system around a store and a network. *)
Definition world (s : VectorStore.Env) (w : WebSearch.Env) : Core.Env :=
  {| Core.doc_env := files;
     Core.store_env := s;
     Core.web_env := w;
     Core.llm_env := chat;
     Core.path_str := normal;
     Core.path_exists := fun p => Return (DocumentProcessor.path_exists files p);
     Core.is_file := fun _ => Return true;
     Core.is_dir := fun _ => Return false;
     Core.glob := fun _ _ => Return [];
     Core.now := fun _ => Float.one;
     Core.format_2f := fun _ => "0.00" |}.

(** A system whose chat model is down. *)
Definition world_chat_down : Core.Env :=
  {| Core.doc_env := files;
     Core.store_env := store;
     Core.web_env := web 3 0 0;
     Core.llm_env :=
       {| LLM.chat_completion := fun _ _ => Raise (mkExn Exception "rate limit") |};
     Core.path_str := normal;
     Core.path_exists := fun p => Return (DocumentProcessor.path_exists files p);
     Core.is_file := fun _ => Return true;
     Core.is_dir := fun _ => Return false;
     Core.glob := fun _ _ => Return [];
     Core.now := fun _ => Float.one;
     Core.format_2f := fun _ => "0.00" |}.

Definition empty_system : Core.State :=
  {| Core.registry := ∅; Core.collection := [] |}.

End Samples.

(** ** Notions used to state further properties *)

Module Shape.

(** A string without a whitespace character: a word. *)
Fixpoint all_nonspace (s : string) : bool :=
  match s with
  | EmptyString => true
  | String c s' => negb (isspace c) && all_nonspace s'
  end.

(** A word of a text: not empty, no whitespace inside. *)
Definition is_word (w : string) : Prop := w <> "" /\ all_nonspace w = true.

(** A string without a line feed. *)
Fixpoint no_newline (s : string) : bool :=
  match s with
  | EmptyString => true
  | String c s' => negb (Ascii.eqb c (ascii_of_nat 10)) && no_newline s'
  end.

(** A string that does not start with whitespace. *)
Definition head_ok (s : string) : bool :=
  match s with
  | EmptyString => true
  | String c _ => negb (isspace c)
  end.

(** A string that does not end with whitespace. *)
Fixpoint last_ok (s : string) : bool :=
  match s with
  | EmptyString => true
  | String c EmptyString => negb (isspace c)
  | String _ s' => last_ok s'
  end.

(** Lines as [_clean_text] leaves them: every line is free of line feeds
    and of whitespace at its ends, and an empty line only comes after a
    line that is not empty ([prev] tells whether the line before is not
    empty; at the start of a text it is [false]). *)
Fixpoint tidy (prev : bool) (lines : list string) : bool :=
  match lines with
  | [] => true
  | l :: rest =>
      no_newline l && head_ok l && last_ok l && (truthy l || prev)
      && tidy (truthy l) rest
  end.

End Shape.

(** ** The two loops of [_clean_text], as functions of the lines to come *)

Module CleanLoops.

(** First loop: [prev] tells whether the line kept last is not empty. *)
Fixpoint keep (prev : bool) (lines : list string) : list string :=
  match lines with
  | [] => []
  | line :: rest =>
      let line := strip line in
      if truthy line || prev then line :: keep (truthy line) rest
      else keep prev rest
  end.

(** Second loop, with its flag [prev_empty]. *)
Fixpoint squeeze (prev_empty : bool) (lines : list string) : list string :=
  match lines with
  | [] => []
  | line :: rest =>
      if negb (truthy line)
      then (if negb prev_empty then line :: squeeze true rest else squeeze true rest)
      else line :: squeeze false rest
  end.

(** Whether the list [cleaned_lines], given in reverse, ends in a line
    that is not empty. *)
Definition last_truthy (rev_cleaned : list string) : bool :=
  match rev_cleaned with
  | [] => false
  | last :: _ => truthy last
  end.

End CleanLoops.

(** ** More concrete surroundings *)

Module Cases.

(** A file system without the optional converters; [text] is what the
    file [memo.md] holds. *)
Definition plain (text : string) : DocumentProcessor.Env :=
  {| DocumentProcessor.HAS_MARKITDOWN := false;
     DocumentProcessor.HAS_DOCX := false;
     DocumentProcessor.path_name := fun p => p;
     DocumentProcessor.path_stem := fun _ => "memo";
     DocumentProcessor.path_suffix := fun _ => ".MD";
     DocumentProcessor.path_exists := fun p => String.eqb p "memo.MD";
     DocumentProcessor.st_mtime := fun _ => Float.one;
     DocumentProcessor.st_size := fun _ => 42;
     DocumentProcessor.time_time := fun _ _ => Float.one;
     DocumentProcessor.str_float := fun _ => "1.0";
     DocumentProcessor.md5_hexdigest := fun s => "md5:" +:+ s;
     DocumentProcessor.markitdown_convert := fun _ =>
       Raise (mkExn Exception "not installed");
     DocumentProcessor.docx_paragraphs := fun _ =>
       Raise (mkExn Exception "not installed");
     DocumentProcessor.read_utf8 := fun _ =>
       Raise (mkExn UnicodeDecodeError "invalid start byte");
     DocumentProcessor.read_latin1 := fun _ => Return text |}.

End Cases.

(** ** A directory with two files *)

Module Batch.

(** The directory [docs] holds [a.txt], which reads well, and [b.md],
    which cannot be read. *)
Definition files : DocumentProcessor.Env :=
  {| DocumentProcessor.HAS_MARKITDOWN := false;
     DocumentProcessor.HAS_DOCX := false;
     DocumentProcessor.path_name := fun p => p;
     DocumentProcessor.path_stem := fun p => p;
     DocumentProcessor.path_suffix := fun p =>
       if String.eqb p "docs/a.txt" then ".txt"
       else if String.eqb p "docs/b.md" then ".md" else "";
     DocumentProcessor.path_exists := fun p =>
       String.eqb p "docs" || String.eqb p "docs/a.txt" || String.eqb p "docs/b.md";
     DocumentProcessor.st_mtime := fun _ => Float.one;
     DocumentProcessor.st_size := fun _ => 9;
     DocumentProcessor.time_time := fun _ _ => Float.one;
     DocumentProcessor.str_float := fun _ => "1.0";
     DocumentProcessor.md5_hexdigest := fun s => "md5:" +:+ s;
     DocumentProcessor.markitdown_convert := fun _ =>
       Raise (mkExn Exception "not installed");
     DocumentProcessor.docx_paragraphs := fun _ =>
       Raise (mkExn Exception "not installed");
     DocumentProcessor.read_utf8 := fun p =>
       if String.eqb p "docs/a.txt" then Return "one two"
       else Raise (mkExn OSError "Permission denied");
     DocumentProcessor.read_latin1 := fun p =>
       Raise (mkExn OSError "Permission denied") |}.

Definition world : Core.Env :=
  {| Core.doc_env := files;
     Core.store_env := Samples.store;
     Core.web_env := Samples.web 0 0 0;
     Core.llm_env := Samples.chat;
     Core.path_str := Samples.normal;
     Core.path_exists := fun p => Return (DocumentProcessor.path_exists files p);
     Core.is_file := fun p => Return (negb (String.eqb p "docs"));
     Core.is_dir := fun p => Return (String.eqb p "docs");
     Core.glob := fun p ext =>
       if String.eqb ext ".txt" then Return ["docs/a.txt"]
       else if String.eqb ext ".md" then Return ["docs/b.md"] else Return [];
     Core.now := fun _ => Float.one;
     Core.format_2f := fun _ => "0.00" |}.

End Batch.

(** ** Notions about the results of the two engines *)

Module Engines.

(** What a result of the first engine's parser carries. *)
Definition from_duckduckgo (q : string) (n : Z) (r : SearchResult) : Prop :=
  sr_metadata r !! "search_engine" = Some "duckduckgo"
  /\ sr_metadata r !! "search_query" = Some q
  /\ source_type r = WEB
  /\ 1 <= rank r <= n.

(** What a result of the second engine's parser carries. *)
Definition from_bing (q : string) (n : Z) (r : SearchResult) : Prop :=
  sr_metadata r !! "search_engine" = Some "bing"
  /\ sr_metadata r !! "search_query" = Some q
  /\ source_type r = WEB
  /\ 11 <= rank r <= 10 + n.

(** An engine that is down: the request raises, or the status is not
    200. *)
Definition down {A : Type} (answer : outcome (WebSearch.Response A)) : Prop :=
  match answer with
  | Raise _ => True
  | Return response => WebSearch.status response <> 200
  end.

End Engines.

(** ** [llm_provider.py]: choosing the model *)

Module LLMInit.

(** The test request that [_get_available_model] sends for a model: the
    exception it raised, or [None] when the model answered. *)
Record Env : Type := mkEnv {
  probe : string -> option exn
}.

Definition model_options (preferred_model : string) : list string :=
  [preferred_model; "gpt-4o-mini"; "gpt-4o"; "gpt-4"; "gpt-4.1-mini-2025-04-14"].

(** The loop over the candidates still to try: both branches of the
    handler go on to the next candidate. *)
Fixpoint try_models (env : Env) (options : list string) : outcome string :=
  match options with
  | [] => Raise (mkExn Exception "No OpenAI models are available for your account")
  | model :: rest =>
      match probe env model with
      | None => Return model
      | Some e =>
          if contains "model_not_found" (str_exn e) || contains "does not exist" (str_exn e)
          then try_models env rest
          else try_models env rest
      end
  end.

Definition _get_available_model (env : Env) (preferred_model : string) : outcome string :=
  try_models env (model_options preferred_model).

End LLMInit.

(** ** Variations of a system's surroundings and of a call's keywords *)

Module Vary.

(** The same surroundings with another network. *)
Definition with_web (env : Core.Env) (w : WebSearch.Env) : Core.Env :=
  {| Core.doc_env := Core.doc_env env;
     Core.store_env := Core.store_env env;
     Core.web_env := w;
     Core.llm_env := Core.llm_env env;
     Core.path_str := Core.path_str env;
     Core.path_exists := Core.path_exists env;
     Core.is_file := Core.is_file env;
     Core.is_dir := Core.is_dir env;
     Core.glob := Core.glob env;
     Core.now := Core.now env;
     Core.format_2f := Core.format_2f env |}.

(** The same surroundings with another chat model. *)
Definition with_llm (env : Core.Env) (l : LLM.Env) : Core.Env :=
  {| Core.doc_env := Core.doc_env env;
     Core.store_env := Core.store_env env;
     Core.web_env := Core.web_env env;
     Core.llm_env := l;
     Core.path_str := Core.path_str env;
     Core.path_exists := Core.path_exists env;
     Core.is_file := Core.is_file env;
     Core.is_dir := Core.is_dir env;
     Core.glob := Core.glob env;
     Core.now := Core.now env;
     Core.format_2f := Core.format_2f env |}.

(** The same keywords with another [task_type]. *)
Definition with_task_type (kw : Core.Kwargs) (t : option (option TaskType))
    : Core.Kwargs :=
  {| Core.kw_task_type := t;
     Core.kw_max_results := Core.kw_max_results kw;
     Core.kw_include_web := Core.kw_include_web kw;
     Core.kw_include_documents := Core.kw_include_documents kw;
     Core.kw_other := Core.kw_other kw |}.

(** A network whose first engine answers 503 and whose second engine
    answers with the pages 0 .. [m - 1]. *)
Definition first_engine_down (m : nat) : WebSearch.Env :=
  {| WebSearch.ddg_get := fun _ =>
       Return (WebSearch.mkResponse 503 (map Samples.ddg_div (seq 0 3)));
     WebSearch.bing_get := WebSearch.bing_get (Samples.web 0 0 m);
     WebSearch.session_close := None |}.

(** Probes that fail for every model but the one named. *)
Definition only_model (name : string) : LLMInit.Env :=
  {| LLMInit.probe := fun model =>
       if String.eqb model name then None
       else Some (mkExn Exception "The model does not exist") |}.

End Vary.

(** ** Chat models and outages, for running the model *)

Module Outage.

(** A chat model that answers under the base prompt only. *)
Definition picky_chat : LLM.Env :=
  {| LLM.chat_completion := fun system_prompt _ =>
       if String.eqb system_prompt LLM.base_prompt then Return "An answer."
       else Raise (mkExn Exception "unexpected prompt") |}.

(** A chat model that is down. *)
Definition chat_down : LLM.Env :=
  {| LLM.chat_completion := fun _ _ => Raise (mkExn Exception "rate limit") |}.

(** A chat model that repeats the user prompt. *)
Definition echo_chat : LLM.Env :=
  {| LLM.chat_completion := fun _ user_prompt => Return user_prompt |}.

(** A network with both engines down. *)
Definition web_down : WebSearch.Env :=
  {| WebSearch.ddg_get := fun _ => Raise (mkExn OSError "timeout");
     WebSearch.bing_get := fun _ => Return (WebSearch.mkResponse 429 []);
     WebSearch.session_close := None |}.

(** Everything around the chat model down. *)
Definition dark (l : LLM.Env) : Core.Env :=
  Vary.with_llm (Samples.world Samples.store_down web_down) l.

End Outage.

(** ** [config.py]: the [.env] file *)

Module EnvFile.

(** The surroundings of [load_env_file]: whether the file exists, the
    lines that iterating over it yields before the optional exception of
    the read, and the exception, if any, that the operating system
    interface raises for an assignment to [os.environ]. *)
Record Env : Type := mkEnv {
  path_exists : string -> bool;
  read_lines : string -> list string * option exn;
  putenv_error : string -> string -> option exn
}.

(** The process: its environment variables and what it has printed. *)
Record Process : Type := mkProcess {
  environ : gmap string string;
  printed : list string
}.

(** The double and the single quote, one character each. *)
Definition dquote : string := String (ascii_of_nat 34) EmptyString.
Definition squote : string := String (ascii_of_nat 39) EmptyString.

(** [s.startswith(p)] and [s.endswith(p)] *)
Definition startswith (p s : string) : bool := String.prefix p s.

Fixpoint endswith (p s : string) : bool :=
  String.eqb p s ||
  match s with
  | EmptyString => false
  | String _ s' => endswith p s'
  end.

(** [s[i:j]] on a string. *)
Definition slice_str (s : string) (i j : Z) : string :=
  string_of_list_ascii (slice (list_ascii_of_string s) i j).

(** [s.split(sep, 1)] for a separator of one character. *)
Fixpoint split_once (sep : ascii) (s : string) : list string :=
  match s with
  | EmptyString => [EmptyString]
  | String c s' =>
      if Ascii.eqb c sep then [EmptyString; s']
      else match split_once sep s' with
           | piece :: rest => String c piece :: rest
           | [] => [String c EmptyString]
           end
  end.

(** The test on the value and the removal of its quotes. *)
Definition quoted (value : string) : bool :=
  (startswith dquote value && endswith dquote value)
  || (startswith squote value && endswith squote value).

Definition unquote (value : string) : string :=
  if quoted value then slice_str value 1 (-1) else value.

(** [except ValueError] catches the class and its subclasses. *)
Definition is_value_error (e : exn) : bool :=
  match exn_type e with
  | ValueError | UnicodeDecodeError => true
  | _ => false
  end.

(** [os.environ[key] = value]: nothing is stored when the call raises. *)
Definition setenv (env : Env) (p : Process) (key value : string)
    : Process * outcome unit :=
  match putenv_error env key value with
  | Some e => (p, Raise e)
  | None => ({| environ := <[key := value]> (environ p); printed := printed p |},
             Return tt)
  end.

(** The body of the [try] statement. *)
Definition assign (env : Env) (p : Process) (line : string) : Process * outcome unit :=
  match split_once "=" line with
  | [key; value] => setenv env p (strip key) (unquote (strip value))
  | [_] => (p, Raise (mkExn ValueError "not enough values to unpack (expected 2, got 1)"))
  | _ => (p, Raise (mkExn ValueError "too many values to unpack (expected 2)"))
  end.

Definition warning (line_num : nat) (line : string) : string :=
  "Warning: Skipping malformed line " +:+ pretty line_num +:+ ": " +:+ line.

(** The body of the loop over the lines. *)
Definition load_line (env : Env) (p : Process) (line_num : nat) (raw : string)
    : Process * outcome unit :=
  let line := strip raw in
  if negb (truthy line) || startswith "#" line then (p, Return tt)
  else if contains "=" line
  then
    match assign env p line with
    | (p', Return _) => (p', Return tt)
    | (p', Raise e) =>
        if is_value_error e
        then ({| environ := environ p';
                 printed := printed p' ++ [warning line_num line] |}, Return tt)
        else (p', Raise e)
    end
  else (p, Return tt).

Fixpoint load_lines (env : Env) (p : Process) (line_num : nat) (lines : list string)
    : Process * outcome unit :=
  match lines with
  | [] => (p, Return tt)
  | raw :: rest =>
      match load_line env p line_num raw with
      | (p', Return _) => load_lines env p' (S line_num) rest
      | (p', Raise e) => (p', Raise e)
      end
  end.

(** [load_env_file] *)
Definition load_env_file (env : Env) (p : Process) (env_path : string)
    : Process * outcome unit :=
  if negb (path_exists env env_path) then (p, Return tt)
  else
    let '(lines, failure) := read_lines env env_path in
    match load_lines env p 1 lines with
    | (p', Return _) =>
        match failure with
        | None => (p', Return tt)
        | Some e => (p', Raise e)
        end
    | (p', Raise e) => (p', Raise e)
    end.

(** A string of whitespace. *)
Definition blank (s : string) : Prop := has_nonspace s = false.

(** A string without the equals sign. *)
Fixpoint no_equals (s : string) : bool :=
  match s with
  | EmptyString => true
  | String c s' => negb (Ascii.eqb c "="%char) && no_equals s'
  end.

(** A name as a [.env] file can give it: not empty, no whitespace at its
    ends, no equals sign, and not starting a comment. *)
Definition is_name (key : string) : Prop :=
  key <> "" /\ Shape.head_ok key = true /\ Shape.last_ok key = true
  /\ no_equals key = true /\ startswith "#" key = false.

(** A value written without quotes: no whitespace at its ends, and not
    taken for a quoted one. *)
Definition is_bare (value : string) : Prop :=
  Shape.head_ok value = true /\ Shape.last_ok value = true /\ quoted value = false.

(** An operating system that accepts every assignment; the file [.env]
    with the given lines. *)
Definition accepting (lines : list string) : Env :=
  {| path_exists := fun p => String.eqb p ".env";
     read_lines := fun _ => (lines, None);
     putenv_error := fun _ _ => None |}.

Definition fresh : Process := {| environ := ∅; printed := [] |}.

End EnvFile.

(** ** Corner cases of the surroundings *)

Module Corner.

(** A file system with [report.pdf] and the first converter installed;
    the library's result carries metadata of its own, a
    [processor_used] among them. *)
Definition labelled : DocumentProcessor.Env :=
  {| DocumentProcessor.HAS_MARKITDOWN := true;
     DocumentProcessor.HAS_DOCX := false;
     DocumentProcessor.path_name := fun p => p;
     DocumentProcessor.path_stem := fun _ => "report";
     DocumentProcessor.path_suffix := fun _ => ".pdf";
     DocumentProcessor.path_exists := fun p => String.eqb p "report.pdf";
     DocumentProcessor.st_mtime := fun _ => Float.one;
     DocumentProcessor.st_size := fun _ => 2048;
     DocumentProcessor.time_time := fun _ _ => Float.one;
     DocumentProcessor.str_float := fun _ => "1.0";
     DocumentProcessor.md5_hexdigest := fun s => "md5:" +:+ s;
     DocumentProcessor.markitdown_convert := fun _ =>
       Return (Some "Annual report",
               <["processor_used" := VStr "pdfminer"]> (<["pages" := VInt 12]> ∅));
     DocumentProcessor.docx_paragraphs := fun _ =>
       Raise (mkExn Exception "not installed");
     DocumentProcessor.read_utf8 := fun _ =>
       Raise (mkExn UnicodeDecodeError "invalid start byte");
     DocumentProcessor.read_latin1 := fun _ => Return "%PDF-1.7" |}.

(** A file system on which [exists()] is refused. *)
Definition locked : Core.Env :=
  {| Core.doc_env := Batch.files;
     Core.store_env := Samples.store;
     Core.web_env := Samples.web 0 0 0;
     Core.llm_env := Samples.chat;
     Core.path_str := Samples.normal;
     Core.path_exists := fun p =>
       Raise (mkExn OSError ("[Errno 13] Permission denied: '" +:+ p +:+ "'"));
     Core.is_file := Core.is_file Batch.world;
     Core.is_dir := Core.is_dir Batch.world;
     Core.glob := Core.glob Batch.world;
     Core.now := fun _ => Float.one;
     Core.format_2f := fun _ => "0.00" |}.

End Corner.

(** * Properties *)

(** ** Strings: blank text, [strip], [split], [join] *)

Section StringFacts.

Lemma has_nonspace_app (a b : string) :
  has_nonspace (a +:+ b) = has_nonspace a || has_nonspace b.
Proof.
  induction a as [|c a IH]; simpl; [reflexivity|].
  rewrite IH. apply orb_assoc.
Qed.

Lemma has_nonspace_lstrip (s : string) : has_nonspace (lstrip s) = has_nonspace s.
Proof.
  induction s as [|c s IH]; simpl; [reflexivity|].
  destruct (isspace c) eqn:E; simpl; [exact IH|].
  rewrite E. reflexivity.
Qed.

Lemma truthy_rstrip (s : string) : truthy (rstrip s) = has_nonspace s.
Proof.
  induction s as [|c s IH]; simpl; [reflexivity|].
  unfold truthy in IH.
  destruct (isspace c); simpl.
  - destruct (String.eqb (rstrip s) "") eqn:E; simpl in *; [exact IH|].
    rewrite <- IH. reflexivity.
  - reflexivity.
Qed.

(** [s.strip()] is true in a condition exactly when [s] is not blank. *)
Lemma truthy_strip (s : string) : truthy (strip s) = has_nonspace s.
Proof. unfold strip. rewrite truthy_rstrip. apply has_nonspace_lstrip. Qed.

Lemma has_nonspace_join_cons (sep w : string) (ws : list string) :
  has_nonspace w = true -> has_nonspace (join sep (w :: ws)) = true.
Proof.
  intros Hw. unfold join. destruct ws as [|w' ws]; simpl; [exact Hw|].
  rewrite has_nonspace_app, Hw. reflexivity.
Qed.

Lemma split_from_nonspace (s w : string) :
  w = "" \/ has_nonspace w = true ->
  Forall (fun x => has_nonspace x = true) (split_from w s).
Proof.
  revert w. induction s as [|c s IH]; intros w Hw; simpl.
  - destruct (String.eqb_spec w ""); [constructor|].
    destruct Hw; [contradiction|]. repeat constructor. assumption.
  - destruct (isspace c) eqn:E.
    + destruct (String.eqb_spec w "").
      * apply IH. now left.
      * destruct Hw; [contradiction|]. constructor; [assumption|].
        apply IH. now left.
    + apply IH. right. rewrite has_nonspace_app. simpl. rewrite E.
      apply orb_true_r.
Qed.

(** Every word of [text.split()] has a character that is not
    whitespace. *)
Lemma split_nonspace (text : string) :
  Forall (fun x => has_nonspace x = true) (split text).
Proof. apply split_from_nonspace. now left. Qed.

End StringFacts.

(** ** Slices and ranges *)

Section SequenceFacts.

Context {A : Type}.

Lemma len_nonneg (l : list A) : 0 <= len l.
Proof. unfold len. lia. Qed.

(** A slice between two bounds in order, the lower one not negative. *)
Lemma slice_nonneg (l : list A) (i j : Z) :
  0 <= i -> 0 <= j ->
  slice l i j
  = take (Z.to_nat (Z.min j (len l) - Z.min i (len l))) (drop (Z.to_nat (Z.min i (len l))) l).
Proof.
  intros Hi Hj. unfold slice, adjust_index.
  destruct (Z.ltb_spec i 0); [lia|]. destruct (Z.ltb_spec j 0); [lia|].
  reflexivity.
Qed.

Lemma length_slice_nonneg (l : list A) (i j : Z) :
  0 <= i -> 0 <= j ->
  len (slice l i j) = Z.max 0 (Z.min j (len l) - Z.min i (len l)).
Proof.
  intros Hi Hj. rewrite slice_nonneg by assumption.
  unfold len. rewrite length_take, length_drop. lia.
Qed.

Lemma slice_clamp (l : list A) (i j : Z) :
  0 <= j -> slice l i (Z.min j (len l)) = slice l i j.
Proof.
  intros Hj. unfold slice, adjust_index.
  pose proof (len_nonneg l).
  destruct (Z.ltb_spec j 0); [lia|].
  destruct (Z.ltb_spec (Z.min j (len l)) 0); [lia|].
  replace (Z.min (Z.min j (len l)) (len l)) with (Z.min j (len l)) by lia.
  reflexivity.
Qed.

(** The element at an index inside a slice. *)
Lemma slice_lookup (l : list A) (i j : Z) (k : nat) :
  0 <= i -> i <= Z.of_nat k < j ->
  slice l i j !! (k - Z.to_nat i)%nat = l !! k.
Proof.
  intros Hi Hk. rewrite slice_nonneg by lia.
  destruct (l !! k) eqn:E.
  - pose proof (lookup_lt_Some _ _ _ E) as Hlt. unfold len.
    rewrite lookup_take_lt by lia. rewrite lookup_drop.
    rewrite <- E. f_equal. lia.
  - pose proof (lookup_ge_None_1 _ _ E) as Hge.
    apply lookup_ge_None_2. rewrite length_take, length_drop. unfold len. lia.
Qed.

End SequenceFacts.

Section RangeFacts.

(** With a positive step, [range(0, n, step)] lists the multiples of
    the step below [n]. *)
Lemma range_positive_step (n step : Z) :
  0 < step ->
  range 0 n step
  = Return (map (fun k : nat => Z.of_nat k * step)
                (seq 0 (Z.to_nat ((n + step - 1) / step)))).
Proof.
  intros Hs. unfold range, range_length.
  destruct (Z.eqb_spec step 0); [lia|].
  destruct (Z.ltb_spec 0 step); [|lia].
  f_equal. f_equal.
  destruct (Z.ltb_spec 0 n).
  - f_equal. replace (n + step - 1) with ((n - 0 - 1) + 1 * step) by lia.
    rewrite Z.div_add by lia. reflexivity.
  - replace (Z.to_nat ((n + step - 1) / step)) with 0%nat; [reflexivity|].
    assert ((n + step - 1) / step <= 0); [|lia].
    assert ((n + step - 1) / step < 1); [|lia].
    apply Z.div_lt_upper_bound; lia.
Qed.

(** With a negative step, [range(0, n, step)] is empty for [n >= 0]. *)
Lemma range_negative_step (n step : Z) :
  step < 0 -> 0 <= n -> range 0 n step = Return [].
Proof.
  intros Hs Hn. unfold range, range_length.
  destruct (Z.eqb_spec step 0); [lia|].
  destruct (Z.ltb_spec 0 step); [lia|].
  destruct (Z.ltb_spec n 0); [lia|]. reflexivity.
Qed.

Lemma range_zero_step (start stop : Z) :
  range start stop 0 = Raise (mkExn ValueError "range() arg 3 must not be zero").
Proof. reflexivity. Qed.

(** The number of windows: the indices [k] with [k * step < n]. *)
Lemma window_count_spec (n step : Z) (k : nat) :
  0 < step -> 0 <= n ->
  (k < Z.to_nat ((n + step - 1) / step))%nat <-> Z.of_nat k * step < n.
Proof.
  intros Hs Hn.
  assert (Hq : 0 <= (n + step - 1) / step) by (apply Z.div_pos; lia).
  split; intros H.
  - assert (Z.of_nat k + 1 <= (n + step - 1) / step) as H1 by lia.
    assert ((Z.of_nat k + 1) * step <= n + step - 1); [|lia].
    etransitivity; [apply Z.mul_le_mono_nonneg_r; [lia|exact H1]|].
    rewrite Z.mul_comm. apply Z.mul_div_le. lia.
  - assert (Z.of_nat k < (n + step - 1) / step); [|lia].
    apply Z.div_le_lower_bound with (a := n + step - 1) (b := step) (q := Z.of_nat k + 1) in Hs as H2; lia.
Qed.

End RangeFacts.

(** ** The chunker *)

Section ChunkerFacts.

Variable words : list string.
Variable chunk_size : Z.
Hypothesis words_nonspace : Forall (fun x => has_nonspace x = true) words.

(** A window that starts inside the text and is at least one word wide
    is never blank, so the loop keeps it. *)
Lemma chunk_step_keeps (chunks : list TextChunk) (i : Z) :
  0 < chunk_size -> 0 <= i < len words ->
  chunk_step words chunk_size chunks i = chunks ++ [window_at words chunk_size i].
Proof.
  intros Hsize Hi. unfold chunk_step.
  rewrite truthy_strip.
  assert (Hw : exists w, words !! Z.to_nat i = Some w).
  { apply lookup_lt_is_Some_2. unfold len in Hi. lia. }
  destruct Hw as [w Hw].
  assert (Hin : has_nonspace w = true).
  { rewrite Forall_forall in words_nonspace. apply words_nonspace.
    eapply list_elem_of_lookup_2. exact Hw. }
  assert (Hhd : slice words i (i + chunk_size) !! 0%nat = Some w).
  { rewrite <- Hw.
    replace 0%nat with (Z.to_nat i - Z.to_nat i)%nat by lia.
    apply slice_lookup; lia. }
  destruct (slice words i (i + chunk_size)) as [|w' ws] eqn:E; [discriminate|].
  simpl in Hhd. injection Hhd as ->.
  rewrite has_nonspace_join_cons by assumption.
  unfold window_at. rewrite E. reflexivity.
Qed.

Lemma fold_chunk_step_keeps (idx : list Z) (chunks : list TextChunk) :
  0 < chunk_size -> Forall (fun i => 0 <= i < len words) idx ->
  fold_left (chunk_step words chunk_size) idx chunks
  = chunks ++ map (window_at words chunk_size) idx.
Proof.
  intros Hsize. revert chunks.
  induction idx as [|i idx IH]; intros chunks Hidx; simpl.
  - now rewrite app_nil_r.
  - inversion Hidx as [|? ? Hi Hrest]; subst.
    rewrite chunk_step_keeps by assumption.
    rewrite IH by assumption. now rewrite <- app_assoc.
Qed.

(** Whatever the parameters, the loop only ever appends chunks that are
    not blank. *)
Lemma fold_chunk_step_nonblank (idx : list Z) (chunks : list TextChunk) :
  Forall (fun c => truthy (strip (content c)) = true) chunks ->
  Forall (fun c => truthy (strip (content c)) = true)
         (fold_left (chunk_step words chunk_size) idx chunks).
Proof.
  revert chunks. induction idx as [|i idx IH]; intros chunks H; simpl; [exact H|].
  apply IH. unfold chunk_step.
  destruct (truthy (strip (join " " (slice words i (i + chunk_size))))) eqn:E;
    [|exact H].
  apply Forall_app. split; [exact H|]. repeat constructor. exact E.
Qed.

End ChunkerFacts.

(** With [0 <= overlap < chunk_size], [create_chunks] returns one window
    per multiple of the stride below the number of words. *)
Lemma create_chunks_windows (text : string) (chunk_size overlap : Z) :
  0 <= overlap < chunk_size ->
  create_chunks text chunk_size overlap
  = Return (map (fun k : nat =>
                   window_at (split text) chunk_size (Z.of_nat k * (chunk_size - overlap)))
                (seq 0 (Z.to_nat ((len (split text) + (chunk_size - overlap) - 1)
                                  / (chunk_size - overlap))))).
Proof.
  intros H. unfold create_chunks.
  rewrite range_positive_step by lia. simpl.
  rewrite fold_chunk_step_keeps.
  - simpl. now rewrite map_map.
  - apply split_nonspace.
  - lia.
  - apply Forall_forall. intros i Hi.
    apply list_elem_of_In, in_map_iff in Hi as [k [<- Hk]].
    apply in_seq in Hk.
    pose proof (len_nonneg (split text)).
    assert (Z.of_nat k * (chunk_size - overlap) < len (split text)).
    { apply window_count_spec; lia. }
    nia.
Qed.

Lemma lookup_map {A B : Type} (f : A -> B) (l : list A) (k : nat) :
  map f l !! k = f <$> (l !! k).
Proof.
  revert k. induction l as [|x l IH]; intros [|k]; simpl; try reflexivity. apply IH.
Qed.

Lemma lookup_map_seq {B : Type} (f : nat -> B) (m k : nat) (y : B) :
  map f (seq 0 m) !! k = Some y <-> (k < m)%nat /\ y = f k.
Proof.
  rewrite lookup_map. split.
  - intros H. destruct (seq 0 m !! k) as [j|] eqn:E; [|discriminate].
    apply lookup_seq in E as [-> Hk]. simpl in H. injection H as <-. auto.
  - intros [Hk ->]. rewrite lookup_seq_lt by assumption. reflexivity.
Qed.

(** C1.  For [0 <= overlap < chunk_size], [create_chunks] returns the
    windows of the word list in order: the [k]-th chunk starts at word
    [k * (chunk_size - overlap)], so start offsets strictly increase by
    the stride; every word of the text lies in some chunk; a chunk holds
    at most [chunk_size] words and holds fewer only when it reaches the
    end of the text; and no chunk is blank. *)
Theorem create_chunks_sliding_windows (text : string) (chunk_size overlap : Z) :
  0 <= overlap < chunk_size ->
  exists chunks : list TextChunk,
    create_chunks text chunk_size overlap = Return chunks
    /\ (forall (k : nat) c, chunks !! k = Some c ->
          start_pos c = Z.of_nat k * (chunk_size - overlap))
    /\ (forall (k : nat) c c', chunks !! k = Some c -> chunks !! S k = Some c' ->
          start_pos c < start_pos c'
          /\ start_pos c' = start_pos c + (chunk_size - overlap))
    /\ (forall (j : nat) w, split text !! j = Some w ->
          exists c, c ∈ chunks
            /\ start_pos c <= Z.of_nat j < end_pos c
            /\ slice (split text) (start_pos c) (end_pos c)
                 !! (j - Z.to_nat (start_pos c))%nat = Some w)
    /\ (forall c, c ∈ chunks ->
          content c = join " " (slice (split text) (start_pos c) (end_pos c))
          /\ 0 <= start_pos c < end_pos c
          /\ end_pos c <= len (split text)
          /\ end_pos c - start_pos c <= chunk_size
          /\ (end_pos c - start_pos c < chunk_size -> end_pos c = len (split text))
          /\ truthy (strip (content c)) = true).
Proof.
  intros H.
  set (words := split text). set (stride := chunk_size - overlap).
  pose proof (len_nonneg words) as Hn.
  assert (Hstride : 0 < stride) by (unfold stride; lia).
  eexists. split; [apply create_chunks_windows; exact H|].
  fold words stride.
  set (m := Z.to_nat ((len words + stride - 1) / stride)).
  assert (Hm : forall k : nat, (k < m)%nat <-> Z.of_nat k * stride < len words).
  { intros k. apply window_count_spec; lia. }
  assert (Hnonblank : forall k : nat, (k < m)%nat ->
            has_nonspace (content (window_at words chunk_size (Z.of_nat k * stride))) = true).
  { intros k Hk. apply Hm in Hk. simpl.
    assert (Hw : exists w, words !! Z.to_nat (Z.of_nat k * stride) = Some w).
    { apply lookup_lt_is_Some_2. unfold len in *. lia. }
    destruct Hw as [w Hw].
    assert (Hhd : slice words (Z.of_nat k * stride) (Z.of_nat k * stride + chunk_size)
                    !! 0%nat = Some w).
    { rewrite <- Hw.
      replace 0%nat with (Z.to_nat (Z.of_nat k * stride) - Z.to_nat (Z.of_nat k * stride))%nat
        by lia.
      apply slice_lookup; lia. }
    destruct (slice words (Z.of_nat k * stride) (Z.of_nat k * stride + chunk_size))
      as [|w' ws] eqn:E; [discriminate|].
    simpl in Hhd. injection Hhd as ->.
    apply has_nonspace_join_cons.
    pose proof (split_nonspace text) as Hall. rewrite Forall_forall in Hall.
    apply Hall. eapply list_elem_of_lookup_2. exact Hw. }
  split; [|split; [|split]].
  - intros k c Hc. apply lookup_map_seq in Hc as [_ ->]. reflexivity.
  - intros k c c' Hc Hc'.
    apply lookup_map_seq in Hc as [_ ->]. apply lookup_map_seq in Hc' as [_ ->].
    simpl. lia.
  - intros j w Hw.
    pose proof (lookup_lt_Some _ _ _ Hw) as Hj. fold (len words) in Hj.
    assert (Hjn : Z.of_nat j < len words) by (unfold len; lia).
    set (k := Z.to_nat (Z.of_nat j / stride)).
    assert (Hk : Z.of_nat k * stride <= Z.of_nat j < Z.of_nat k * stride + stride).
    { unfold k. rewrite Z2Nat.id by (apply Z.div_pos; lia).
      pose proof (Z.mul_div_le (Z.of_nat j) stride Hstride).
      pose proof (Z.mul_succ_div_gt (Z.of_nat j) stride Hstride). lia. }
    exists (window_at words chunk_size (Z.of_nat k * stride)).
    assert (Hin : (k < m)%nat) by (apply Hm; lia).
    split; [|split].
    + apply list_elem_of_lookup. exists k. apply lookup_map_seq. auto.
    + simpl. unfold stride in *. lia.
    + simpl. rewrite slice_clamp by lia. rewrite <- Hw.
      apply slice_lookup; unfold stride in *; lia.
  - intros c Hc. apply list_elem_of_lookup in Hc as [k Hk].
    apply lookup_map_seq in Hk as [Hk ->].
    pose proof (Hnonblank k Hk) as Hnb.
    apply Hm in Hk. simpl.
    split; [now rewrite slice_clamp by lia|].
    split; [lia|]. split; [lia|]. split; [lia|]. split; [lia|].
    rewrite truthy_strip. exact Hnb.
Qed.

(** Whatever the parameters, a chunk that [create_chunks] returns is not
    blank: windows that are empty or hold whitespace only are dropped. *)
Lemma create_chunks_nonblank (text : string) (chunk_size overlap : Z)
    (chunks : list TextChunk) :
  create_chunks text chunk_size overlap = Return chunks ->
  Forall (fun c => truthy (strip (content c)) = true) chunks.
Proof.
  unfold create_chunks.
  destruct (range 0 (len (split text)) (chunk_size - overlap)) as [idx|e]; simpl;
    [|discriminate].
  intros [= <-]. apply fold_chunk_step_nonblank. constructor.
Qed.

(** With a negative chunk size the later windows are empty slices, and
    the loop drops them. *)
Example empty_windows_dropped :
  create_chunks "a b c d e f g h i j" (-4) (-6)
  = Return [ {| content := "a b c d e f"; start_pos := 0; end_pos := -4 |};
             {| content := "c d e f g h"; start_pos := 2; end_pos := -2 |} ].
Proof. vm_compute. reflexivity. Qed.

Lemma create_chunks_sliding_windows_witness :
  0 <= 1 < 4
  /\ exists chunks : list TextChunk,
       create_chunks "a b c d e f g h i j" 4 1 = Return chunks
       /\ forall (k : nat) c, chunks !! k = Some c -> start_pos c = Z.of_nat k * (4 - 1).
Proof.
  split; [lia|].
  destruct (create_chunks_sliding_windows "a b c d e f g h i j" 4 1 ltac:(lia))
    as (chunks & Hrun & Hstart & _).
  exists chunks. split; assumption.
Defined.

(** ** The chunker on every input *)

Section ChunkerOrder.

Variable words : list string.
Variable chunk_size : Z.

Lemma length_fold_chunk_step (idx : list Z) (chunks : list TextChunk) :
  (length (fold_left (chunk_step words chunk_size) idx chunks)
   <= length chunks + length idx)%nat.
Proof.
  revert chunks. induction idx as [|i idx IH]; intros chunks; simpl; [lia|].
  etransitivity; [apply IH|]. unfold chunk_step.
  destruct (truthy _); [rewrite length_app; simpl|]; lia.
Qed.

(** The loop keeps the start offsets in the order of the indices it
    walks. *)
Lemma fold_chunk_step_sorted (idx : list Z) (chunks : list TextChunk) :
  StronglySorted Z.lt idx ->
  StronglySorted Z.lt (map start_pos chunks) ->
  Forall (fun c => Forall (fun i => start_pos c < i) idx) chunks ->
  StronglySorted Z.lt
    (map start_pos (fold_left (chunk_step words chunk_size) idx chunks)).
Proof.
  revert chunks. induction idx as [|i idx IH]; intros chunks Hidx Hs Hlt; simpl;
    [exact Hs|].
  apply StronglySorted_inv in Hidx as [Hidx Hi].
  assert (Hlt' : Forall (fun c => Forall (fun j => start_pos c < j) idx) chunks).
  { eapply Forall_impl; [exact Hlt|]. intros c Hc. simpl in Hc.
    now apply Forall_cons_1 in Hc as [_ Hc]. }
  apply IH; [exact Hidx| |]; unfold chunk_step;
    destruct (truthy _); try assumption.
  - rewrite map_app. apply StronglySorted_app_2.
    + intros x1 x2 Hx1 Hx2. simpl in Hx2. apply list_elem_of_singleton in Hx2 as ->.
      apply list_elem_of_In, in_map_iff in Hx1 as [c [<- Hc]].
      rewrite Forall_forall in Hlt. apply list_elem_of_In in Hc.
      specialize (Hlt c Hc). now apply Forall_cons_1 in Hlt as [Hlt _].
    + exact Hs.
    + simpl. repeat constructor.
  - apply Forall_app. split; [exact Hlt'|]. repeat constructor. exact Hi.
Qed.

End ChunkerOrder.

Lemma range_sorted (start step : Z) (m a : nat) :
  0 < step ->
  StronglySorted Z.lt (map (fun k : nat => start + Z.of_nat k * step) (seq a m)).
Proof.
  intros Hstep. revert a. induction m as [|m IH]; intros a; simpl; constructor.
  - apply IH.
  - apply Forall_forall. intros y Hy.
    apply list_elem_of_In, in_map_iff in Hy as [k [<- Hk]]. apply in_seq in Hk. nia.
Qed.

(** C10.  [create_chunks] is a total function, so it comes back on every
    input.  With [overlap > chunk_size] the range is empty and the result
    is the empty list; with [overlap = chunk_size] the zero step makes
    [range] raise [ValueError]; otherwise it returns at most one chunk per
    word.  Whenever it returns, the start offsets of the chunks strictly
    increase: no window seeks backward. *)
Theorem create_chunks_degenerate_overlap (text : string) (chunk_size overlap : Z) :
  (chunk_size < overlap -> create_chunks text chunk_size overlap = Return [])
  /\ (overlap = chunk_size ->
      create_chunks text chunk_size overlap
      = Raise (mkExn ValueError "range() arg 3 must not be zero"))
  /\ (overlap < chunk_size ->
      exists chunks, create_chunks text chunk_size overlap = Return chunks
                     /\ (length chunks <= length (split text))%nat)
  /\ (forall chunks, create_chunks text chunk_size overlap = Return chunks ->
      StronglySorted Z.lt (map start_pos chunks)).
Proof.
  pose proof (len_nonneg (split text)) as Hn.
  split; [|split; [|split]].
  - intros H. unfold create_chunks. rewrite range_negative_step by lia. reflexivity.
  - intros ->. unfold create_chunks. rewrite Z.sub_diag, range_zero_step. reflexivity.
  - intros H. unfold create_chunks. rewrite range_positive_step by lia. simpl.
    eexists. split; [reflexivity|].
    etransitivity; [apply length_fold_chunk_step|]. simpl.
    rewrite length_map, length_seq.
    assert ((len (split text) + (chunk_size - overlap) - 1) / (chunk_size - overlap)
            <= len (split text)); [|unfold len in *; lia].
    destruct (Z.eq_dec (len (split text)) 0) as [Hz|Hz].
    + rewrite Hz, Z.div_small; lia.
    + apply Z.div_le_upper_bound; nia.
  - intros chunks. unfold create_chunks.
    destruct (Z.lt_total (chunk_size - overlap) 0) as [Hneg|[Hzero|Hpos]].
    + rewrite range_negative_step by lia. simpl. intros [= <-]. constructor.
    + rewrite Hzero, range_zero_step. simpl. discriminate.
    + unfold range. destruct (Z.eqb_spec (chunk_size - overlap) 0); [lia|].
      simpl. intros [= <-].
      apply fold_chunk_step_sorted; [|constructor|constructor].
      apply range_sorted. exact Hpos.
Qed.

Lemma create_chunks_degenerate_overlap_witness :
  create_chunks "a b c d e" 2 3 = Return []
  /\ create_chunks "a b c d e" 2 2
     = Raise (mkExn ValueError "range() arg 3 must not be zero")
  /\ exists chunks, create_chunks "a b c d e" 2 1 = Return chunks
                    /\ (length chunks <= length (split "a b c d e"))%nat.
Proof.
  split; [|split].
  - apply (create_chunks_degenerate_overlap "a b c d e" 2 3). lia.
  - apply (create_chunks_degenerate_overlap "a b c d e" 2 2). reflexivity.
  - apply (create_chunks_degenerate_overlap "a b c d e" 2 1). lia.
Defined.

(** ** The task classifier *)

Lemma prefix_spec (a s : string) :
  String.prefix a s = true <-> exists post, s = a +:+ post.
Proof.
  revert s. induction a as [|c a IH]; intros s.
  - split; [intros _; now exists s|intros _; destruct s; reflexivity].
  - destruct s as [|d s]; simpl.
    + split; [discriminate|intros [post H]; discriminate].
    + destruct (Ascii.ascii_dec c d) as [->|Hne].
      * rewrite IH. split; intros [post H]; exists post; [now rewrite H|].
        now injection H.
      * split; [discriminate|]. intros [post H]. injection H as H1 H2. congruence.
Qed.

(** [contains sub s] is Python's [sub in s]: [sub] occurs in [s]. *)
Lemma contains_spec (sub s : string) :
  contains sub s = true <-> exists pre post, s = pre +:+ sub +:+ post.
Proof.
  induction s as [|d s IH].
  - change (contains sub "") with (String.prefix sub "" || false).
    rewrite orb_false_r, prefix_spec. split.
    + intros [post H]. now exists "", post.
    + intros [pre [post H]]. destruct pre; [now exists post|discriminate].
  - change (contains sub (String d s))
      with (String.prefix sub (String d s) || contains sub s).
    rewrite orb_true_iff, prefix_spec, IH. split.
    + intros [[post H]|[pre [post H]]].
      * now exists "", post.
      * exists (String d pre), post. simpl. now rewrite H.
    + intros [[|c pre] [post H]].
      * left. now exists post.
      * right. exists pre, post. simpl in H. now injection H.
Qed.

(** C6.  [classify] lower-cases the question and tests the three keyword
    lists in order: a summary cue gives SUMMARIZATION; failing that a
    freshness cue gives WEB_SEARCH; failing that a document cue gives
    DOCUMENT_QUERY; with no cue the answer is HYBRID_SEARCH.  The answer
    depends on the lower-cased question only, and the four sample
    questions classify as stated. *)
Theorem classify_first_match :
  (forall q : string,
      let cue words := LLM.any_in words (lower q) in
      (cue ["summarize"; "summary"; "overview"] = true ->
       LLM.classify q = SUMMARIZATION)
      /\ (cue ["summarize"; "summary"; "overview"] = false ->
          cue ["current"; "latest"; "news"; "market"] = true ->
          LLM.classify q = WEB_SEARCH)
      /\ (cue ["summarize"; "summary"; "overview"] = false ->
          cue ["current"; "latest"; "news"; "market"] = false ->
          cue ["contract"; "document"; "clause"; "agreement"] = true ->
          LLM.classify q = DOCUMENT_QUERY)
      /\ (cue ["summarize"; "summary"; "overview"] = false ->
          cue ["current"; "latest"; "news"; "market"] = false ->
          cue ["contract"; "document"; "clause"; "agreement"] = false ->
          LLM.classify q = HYBRID_SEARCH))
  /\ (forall q q' : string, lower q = lower q' -> LLM.classify q = LLM.classify q')
  /\ LLM.classify "Please summarize this contract" = SUMMARIZATION
  /\ LLM.classify "What's the current market price?" = WEB_SEARCH
  /\ LLM.classify "Explain the termination clause in this agreement" = DOCUMENT_QUERY
  /\ LLM.classify "Tell me about your company" = HYBRID_SEARCH.
Proof.
  split; [|split; [|repeat split; vm_compute; reflexivity]].
  - intros q cue. unfold LLM.classify.
    change (LLM.any_in LLM.summary_words (lower q)) with (cue ["summarize"; "summary"; "overview"]).
    change (LLM.any_in LLM.web_words (lower q)) with (cue ["current"; "latest"; "news"; "market"]).
    change (LLM.any_in LLM.document_words (lower q))
      with (cue ["contract"; "document"; "clause"; "agreement"]).
    repeat split; intros; repeat match goal with H : cue _ = _ |- _ => rewrite H end;
      reflexivity.
  - intros q q' H. unfold LLM.classify. now rewrite H.
Qed.

Lemma classify_first_match_witness :
  LLM.classify "An OVERVIEW of the latest contract" = SUMMARIZATION
  /\ LLM.classify "Latest NEWS on the agreement" = WEB_SEARCH.
Proof.
  destruct classify_first_match as (Hcue & _).
  split.
  - apply (Hcue "An OVERVIEW of the latest contract"). vm_compute. reflexivity.
  - apply (Hcue "Latest NEWS on the agreement"); vm_compute; reflexivity.
Defined.

(** ** Web search: merging the two engines *)

Section MergeFacts.

Import WebSearch.

(** The loop of [search] computes the specification's merge. *)
Lemma dedup_loop_spec (n : Z) (l : list SearchResult) (seen : gset string)
    (acc : list SearchResult) :
  snd (fold_left (dedup_step n) l (seen, acc))
  = acc ++ take (Z.to_nat n - length acc) (spec_dedup seen l).
Proof.
  revert seen acc. induction l as [|r l IH]; intros seen acc; simpl.
  - now rewrite take_nil, app_nil_r.
  - destruct (bool_decide (source r ∈ seen)); simpl; [apply IH|].
    destruct (Z.ltb_spec (len acc) n) as [Hlt|Hge]; unfold len in *.
    + rewrite IH, length_app. simpl. rewrite <- app_assoc. simpl.
      replace (Z.to_nat n - length acc)%nat
        with (S (Z.to_nat n - (length acc + 1)))%nat by lia.
      reflexivity.
    + rewrite IH.
      replace (Z.to_nat n - length acc)%nat with 0%nat by lia.
      reflexivity.
Qed.

Lemma spec_dedup_elem (seen : gset string) (l : list SearchResult) (r : SearchResult) :
  r ∈ spec_dedup seen l -> (source r ∉ seen) /\ (r ∈ l).
Proof.
  revert seen. induction l as [|x l IH]; intros seen; simpl.
  - intros H. now apply elem_of_nil in H.
  - destruct (bool_decide_reflect (source x ∈ seen)) as [Hin|Hout].
    + intros H. apply IH in H as [H1 H2]. split; [exact H1|now right].
    + intros H. apply elem_of_cons in H as [->|H].
      * split; [exact Hout|now left].
      * apply IH in H as [H1 H2]. split; [|now right].
        intros Hc. apply H1, elem_of_union. now right.
Qed.

Lemma spec_dedup_NoDup (seen : gset string) (l : list SearchResult) :
  NoDup (map source (spec_dedup seen l)).
Proof.
  revert seen. induction l as [|x l IH]; intros seen; simpl; [constructor|].
  destruct (bool_decide (source x ∈ seen)); [apply IH|].
  simpl. constructor; [|apply IH].
  intros Hin. apply list_elem_of_In, in_map_iff in Hin as [r [Hr Hin]].
  apply list_elem_of_In, spec_dedup_elem in Hin as [Hfresh _].
  apply Hfresh, elem_of_union. left. now apply elem_of_singleton.
Qed.

Lemma spec_dedup_sublist (seen : gset string) (l : list SearchResult) :
  spec_dedup seen l `sublist_of` l.
Proof.
  revert seen. induction l as [|x l IH]; intros seen; simpl; [constructor|].
  destruct (bool_decide (source x ∈ seen)); [apply sublist_cons|apply sublist_skip];
    apply IH.
Qed.

(** Every source met is kept once it is new. *)
Lemma spec_dedup_keeps (seen : gset string) (l : list SearchResult) (u : string) :
  u ∈ map source l -> u ∉ seen -> u ∈ map source (spec_dedup seen l).
Proof.
  revert seen. induction l as [|x l IH]; intros seen; simpl; [easy|].
  intros Hu Hseen. apply elem_of_cons in Hu.
  destruct (bool_decide_reflect (source x ∈ seen)) as [Hin|Hout].
  - destruct Hu as [->|Hu]; [contradiction|]. now apply IH.
  - simpl. destruct (decide (u = source x)) as [->|Hne]; [now left|].
    right. destruct Hu as [->|Hu]; [contradiction|]. apply IH; [exact Hu|].
    intros [Hc%elem_of_singleton|Hc]%elem_of_union; contradiction.
Qed.

Lemma filter_source_absent (u : string) (l : list SearchResult) :
  u ∉ map source l -> filter (fun r => source r = u) l = [].
Proof.
  induction l as [|x l IH]; simpl; [reflexivity|]. intros Hu.
  rewrite filter_cons. destruct (decide (source x = u)) as [<-|Hne].
  - exfalso. apply Hu. now left.
  - apply IH. intros H. apply Hu. now right.
Qed.

(** In a list without repeated sources a source that occurs labels
    exactly one entry. *)
Lemma filter_source_one (u : string) (l : list SearchResult) :
  NoDup (map source l) -> u ∈ map source l ->
  length (filter (fun r => source r = u) l) = 1%nat.
Proof.
  induction l as [|x l IH]; simpl; intros Hnd Hu; [now apply elem_of_nil in Hu|].
  apply NoDup_cons in Hnd as [Hx Hnd]. rewrite filter_cons.
  destruct (decide (source x = u)) as [<-|Hne].
  - simpl. now rewrite filter_source_absent.
  - apply elem_of_cons in Hu as [->|Hu]; [contradiction|]. now apply IH.
Qed.

Lemma length_parse_ddg (q : string) (i : nat) (divs : list DdgDiv) :
  (length (parse_ddg q i divs) <= length divs)%nat.
Proof.
  revert i. induction divs as [|d divs IH]; intros i; simpl; [lia|].
  specialize (IH (S i)). rewrite length_app.
  destruct (ddg_title d), (ddg_snippet d); simpl; lia.
Qed.

Lemma length_parse_bing (q : string) (i : nat) (items : list BingItem) :
  (length (parse_bing q i items) <= length items)%nat.
Proof.
  revert i. induction items as [|d items IH]; intros i; simpl; [lia|].
  specialize (IH (S i)). rewrite length_app.
  destruct (bing_h2 d) as [[? [?|]]|], (bing_caption d); simpl; lia.
Qed.

Lemma len_slice_to {A : Type} (l : list A) (n : Z) :
  0 <= n -> len (slice_to l n) <= n.
Proof.
  intros Hn. unfold slice_to. rewrite length_slice_nonneg by lia.
  pose proof (len_nonneg l). lia.
Qed.

(** The second engine never returns more than its budget. *)
Lemma len_search_bing (env : Env) (q : string) (budget : Z) :
  0 <= budget -> len (or_nothing (_search_bing env q budget)) <= budget.
Proof.
  intros Hb. unfold _search_bing.
  destruct (bing_get env _) as [response|e]; simpl; [|unfold len; simpl; lia].
  destruct (negb (status response =? 200)); simpl; [unfold len; simpl; lia|].
  pose proof (length_parse_bing q 0 (slice_to (containers response) budget)).
  pose proof (len_slice_to (containers response) budget Hb).
  unfold len in *. lia.
Qed.

End MergeFacts.

(** What [search] returns, as the merge of what the engines gave. *)
Lemma search_final (env : WebSearch.Env) (q : string) (max_results : Z) :
  let ddg := WebSearch.or_nothing (WebSearch._search_duckduckgo env q max_results) in
  let bing :=
    if len ddg <? max_results
    then WebSearch.or_nothing (WebSearch._search_bing env q (max_results - len ddg))
    else [] in
  snd (WebSearch.search env q max_results) = WebSearch.spec_merge max_results (ddg ++ bing).
Proof.
  intros ddg bing. unfold bing, WebSearch.search. fold ddg.
  destruct (len ddg <? max_results); simpl; rewrite dedup_loop_spec; simpl;
    rewrite ?app_nil_r, Nat.sub_0_r; reflexivity.
Qed.

(** C5.  [search] asks the first engine for [max_results]; it asks the
    second one exactly when the first gave fewer than [max_results]
    results, and then for the remainder only; the list returned is the
    merge of the specification (first result of every source, in the order
    seen, cut to [max_results]), so no source occurs twice, and a source
    that both engines returned labels exactly one entry. *)
Theorem web_search_merge (env : WebSearch.Env) (q : string) (max_results : Z) :
  let ddg := WebSearch.or_nothing (WebSearch._search_duckduckgo env q max_results) in
  let budget := max_results - len ddg in
  let bing :=
    if len ddg <? max_results
    then WebSearch.or_nothing (WebSearch._search_bing env q budget) else [] in
  let calls := fst (WebSearch.search env q max_results) in
  let final := snd (WebSearch.search env q max_results) in
  calls = WebSearch.CallDuckDuckGo q max_results
          :: (if len ddg <? max_results then [WebSearch.CallBing q budget] else [])
  /\ final = WebSearch.spec_merge max_results (ddg ++ bing)
  /\ NoDup (map source final)
  /\ len final <= Z.max 0 max_results
  /\ final `sublist_of` (ddg ++ bing)
  /\ (forall u : string, u ∈ map source ddg -> u ∈ map source bing ->
      length (filter (fun r => source r = u) final) = 1%nat).
Proof.
  intros ddg budget bing calls final.
  assert (Hfinal : final = WebSearch.spec_merge max_results (ddg ++ bing)).
  { apply search_final. }
  assert (Hsub : final `sublist_of` WebSearch.spec_dedup ∅ (ddg ++ bing)).
  { rewrite Hfinal. apply sublist_take. }
  split; [|split; [exact Hfinal|split; [|split; [|split]]]].
  - unfold calls, WebSearch.search. fold ddg. fold budget.
    destruct (len ddg <? max_results); reflexivity.
  - rewrite Hfinal. unfold WebSearch.spec_merge. rewrite <- firstn_map.
    eapply sublist_NoDup; [apply spec_dedup_NoDup|apply sublist_take].
  - rewrite Hfinal. unfold WebSearch.spec_merge, len. rewrite length_take. lia.
  - etransitivity; [exact Hsub|apply spec_dedup_sublist].
  - intros u Hddg Hbing. unfold bing in Hbing.
    destruct (Z.ltb_spec (len ddg) max_results) as [Hlt|Hge];
      [|now apply elem_of_nil in Hbing].
    assert (Hall : final = WebSearch.spec_dedup ∅ (ddg ++ bing)).
    { rewrite Hfinal. unfold WebSearch.spec_merge. apply take_ge.
      pose proof (sublist_length _ _ (spec_dedup_sublist ∅ (ddg ++ bing))) as Hle.
      rewrite length_app in Hle.
      assert (len bing <= budget).
      { unfold bing. destruct (Z.ltb_spec (len ddg) max_results); [|lia].
        apply len_search_bing. unfold budget. lia. }
      unfold budget, len in *. lia. }
    rewrite Hall. apply filter_source_one; [apply spec_dedup_NoDup|].
    apply spec_dedup_keeps; [|apply not_elem_of_empty].
    rewrite map_app. apply elem_of_app. now left.
Qed.

(** ** Scores *)

Section ScoreFacts.

Lemma max0_nonneg (x : spec_float) : Float.nonneg (Float.max0 x) = true.
Proof.
  unfold Float.max0, Float.gt, Float.nonneg, SFltb, SFleb.
  destruct (SFcompare Float.zero x) as [[| |]|] eqn:E; try reflexivity.
  now rewrite E.
Qed.

(** The rank-derived score of the first eleven containers is not
    negative. *)
Lemma rank_score_nonneg (i : nat) :
  (i <= 10)%nat -> Float.nonneg (WebSearch.rank_score i) = true.
Proof.
  intros Hi. do 11 (destruct i as [|i]; [vm_compute; reflexivity|]). lia.
Qed.

Lemma hits_score (i : nat) (docs : list string) (metas : list (gmap string string))
    (dists : list spec_float) (r : SearchResult) :
  r ∈ VectorStore.hits i docs metas dists ->
  exists distance, distance ∈ dists
    /\ score r = Float.max0 (Float.sub (Float.of_int 1) distance)
    /\ source_type r = DOCUMENT.
Proof.
  revert i metas dists.
  induction docs as [|doc docs IH]; intros i [|m metas] [|d dists]; simpl;
    try (intros H; now apply elem_of_nil in H).
  intros H. apply elem_of_cons in H as [->|H].
  - exists d. simpl. split; [now left|]. split; reflexivity.
  - apply IH in H as (d' & Hd & Hs & Ht). exists d'. split; [now right|]. auto.
Qed.

Lemma parse_ddg_score (q : string) (i : nat) (divs : list WebSearch.DdgDiv)
    (r : SearchResult) :
  r ∈ WebSearch.parse_ddg q i divs ->
  exists j : nat, (i <= j < i + length divs)%nat
    /\ score r = WebSearch.rank_score j /\ source_type r = WEB.
Proof.
  revert i. induction divs as [|d divs IH]; intros i; simpl.
  - intros H. now apply elem_of_nil in H.
  - intros H. apply elem_of_app in H as [H|H].
    + destruct (WebSearch.ddg_title d), (WebSearch.ddg_snippet d);
        try (now apply elem_of_nil in H).
      apply list_elem_of_singleton in H as ->. exists i. simpl.
      split; [lia|]. split; reflexivity.
    + apply IH in H as (j & Hj & Hs). exists j. split; [lia|exact Hs].
Qed.

Lemma parse_bing_score (q : string) (i : nat) (items : list WebSearch.BingItem)
    (r : SearchResult) :
  r ∈ WebSearch.parse_bing q i items ->
  exists j : nat, (i <= j < i + length items)%nat
    /\ score r = WebSearch.rank_score j /\ source_type r = WEB.
Proof.
  revert i. induction items as [|d items IH]; intros i; simpl.
  - intros H. now apply elem_of_nil in H.
  - intros H. apply elem_of_app in H as [H|H].
    + destruct (WebSearch.bing_h2 d) as [[? [?|]]|], (WebSearch.bing_caption d);
        try (now apply elem_of_nil in H).
      apply list_elem_of_singleton in H as ->. exists i. simpl.
      split; [lia|]. split; reflexivity.
    + apply IH in H as (j & Hj & Hs). exists j. split; [lia|exact Hs].
Qed.

Lemma search_duckduckgo_nonneg (env : WebSearch.Env) (q : string) (n : Z)
    (r : SearchResult) :
  0 <= n <= 11 ->
  r ∈ WebSearch.or_nothing (WebSearch._search_duckduckgo env q n) ->
  Float.nonneg (score r) = true.
Proof.
  intros Hn. unfold WebSearch._search_duckduckgo.
  destruct (WebSearch.ddg_get env _) as [response|e]; simpl;
    [|intros H; now apply elem_of_nil in H].
  destruct (negb (WebSearch.status response =? 200)); simpl;
    [intros H; now apply elem_of_nil in H|].
  intros H. apply parse_ddg_score in H as (j & Hj & -> & _).
  apply rank_score_nonneg.
  pose proof (len_slice_to (WebSearch.containers response) n ltac:(lia)).
  unfold len in *. lia.
Qed.

Lemma search_bing_nonneg (env : WebSearch.Env) (q : string) (n : Z)
    (r : SearchResult) :
  0 <= n <= 11 ->
  r ∈ WebSearch.or_nothing (WebSearch._search_bing env q n) ->
  Float.nonneg (score r) = true.
Proof.
  intros Hn. unfold WebSearch._search_bing.
  destruct (WebSearch.bing_get env _) as [response|e]; simpl;
    [|intros H; now apply elem_of_nil in H].
  destruct (negb (WebSearch.status response =? 200)); simpl;
    [intros H; now apply elem_of_nil in H|].
  intros H. apply parse_bing_score in H as (j & Hj & -> & _).
  apply rank_score_nonneg.
  pose proof (len_slice_to (WebSearch.containers response) n ltac:(lia)).
  unfold len in *. lia.
Qed.

(** The score of the hit at position [k] is computed from the distance
    at position [k]. *)
Lemma hits_lookup_score (i : nat) (docs : list string)
    (metas : list (gmap string string)) (dists : list spec_float)
    (k : nat) (r : SearchResult) :
  VectorStore.hits i docs metas dists !! k = Some r ->
  exists distance,
    dists !! k = Some distance
    /\ score r = Float.max0 (Float.sub (Float.of_int 1) distance).
Proof.
  revert i metas dists k.
  induction docs as [|doc docs IH]; intros i [|m metas] [|d dists] k; simpl;
    try discriminate.
  destruct k as [|k]; simpl.
  - intros [= <-]. exists d. split; reflexivity.
  - apply IH.
Qed.

(** The score of a parsed result is computed from the index of its
    container. *)
Lemma parse_ddg_index (q : string) (i : nat) (divs : list WebSearch.DdgDiv)
    (r : SearchResult) :
  r ∈ WebSearch.parse_ddg q i divs ->
  exists (j : nat) (div : WebSearch.DdgDiv),
    divs !! j = Some div
    /\ rank r = Z.of_nat (i + j) + 1
    /\ score r
       = Float.sub Float.one (Float.mul (Float.of_int (Z.of_nat (i + j))) Float.tenth).
Proof.
  revert i. induction divs as [|d divs IH]; intros i; simpl.
  - intros H. now apply elem_of_nil in H.
  - intros H. apply elem_of_app in H as [H|H].
    + destruct (WebSearch.ddg_title d), (WebSearch.ddg_snippet d);
        try (now apply elem_of_nil in H).
      apply list_elem_of_singleton in H as ->. exists 0%nat, d. simpl.
      rewrite Nat.add_0_r. repeat split.
    + apply IH in H as (j & div & Hj & Hr & Hs). exists (S j), div.
      replace (i + S j)%nat with (S i + j)%nat by lia. auto.
Qed.

Lemma parse_bing_index (q : string) (i : nat) (items : list WebSearch.BingItem)
    (r : SearchResult) :
  r ∈ WebSearch.parse_bing q i items ->
  exists (j : nat) (item : WebSearch.BingItem),
    items !! j = Some item
    /\ rank r = Z.of_nat (i + j) + 1 + 10
    /\ score r
       = Float.sub Float.one (Float.mul (Float.of_int (Z.of_nat (i + j))) Float.tenth).
Proof.
  revert i. induction items as [|d items IH]; intros i; simpl.
  - intros H. now apply elem_of_nil in H.
  - intros H. apply elem_of_app in H as [H|H].
    + destruct (WebSearch.bing_h2 d) as [[? [?|]]|], (WebSearch.bing_caption d);
        try (now apply elem_of_nil in H).
      apply list_elem_of_singleton in H as ->. exists 0%nat, d. simpl.
      rewrite Nat.add_0_r. repeat split.
    + apply IH in H as (j & item & Hj & Hr & Hs). exists (S j), item.
      replace (i + S j)%nat with (S i + j)%nat by lia. auto.
Qed.

End ScoreFacts.

(** C3, as the code has it.  The document hit at position [k] carries
    the score [max(0, 1 - distance)] of the distance at position [k],
    which is never negative.  A web hit parsed from the container of
    index [i] carries [1.0 - i * 0.1], which is not negative for the
    first eleven containers: the results of either parser called with
    [0 <= max_results <= 11], and the results of [search] called with
    [max_results <= 11], have non-negative scores. *)
Theorem search_result_scores :
  (forall (env : VectorStore.Env) (c : VectorStore.Collection) (q : string) (n : Z)
          (rs : list SearchResult),
      VectorStore.search env c q n = Return rs ->
      Forall (fun r => Float.nonneg (score r) = true) rs
      /\ forall embedding docs docs' metas metas' dists dists',
           VectorStore.encode env q = Return embedding ->
           VectorStore.query env c embedding n
           = Return {| VectorStore.documents := docs :: docs';
                       VectorStore.metadatas := metas :: metas';
                       VectorStore.distances := dists :: dists' |} ->
           forall (k : nat) (r : SearchResult),
             rs !! k = Some r ->
             exists distance,
               dists !! k = Some distance
               /\ score r = Float.max0 (Float.sub (Float.of_int 1) distance))
  /\ (forall (env : WebSearch.Env) (q : string) (n : Z)
             (rs : list SearchResult) (r : SearchResult),
      WebSearch._search_duckduckgo env q n = Return rs -> r ∈ rs ->
      exists (response : WebSearch.Response WebSearch.DdgDiv) (i : nat)
             (div : WebSearch.DdgDiv),
        WebSearch.ddg_get env
          ("https://html.duckduckgo.com/html/?q=" +:+ replace_space_plus q)
        = Return response
        /\ slice_to (WebSearch.containers response) n !! i = Some div
        /\ rank r = Z.of_nat i + 1
        /\ score r
           = Float.sub Float.one (Float.mul (Float.of_int (Z.of_nat i)) Float.tenth))
  /\ (forall (env : WebSearch.Env) (q : string) (n : Z)
             (rs : list SearchResult) (r : SearchResult),
      WebSearch._search_bing env q n = Return rs -> r ∈ rs ->
      exists (response : WebSearch.Response WebSearch.BingItem) (i : nat)
             (item : WebSearch.BingItem),
        WebSearch.bing_get env
          ("https://www.bing.com/search?q=" +:+ replace_space_plus q)
        = Return response
        /\ slice_to (WebSearch.containers response) n !! i = Some item
        /\ rank r = Z.of_nat i + 1 + 10
        /\ score r
           = Float.sub Float.one (Float.mul (Float.of_int (Z.of_nat i)) Float.tenth))
  /\ (forall i : nat,
      (i <= 10)%nat ->
      Float.nonneg
        (Float.sub Float.one (Float.mul (Float.of_int (Z.of_nat i)) Float.tenth))
      = true)
  /\ (forall (env : WebSearch.Env) (q : string) (n : Z)
             (rs : list SearchResult) (r : SearchResult),
      0 <= n <= 11 -> WebSearch._search_duckduckgo env q n = Return rs -> r ∈ rs ->
      Float.nonneg (score r) = true)
  /\ (forall (env : WebSearch.Env) (q : string) (n : Z)
             (rs : list SearchResult) (r : SearchResult),
      0 <= n <= 11 -> WebSearch._search_bing env q n = Return rs -> r ∈ rs ->
      Float.nonneg (score r) = true)
  /\ (forall (env : WebSearch.Env) (q : string) (n : Z) (r : SearchResult),
      n <= 11 -> r ∈ snd (WebSearch.search env q n) ->
      Float.nonneg (score r) = true).
Proof.
  split; [|split; [|split; [|split; [|split; [|split]]]]].
  - intros env c q n rs Hrun. split.
    + apply Forall_forall. intros r Hr.
      unfold VectorStore.search, VectorStore.search_try in Hrun.
      destruct (VectorStore.encode env q) as [emb|e]; simpl in Hrun;
        [|injection Hrun as <-; now apply elem_of_nil in Hr].
      destruct (VectorStore.query env c emb n) as [res|e]; simpl in Hrun;
        [|injection Hrun as <-; now apply elem_of_nil in Hr].
      destruct (VectorStore.documents res) as [|[|doc docs] rest]; simpl in Hrun;
        try (injection Hrun as <-; now apply elem_of_nil in Hr).
      destruct (VectorStore.metadatas res) as [|metas ?]; simpl in Hrun;
        [injection Hrun as <-; now apply elem_of_nil in Hr|].
      destruct (VectorStore.distances res) as [|dists ?]; simpl in Hrun;
        [injection Hrun as <-; now apply elem_of_nil in Hr|].
      injection Hrun as <-.
      change (r ∈ VectorStore.hits 0 (doc :: docs) metas dists) in Hr.
      apply hits_score in Hr as (d & _ & -> & _). apply max0_nonneg.
    + intros embedding docs docs' metas metas' dists dists' Henc Hquery k r Hk.
      unfold VectorStore.search, VectorStore.search_try in Hrun.
      rewrite Henc in Hrun. simpl in Hrun. rewrite Hquery in Hrun. simpl in Hrun.
      destruct docs as [|doc docs].
      * injection Hrun as <-. discriminate.
      * injection Hrun as <-.
        change (VectorStore.hits 0 (doc :: docs) metas dists !! k = Some r) in Hk.
        now apply hits_lookup_score in Hk.
  - intros env q n rs r Hrun Hr. unfold WebSearch._search_duckduckgo in Hrun.
    destruct (WebSearch.ddg_get env _) as [response|e] eqn:Hget; simpl in Hrun;
      [|discriminate].
    destruct (negb (WebSearch.status response =? 200));
      [injection Hrun as <-; now apply elem_of_nil in Hr|].
    injection Hrun as <-. apply parse_ddg_index in Hr as (j & div & Hj & Hrank & Hs).
    exists response, j, div. auto.
  - intros env q n rs r Hrun Hr. unfold WebSearch._search_bing in Hrun.
    destruct (WebSearch.bing_get env _) as [response|e] eqn:Hget;
      [|injection Hrun as <-; now apply elem_of_nil in Hr].
    destruct (negb (WebSearch.status response =? 200));
      [injection Hrun as <-; now apply elem_of_nil in Hr|].
    injection Hrun as <-. apply parse_bing_index in Hr as (j & item & Hj & Hrank & Hs).
    exists response, j, item. auto.
  - intros i Hi. exact (rank_score_nonneg i Hi).
  - intros env q n rs r Hn Hrun Hr.
    apply (search_duckduckgo_nonneg env q n r Hn). now rewrite Hrun.
  - intros env q n rs r Hn Hrun Hr.
    apply (search_bing_nonneg env q n r Hn). now rewrite Hrun.
  - intros env q n r Hn Hr.
    rewrite search_final in Hr. unfold WebSearch.spec_merge in Hr.
    apply elem_of_take in Hr as (k & Hk & Hlt).
    assert (Hpos : 0 < n) by lia.
    apply list_elem_of_lookup_2, spec_dedup_elem in Hk as [_ Hk].
    apply elem_of_app in Hk as [Hk|Hk].
    + apply (search_duckduckgo_nonneg env q n r); [lia|exact Hk].
    + destruct (Z.ltb_spec
                  (len (WebSearch.or_nothing (WebSearch._search_duckduckgo env q n))) n)
        as [Hlen|Hlen]; [|now apply elem_of_nil in Hk].
      eapply search_bing_nonneg; [|exact Hk].
      pose proof (len_nonneg
                    (WebSearch.or_nothing (WebSearch._search_duckduckgo env q n))).
      lia.
Qed.

Lemma search_result_scores_witness :
  11 <= 11
  /\ Forall (fun r => Float.nonneg (score r) = true)
            (snd (WebSearch.search (Samples.web 11 11 2) "rent index" 11)).
Proof.
  split; [lia|]. apply Forall_forall. intros r Hr.
  destruct search_result_scores as (_ & _ & _ & _ & _ & _ & Hsearch).
  apply (Hsearch (Samples.web 11 11 2) "rent index" 11 r); [lia|exact Hr].
Defined.

(** C3 as stated fails: asked for twelve results, the first engine's
    parser gives the twelfth container the score [1.0 - 11 * 0.1], which is
    negative, and [search] returns it. *)
Lemma web_score_negative :
  exists r : SearchResult,
    r ∈ snd (WebSearch.search (Samples.web 12 0 0) "rent index" 12)
    /\ source r = "https://example.org/11"
    /\ score r = S754_finite true 7205759403792800 (-56)
    /\ Float.nonneg (score r) = false.
Proof.
  eexists. split; [|split; [|split]].
  - apply list_elem_of_lookup. exists 11%nat. vm_compute. reflexivity.
  - vm_compute. reflexivity.
  - vm_compute. reflexivity.
  - vm_compute. reflexivity.
Qed.

(** ** The vector store: indexing a document *)

Section StoreFacts.

Import VectorStore.

Variable env : VectorStore.Env.
Variable document : Document.

Lemma filter_eqb_nil (x : string) (l : list string) :
  List.filter (String.eqb x) l = [] <-> x ∉ l.
Proof.
  induction l as [|y l IH]; simpl.
  - split; [intros _ H; now apply elem_of_nil in H|reflexivity].
  - destruct (String.eqb_spec x y) as [->|Hne].
    + split; [discriminate|]. intros H. exfalso. apply H. now left.
    + rewrite IH. split.
      * intros H Hin. apply elem_of_cons in Hin as [?|?]; contradiction.
      * intros H Hin. apply H. now right.
Qed.

Lemma string_app_inv_head (a b c : string) : a +:+ b = a +:+ c -> b = c.
Proof.
  induction a as [|x a IH]; simpl; [trivial|]. intros H. injection H as H. auto.
Qed.

(** Chunk ids tell the chunks of a document apart. *)
Lemma chunk_id_inj (i j : nat) : chunk_id document i = chunk_id document j -> i = j.
Proof.
  unfold chunk_id, str_int. intros H.
  apply string_app_inv_head, string_app_inv_head in H.
  apply (inj pretty) in H. lia.
Qed.

(** A chunk whose id the index holds is skipped: nothing is encoded,
    nothing is added. *)
Lemma add_chunk_skips (c : Collection) (i : nat) (chunk : TextChunk) :
  chunk_id document i ∈ ids c -> add_chunk env document c i chunk = (c, Return tt).
Proof.
  intros Hin. unfold add_chunk, collection_get.
  destruct (List.filter (String.eqb (chunk_id document i)) (ids c)) as [|x found] eqn:E.
  - apply filter_eqb_nil in E. contradiction.
  - reflexivity.
Qed.

(** Otherwise the chunk is added under its id, unless a collaborator
    fails, and then the index is as before. *)
Lemma add_chunk_cases (c : Collection) (i : nat) (chunk : TextChunk) :
  chunk_id document i ∉ ids c ->
  (exists e, add_chunk env document c i chunk = (c ++ [e], Return tt)
             /\ entry_id e = chunk_id document i
             /\ entry_document e = content chunk)
  \/ (exists err, add_chunk env document c i chunk = (c, Raise err)).
Proof.
  intros Hout. unfold add_chunk, collection_get.
  apply filter_eqb_nil in Hout. rewrite Hout.
  destruct (get_absent env (chunk_id document i)); simpl;
    (destruct (encode env (content chunk)) as [embedding|err];
     [|right; now exists err]);
    (destruct (file_name env document) as [filename|err];
     [|right; now exists err]);
    unfold collection_add;
    (destruct (add_error env c _) as [err|]; [right; now exists err|]);
    left; eexists; (split; [reflexivity|]); split; reflexivity.
Qed.

(** The loop over the chunks: the index only grows, by records carrying
    the ids of this document's chunks; ids stay apart; and when the loop
    runs to its end every chunk id is in the index. *)
Lemma add_chunks_spec (chunks : list TextChunk) (i : nat) (c : Collection) :
  NoDup (ids c) ->
  exists added,
    fst (add_chunks env document c i chunks) = c ++ added
    /\ NoDup (ids (c ++ added))
    /\ Forall (fun e => exists j : nat, (i <= j < i + length chunks)%nat
                                   /\ entry_id e = chunk_id document j) added
    /\ (snd (add_chunks env document c i chunks) = Return tt ->
        forall j : nat, (i <= j < i + length chunks)%nat ->
                        chunk_id document j ∈ ids (c ++ added)).
Proof.
  revert i c. induction chunks as [|chunk chunks IH]; intros i c Hnd; simpl.
  - exists []. rewrite app_nil_r. repeat split; auto. intros _ j Hj. lia.
  - destruct (decide (chunk_id document i ∈ ids c)) as [Hin|Hout].
    + rewrite add_chunk_skips by assumption.
      destruct (IH (S i) c Hnd) as (added & Heq & Hnd' & Hids & Hall).
      exists added. repeat split; auto.
      * eapply Forall_impl; [exact Hids|]. intros e (j & Hj & He). exists j.
        split; [lia|exact He].
      * intros Hret j Hj. destruct (decide (j = i)) as [->|Hne].
        -- unfold ids. rewrite map_app. apply elem_of_app. now left.
        -- apply Hall; [exact Hret|lia].
    + destruct (add_chunk_cases c i chunk Hout) as [(e & -> & Hid & _)|(err & ->)].
      * assert (Hnd1 : NoDup (ids (c ++ [e]))).
        { unfold ids. rewrite map_app. simpl. apply NoDup_app. split; [exact Hnd|].
          split; [|apply NoDup_singleton].
          intros x Hx Hx'. apply list_elem_of_singleton in Hx'. subst x.
          rewrite Hid in Hx. contradiction. }
        destruct (IH (S i) (c ++ [e]) Hnd1) as (added & Heq & Hnd' & Hids & Hall).
        exists (e :: added).
        replace (c ++ e :: added) with ((c ++ [e]) ++ added)
          by (now rewrite <- app_assoc).
        repeat split; auto.
        -- constructor; [exists i; split; [lia|exact Hid]|].
           eapply Forall_impl; [exact Hids|]. intros e' (j & Hj & He). exists j.
           split; [lia|exact He].
        -- intros Hret j Hj. destruct (decide (j = i)) as [->|Hne].
           ++ unfold ids. rewrite !map_app. apply elem_of_app. left.
              apply elem_of_app. right. simpl. rewrite Hid. now left.
           ++ apply Hall; [exact Hret|lia].
      * exists []. simpl. rewrite app_nil_r. repeat split; auto. discriminate.
Qed.

(** When every chunk id is in the index the loop changes nothing. *)
Lemma add_chunks_all_present (chunks : list TextChunk) (i : nat) (c : Collection) :
  (forall j : nat, (i <= j < i + length chunks)%nat -> chunk_id document j ∈ ids c) ->
  add_chunks env document c i chunks = (c, Return tt).
Proof.
  revert i. induction chunks as [|chunk chunks IH]; intros i Hall; simpl;
    [reflexivity|].
  rewrite add_chunk_skips by (apply Hall; simpl; lia).
  apply IH. intros j Hj. apply Hall. simpl. lia.
Qed.

End StoreFacts.

(** [add_document] leaves the index as its [try] block left it, and
    returns. *)
Lemma add_document_outcome (env : VectorStore.Env) (settings : Config.AppSettings)
    (c : VectorStore.Collection) (document : Document) :
  VectorStore.add_document env settings c document
  = (fst (VectorStore.add_document_try env settings c document), Return tt).
Proof.
  unfold VectorStore.add_document.
  destruct (VectorStore.add_document_try env settings c document) as [c' [[]|e]];
    reflexivity.
Qed.

(** C2.  The id of the [i]-th chunk of a document is
    [{document.id}_chunk_{i}], different indices give different ids, and a
    chunk whose id the index already holds is skipped.  So on an index
    without duplicate ids [add_document] appends only records carrying
    chunk ids of the document, once or twice over it leaves the ids free
    of duplicates, and after a first run that met no failure the second
    run changes nothing. *)
Theorem add_document_at_most_once (env : VectorStore.Env)
    (settings : Config.AppSettings) (c : VectorStore.Collection) (document : Document) :
  NoDup (VectorStore.ids c) ->
  let c1 := fst (VectorStore.add_document env settings c document) in
  let c2 := fst (VectorStore.add_document env settings c1 document) in
  (forall i : nat,
      VectorStore.chunk_id document i
      = doc_id document +:+ "_chunk_" +:+ str_int (Z.of_nat i))
  /\ (forall i j : nat,
      VectorStore.chunk_id document i = VectorStore.chunk_id document j -> i = j)
  /\ (forall (c' : VectorStore.Collection) (i : nat) (chunk : TextChunk),
      VectorStore.chunk_id document i ∈ VectorStore.ids c' ->
      VectorStore.add_chunk env document c' i chunk = (c', Return tt))
  /\ (exists added,
      c1 = c ++ added
      /\ Forall (fun e => exists i : nat,
                   VectorStore.entry_id e = VectorStore.chunk_id document i) added)
  /\ NoDup (VectorStore.ids c1)
  /\ NoDup (VectorStore.ids c2)
  /\ (snd (VectorStore.add_document_try env settings c document) = Return tt ->
      c2 = c1).
Proof.
  intros Hnd c1 c2.
  assert (Hc1 : exists added,
             c1 = c ++ added
             /\ NoDup (VectorStore.ids c1)
             /\ Forall (fun e => exists i : nat,
                          VectorStore.entry_id e = VectorStore.chunk_id document i) added
             /\ (snd (VectorStore.add_document_try env settings c document) = Return tt ->
                 VectorStore.add_document_try env settings c1 document = (c1, Return tt))).
  { unfold c1. rewrite add_document_outcome. simpl.
    unfold VectorStore.add_document_try.
    destruct (create_chunks _ _ _) as [chunks|err].
    - destruct (add_chunks_spec env document chunks 0 c Hnd)
        as (added & Heq & Hnd' & Hids & Hall).
      exists added. rewrite Heq. split; [reflexivity|]. split; [exact Hnd'|]. split.
      + eapply Forall_impl; [exact Hids|]. intros e (j & _ & He). now exists j.
      + intros Hret. apply add_chunks_all_present. intros j Hj.
        apply Hall; assumption.
    - exists []. simpl. rewrite app_nil_r. repeat split; auto. discriminate. }
  destruct Hc1 as (added & Heq & Hnd1 & Hids & Hagain).
  split; [reflexivity|]. split; [apply chunk_id_inj|].
  split; [intros c' i chunk; apply add_chunk_skips|].
  split; [now exists added|]. split; [exact Hnd1|]. split.
  - unfold c2. rewrite add_document_outcome. simpl.
    unfold VectorStore.add_document_try.
    destruct (create_chunks _ _ _) as [chunks|err]; [|exact Hnd1].
    destruct (add_chunks_spec env document chunks 0 c1 Hnd1)
      as (added' & -> & Hnd' & _). exact Hnd'.
  - intros Hret. unfold c2. rewrite add_document_outcome.
    now rewrite (Hagain Hret).
Qed.

Lemma add_document_at_most_once_witness :
  NoDup (VectorStore.ids [])
  /\ NoDup (VectorStore.ids
       (fst (VectorStore.add_document Samples.store
               {| Config.chunk_size := 2; Config.chunk_overlap := 1 |}
               (fst (VectorStore.add_document Samples.store
                       {| Config.chunk_size := 2; Config.chunk_overlap := 1 |}
                       []
                       (mkDocument "d1" "notes" "alpha beta gamma" "alpha beta gamma"
                                   ∅ Float.zero)))
               (mkDocument "d1" "notes" "alpha beta gamma" "alpha beta gamma"
                           ∅ Float.zero)))).
Proof.
  split; [constructor|].
  apply (add_document_at_most_once Samples.store
           {| Config.chunk_size := 2; Config.chunk_overlap := 1 |} []
           (mkDocument "d1" "notes" "alpha beta gamma" "alpha beta gamma" ∅ Float.zero)).
  constructor.
Defined.

(** ** Loading documents *)

Section LoadFacts.

Variable env : Core.Env.
Variable settings : Config.AppSettings.

Lemma load_one_results (sys : Core.State) (results : gmap string string)
    (file_path : string) :
  snd (Core.load_one env settings (sys, results) file_path)
  = <[file_path := Core.recorded env file_path]> results.
Proof.
  unfold Core.load_one, Core.recorded.
  destruct (DocumentProcessor.process_document _ _) as [document|e]; [|reflexivity].
  rewrite add_document_outcome. reflexivity.
Qed.

Lemma load_loop_results (file_paths : list string) (st : Core.State * gmap string string)
    (f : string) :
  snd (fold_left (Core.load_one env settings) file_paths st) !! f
  = if bool_decide (f ∈ file_paths) then Some (Core.recorded env f) else snd st !! f.
Proof.
  revert st. induction file_paths as [|p ps IH]; intros [sys results];
    cbn [fold_left].
  - reflexivity.
  - rewrite IH. destruct (bool_decide_reflect (f ∈ ps)) as [Hin|Hout].
    + rewrite bool_decide_eq_true_2; [reflexivity|now right].
    + rewrite load_one_results.
      destruct (decide (f = p)) as [->|Hne].
      * rewrite bool_decide_eq_true_2 by (now left). apply lookup_insert_eq.
      * rewrite bool_decide_eq_false_2.
        -- now apply lookup_insert_ne.
        -- intros Hc. apply elem_of_cons in Hc as [?|?]; contradiction.
Qed.

End LoadFacts.

(** C9.  [add_document] returns [None] whatever its collaborators do: a
    failure of the chunker, of the encoder or of the insertion is caught
    inside.  So the loop of [load_documents] records the success entry for
    every file that [process_document] converted, whatever happened to
    the index, also when nothing at all was inserted. *)
Theorem add_document_never_raises :
  (forall (env : VectorStore.Env) (settings : Config.AppSettings)
          (c : VectorStore.Collection) (document : Document),
      snd (VectorStore.add_document env settings c document) = Return tt)
  /\ (forall (env : Core.Env) (settings : Config.AppSettings) (sys : Core.State)
             (path : string) (file_paths : list string) (f : string)
             (document : Document),
      Core.resolve_paths env path = Return file_paths ->
      f ∈ file_paths ->
      DocumentProcessor.process_document (Core.doc_env env) f = Return document ->
      exists sys' results,
        Core.load_documents env settings sys path = (sys', Return results)
        /\ results !! f
           = Some ("[OK] Success: " +:+ str_int (word_count document) +:+ " words"))
  /\ (forall (env : Core.Env) (settings : Config.AppSettings) (sys : Core.State)
             (results : gmap string string) (f : string) (document : Document)
             (e : exn),
      DocumentProcessor.process_document (Core.doc_env env) f = Return document ->
      VectorStore.add_document_try (Core.store_env env) settings
        (Core.collection sys) document = (Core.collection sys, Raise e) ->
      Core.load_one env settings (sys, results) f
      = ({| Core.registry := <[doc_id document := document]> (Core.registry sys);
            Core.collection := Core.collection sys |},
         <[f := "[OK] Success: " +:+ str_int (word_count document) +:+ " words"]>
           results)).
Proof.
  split; [|split].
  - intros env settings c document. now rewrite add_document_outcome.
  - intros env settings sys path file_paths f document Hpaths Hin Hdoc.
    unfold Core.load_documents. rewrite Hpaths.
    destruct (fold_left (Core.load_one env settings) file_paths (sys, ∅))
      as [sys' results] eqn:E.
    exists sys', results. split; [reflexivity|].
    change results with (snd (sys', results)). rewrite <- E.
    rewrite load_loop_results, bool_decide_eq_true_2 by assumption.
    unfold Core.recorded. now rewrite Hdoc.
  - intros env settings sys results f document e Hdoc Hfail.
    unfold Core.load_one. rewrite Hdoc, add_document_outcome, Hfail. reflexivity.
Qed.

Lemma add_document_never_raises_witness :
  exists sys' results,
    Core.load_documents (Samples.world Samples.store_down (Samples.web 0 0 0))
      Config.default_settings Samples.empty_system "notes.txt" = (sys', Return results)
    /\ results !! "notes.txt"
       = Some ("[OK] Success: " +:+ str_int (word_count Samples.notes_document)
               +:+ " words").
Proof.
  destruct add_document_never_raises as (_ & Hload & _).
  apply (Hload (Samples.world Samples.store_down (Samples.web 0 0 0))
               Config.default_settings Samples.empty_system
               "notes.txt" ["notes.txt"] "notes.txt" Samples.notes_document).
  - vm_compute. reflexivity.
  - now left.
  - vm_compute. reflexivity.
Defined.

(** With the encoder and the index down, loading [notes.txt] still
    reports success, and the index stays empty. *)
Example load_with_store_down :
  Core.load_documents (Samples.world Samples.store_down (Samples.web 0 0 0))
    Config.default_settings Samples.empty_system "notes.txt"
  = ({| Core.registry := <[doc_id Samples.notes_document := Samples.notes_document]> ∅;
        Core.collection := [] |},
     Return (<["notes.txt" := "[OK] Success: 3 words"]> ∅)).
Proof. vm_compute. reflexivity. Qed.

(** Indexing the same document twice leaves one record per chunk. *)
Example add_twice_ids :
  VectorStore.ids
    (fst (VectorStore.add_document Samples.store
            {| Config.chunk_size := 2; Config.chunk_overlap := 1 |}
            (fst (VectorStore.add_document Samples.store
                    {| Config.chunk_size := 2; Config.chunk_overlap := 1 |}
                    [] Samples.notes_document))
            Samples.notes_document))
  = [doc_id Samples.notes_document +:+ "_chunk_0";
     doc_id Samples.notes_document +:+ "_chunk_1";
     doc_id Samples.notes_document +:+ "_chunk_2"].
Proof. vm_compute. reflexivity. Qed.

(** ** Answering a question *)

(** [VectorStore.search] returns on every path. *)
Lemma vector_search_returns (env : VectorStore.Env) (c : VectorStore.Collection)
    (q : string) (n : Z) :
  exists rs, VectorStore.search env c q n = Return rs.
Proof.
  unfold VectorStore.search. destruct (VectorStore.search_try _ _ _ _); eauto.
Qed.

(** [generate_response] returns on every path. *)
Lemma generate_response_returns (env : LLM.Env) (request : QueryRequest)
    (context : string) :
  exists answer, LLM.generate_response env request context = Return answer.
Proof.
  unfold LLM.generate_response. destruct (LLM.chat_completion _ _ _); eauto.
Qed.

(** Walks the [try] block of [ask_question] once its request is built:
    splits on the two routing conditions, on what the web session's
    [close] did, and replaces the calls that always return by their
    results. *)
Ltac walk_try_block :=
  repeat match goal with
    | |- context [if ?flag && negb (TaskType_eqb ?t WEB_SEARCH) then _ else _] =>
        destruct (flag && negb (TaskType_eqb t WEB_SEARCH))
    | |- context [if ?flag && (TaskType_eqb ?t WEB_SEARCH || TaskType_eqb ?t HYBRID_SEARCH)
                  then _ else _] =>
        destruct (flag && (TaskType_eqb t WEB_SEARCH || TaskType_eqb t HYBRID_SEARCH))
    | |- context [VectorStore.search ?e ?c ?q ?n] =>
        let rs := fresh "doc_results" in
        destruct (vector_search_returns e c q n) as [rs ->]
    | |- context [WebSearch.search ?e ?q ?n] =>
        let requests := fresh "requests" in
        let rs := fresh "web_results" in
        destruct (WebSearch.search e q n) as [requests rs]
    | |- context [WebSearch.session_close ?e] =>
        destruct (WebSearch.session_close e)
    | |- context [LLM.generate_response ?e ?r ?c] =>
        let answer := fresh "answer" in
        destruct (generate_response_returns e r c) as [answer ->]
    end.

Section AskFacts.

Variable env : Core.Env.
Variable sys : Core.State.

(** The calls of a run are settled by the request's flags and the task
    type, whatever the sources answer. *)
Lemma ask_question_try_calls (q : string) (kw : Core.Kwargs) (request : QueryRequest) :
  Core.make_request q kw = Return request ->
  fst (Core.ask_question_try env sys q kw)
  = (if include_documents request
        && negb (TaskType_eqb (LLM.classify q) WEB_SEARCH)
     then [Core.DocumentSearch q (max_results request)] else [])
    ++ (if include_web request
           && (TaskType_eqb (LLM.classify q) WEB_SEARCH
               || TaskType_eqb (LLM.classify q) HYBRID_SEARCH)
        then Core.WebSearchCall q (max_results request)
             :: map Core.WebRequest
                  (fst (WebSearch.search (Core.web_env env) q (max_results request)))
        else []).
Proof.
  intros Hreq. unfold Core.ask_question_try. rewrite Hreq.
  walk_try_block; reflexivity.
Qed.

Lemma ask_question_calls (q : string) (kw : Core.Kwargs) :
  fst (Core.ask_question env sys q kw) = fst (Core.ask_question_try env sys q kw).
Proof.
  unfold Core.ask_question.
  destruct (Core.ask_question_try env sys q kw) as [calls [d|e]]; reflexivity.
Qed.

End AskFacts.

(** C4.  For a request built from the keywords, [ask_question] calls the
    vector store exactly when [include_documents] holds and the task type
    is not WEB_SEARCH, and calls the web search exactly when [include_web]
    holds and the task type is WEB_SEARCH or HYBRID_SEARCH; requests to
    the engines occur only inside such a call.  With [include_web] false
    no web request is issued, whatever the task type. *)
Theorem ask_question_routing (env : Core.Env) (sys : Core.State) (q : string)
    (kw : Core.Kwargs) (request : QueryRequest) :
  Core.make_request q kw = Return request ->
  let calls := fst (Core.ask_question env sys q kw) in
  let task_type := LLM.classify q in
  (existsb Core.is_document_search calls = true
   <-> include_documents request = true /\ task_type <> WEB_SEARCH)
  /\ (existsb Core.is_web_search calls = true
      <-> include_web request = true
          /\ (task_type = WEB_SEARCH \/ task_type = HYBRID_SEARCH))
  /\ (existsb Core.is_web_request calls = true ->
      existsb Core.is_web_search calls = true)
  /\ (include_web request = false ->
      existsb Core.is_web_search calls = false
      /\ existsb Core.is_web_request calls = false).
Proof.
  intros Hreq calls task_type. unfold calls.
  rewrite ask_question_calls, (ask_question_try_calls env sys q kw request Hreq).
  fold task_type.
  assert (Hnoreq : forall l, existsb Core.is_document_search (map Core.WebRequest l) = false
                             /\ existsb Core.is_web_search (map Core.WebRequest l) = false).
  { induction l as [|x l [IH1 IH2]]; simpl; auto. }
  rewrite !existsb_app.
  destruct (include_documents request), (include_web request), task_type; simpl;
    repeat match goal with
           | |- context [existsb ?f (map Core.WebRequest ?l)] =>
               first [ rewrite (proj1 (Hnoreq l)) | rewrite (proj2 (Hnoreq l)) ]
           end;
    (split; [|split; [|split]]);
    try (split; [intros [=] | intros [? ?]]);
    try (intros [_ [?|?]]);
    try intros;
    try intuition congruence.
Qed.

Lemma ask_question_routing_witness :
  existsb Core.is_web_search
    (fst (Core.ask_question (Samples.world Samples.store (Samples.web 3 0 0))
            Samples.empty_system "Tell me about your company"
            {| Core.kw_task_type := None; Core.kw_max_results := None;
               Core.kw_include_web := Some false;
               Core.kw_include_documents := Some true; Core.kw_other := [] |})) = false
  /\ existsb Core.is_web_request
       (fst (Core.ask_question (Samples.world Samples.store (Samples.web 3 0 0))
               Samples.empty_system "Tell me about your company"
               {| Core.kw_task_type := None; Core.kw_max_results := None;
                  Core.kw_include_web := Some false;
                  Core.kw_include_documents := Some true; Core.kw_other := [] |})) = false.
Proof.
  apply (ask_question_routing (Samples.world Samples.store (Samples.web 3 0 0))
           Samples.empty_system "Tell me about your company"
           {| Core.kw_task_type := None; Core.kw_max_results := None;
              Core.kw_include_web := Some false;
              Core.kw_include_documents := Some true; Core.kw_other := [] |}
           {| question := "Tell me about your company"; task_type := None;
              max_results := 5; include_web := false; include_documents := true |}).
  - reflexivity.
  - reflexivity.
Defined.

(** Every dict that leaves the [try] block has the seven keys. *)
Lemma ask_question_try_keys (env : Core.Env) (sys : Core.State) (q : string)
    (kw : Core.Kwargs) (d : Core.ResponseDict) :
  snd (Core.ask_question_try env sys q kw) = Return d -> Core.keys d = Core.response_keys.
Proof.
  unfold Core.ask_question_try.
  destruct (Core.make_request q kw) as [request|e]; [|discriminate].
  walk_try_block; try discriminate; simpl; intros [= <-]; reflexivity.
Qed.

(** C7, as the code has it.  For a call whose keywords name none of the
    method's own parameters, and as long as what leaves the [try] block
    is an instance of [Exception], [ask_question] gives its caller a
    dict, with the same seven keys whether the block came through or not;
    when an exception left the block the dict is the error response: the
    answer names the exception, the confidence is 0, the sources list is
    empty.  The caller does get an exception in two cases: a keyword that
    names a bound parameter is a [TypeError] raised before the [try]
    statement, and an exception outside [Exception] passes the
    [except Exception] clause. *)
Theorem ask_question_never_raises (env : Core.Env) (sys : Core.State) (q : string)
    (kw : Core.Kwargs) :
  (Core.clash kw = None ->
   exists d : Core.ResponseDict,
     Core.call_ask_question env sys q kw None = Core.Responds d
     /\ snd (Core.ask_question env sys q kw) = Return d
     /\ Core.keys d
        = ["answer"; "task_type"; "processing_time"; "confidence"; "sources";
           "has_sources"; "total_sources"]
     /\ (forall e : exn,
           snd (Core.ask_question_try env sys q kw) = Raise e ->
           d = Core.error_response env e
           /\ assoc_get "answer" d
              = Some (Core.RStr ("Error processing question: " +:+ str_exn e))
           /\ assoc_get "confidence" d = Some (Core.RInt 0)
           /\ assoc_get "sources" d = Some (Core.RSources [])
           /\ assoc_get "has_sources" d = Some (Core.RBool false)
           /\ assoc_get "total_sources" d = Some (Core.RInt 0)))
  /\ (forall (k : string) (interrupt : option base_exn),
        Core.clash kw = Some k ->
        (k = "self" \/ k = "question")
        /\ Core.call_ask_question env sys q kw interrupt
           = Core.Propagates
               (mkExn TypeError
                  ("AgenticAISystem.ask_question() got multiple values for argument '"
                   +:+ k +:+ "'")))
  /\ (forall b : base_exn,
        Core.clash kw = None ->
        Core.call_ask_question env sys q kw (Some b) = Core.PropagatesBase b).
Proof.
  split; [|split].
  - intros Hfree. unfold Core.call_ask_question. rewrite Hfree.
    pose proof (ask_question_try_keys env sys q kw) as Hkeys.
    unfold Core.ask_question.
    destruct (Core.ask_question_try env sys q kw) as [calls [d|e]]; simpl in *.
    + exists d. split; [reflexivity|]. split; [reflexivity|].
      split; [now apply Hkeys|]. discriminate.
    + exists (Core.error_response env e). split; [reflexivity|].
      split; [reflexivity|]. split; [reflexivity|]. intros e' [= <-]. repeat split.
  - intros k interrupt Hclash. split.
    + unfold Core.clash in Hclash. apply find_some in Hclash as [_ Hk].
      apply bool_decide_eq_true in Hk. unfold Core.own_parameters in Hk.
      set_unfold in Hk. tauto.
    + unfold Core.call_ask_question. now rewrite Hclash.
  - intros b Hfree. unfold Core.call_ask_question. now rewrite Hfree.
Qed.

Lemma ask_question_never_raises_witness :
  exists d : Core.ResponseDict,
    Core.call_ask_question (Samples.world Samples.store (Samples.web 3 0 0))
      Samples.empty_system "What is the latest rent index?"
      {| Core.kw_task_type := None; Core.kw_max_results := None;
         Core.kw_include_web := None; Core.kw_include_documents := None;
         Core.kw_other := ["top_k"] |} None = Core.Responds d
    /\ assoc_get "confidence" d = Some (Core.RInt 0)
    /\ assoc_get "sources" d = Some (Core.RSources []).
Proof.
  destruct (ask_question_never_raises
              (Samples.world Samples.store (Samples.web 3 0 0))
              Samples.empty_system "What is the latest rent index?"
              {| Core.kw_task_type := None; Core.kw_max_results := None;
                 Core.kw_include_web := None; Core.kw_include_documents := None;
                 Core.kw_other := ["top_k"] |}) as (Hresponds & _ & _).
  destruct Hresponds as (d & Hrun & _ & _ & Herr); [reflexivity|].
  exists d. split; [exact Hrun|].
  destruct (Herr (mkExn TypeError
                    "QueryRequest.__init__() got an unexpected keyword argument 'top_k'"))
    as (_ & _ & Hc & Hs & _); [reflexivity|]. split; assumption.
Defined.

(** C7 as stated fails: a call that passes [question] again as a
    keyword raises a [TypeError] to its caller, and so does the
    cancellation of the task while a well-formed call is answered. *)
Lemma ask_question_propagates :
  Core.call_ask_question (Samples.world Samples.store (Samples.web 3 0 0))
    Samples.empty_system "What is the latest rent index?"
    {| Core.kw_task_type := None; Core.kw_max_results := None;
       Core.kw_include_web := None; Core.kw_include_documents := None;
       Core.kw_other := ["question"] |} None
  = Core.Propagates
      (mkExn TypeError
         "AgenticAISystem.ask_question() got multiple values for argument 'question'")
  /\ Core.call_ask_question (Samples.world Samples.store (Samples.web 3 0 0))
       Samples.empty_system "What is the latest rent index?" Core.no_kwargs
       (Some CancelledError)
     = Core.PropagatesBase CancelledError.
Proof. split; reflexivity. Qed.

(** ** Converting a document *)

Section ProcessFacts.

Import DocumentProcessor.

Variable env : DocumentProcessor.Env.
Variable file_path : string.

(** Processors that do not yield are passed over; the first one that
    yields ends the loop, and the ones after it are not consulted. *)
Lemma try_processors_first (pre post : list processor) (name : string)
    (f : Env -> string -> outcome (string * gmap string pyval))
    (content : string) (metadata : gmap string pyval) (last : option exn) :
  forallb (fun p => negb (yields env file_path p)) pre = true ->
  f env file_path = Return (content, metadata) ->
  truthy (strip content) = true ->
  try_processors env file_path (pre ++ (name, f) :: post) last
  = Return (build_document env file_path name content metadata).
Proof.
  intros Hpre Hf Hc. revert last.
  induction pre as [|[n g] pre IH]; intros last; simpl.
  - now rewrite Hf, Hc.
  - simpl in Hpre. apply andb_true_iff in Hpre as [Hg Hpre].
    unfold yields in Hg. simpl in Hg.
    destruct (g env file_path) as [[c m]|e].
    + apply negb_true_iff in Hg. rewrite Hg. now apply IH.
    + now apply IH.
Qed.

(** When no processor yields, the loop ends in the aggregated error,
    which quotes the exception raised last. *)
Lemma try_processors_all_fail (todo : list processor) (last : option exn) :
  forallb (fun p => negb (yields env file_path p)) todo = true ->
  try_processors env file_path todo last
  = Raise (mkExn Exception
      ("All processors failed for " +:+ file_path +:+ ". Last error: "
       +:+ match last_raised env file_path todo last with
           | Some e => str_exn e
           | None => "None"
           end)).
Proof.
  revert last. induction todo as [|[n g] todo IH]; intros last Hall; simpl.
  - reflexivity.
  - simpl in Hall. apply andb_true_iff in Hall as [Hg Hall].
    unfold yields in Hg. simpl in Hg.
    destruct (g env file_path) as [[c m]|e].
    + apply negb_true_iff in Hg. rewrite Hg. now apply IH.
    + now apply IH.
Qed.

(** The document records the processor, unless the metadata that the
    processor returned has a [processor_used] of its own. *)
Lemma build_document_processor_used (name content : string)
    (metadata : gmap string pyval) :
  metadata !! "processor_used" = None ->
  doc_metadata (build_document env file_path name content metadata)
    !! "processor_used" = Some (VStr name).
Proof.
  intros Hm. unfold build_document. simpl.
  rewrite lookup_union_r by exact Hm.
  repeat (rewrite lookup_insert_ne by discriminate).
  apply lookup_insert_eq.
Qed.

(** In every case the metadata that the processor returned come first. *)
Lemma build_document_processor_label (name content : string)
    (metadata : gmap string pyval) :
  doc_metadata (build_document env file_path name content metadata)
    !! "processor_used"
  = Some (default (VStr name) (metadata !! "processor_used")).
Proof.
  destruct (metadata !! "processor_used") as [v|] eqn:Hm.
  - unfold build_document. simpl. now apply lookup_union_Some_l.
  - exact (build_document_processor_used name content metadata Hm).
Qed.

(** The metadata of the two converters of the repository has no such
    key. *)
Lemma docx_metadata (content : string) (metadata : gmap string pyval) :
  _process_with_docx env file_path = Return (content, metadata) ->
  metadata !! "processor_used" = None.
Proof.
  unfold _process_with_docx.
  destruct (negb _); [discriminate|].
  destruct (docx_paragraphs env file_path); simpl; [|discriminate].
  intros [= _ <-]. reflexivity.
Qed.

Lemma text_metadata (content : string) (metadata : gmap string pyval) :
  _process_with_text env file_path = Return (content, metadata) ->
  metadata !! "processor_used" = None.
Proof.
  unfold _process_with_text.
  destruct (negb _); [discriminate|].
  destruct (read_utf8 env file_path) as [text|e]; simpl.
  - intros [= _ <-]. reflexivity.
  - destruct (exn_type e); try discriminate.
    destruct (read_latin1 env file_path); simpl; [|discriminate].
    intros [= _ <-]. reflexivity.
Qed.

End ProcessFacts.

(** C8, as the code has it.  [process_document] fails when the file does
    not exist.  For a supported, existing file it walks the registered
    processors in order: the first one that returns text that is not
    blank ends the walk and the document is built from that text.  The
    converter's own metadata are merged last: [processor_used] names the
    processor unless those metadata have a [processor_used] of their own,
    which then stands (those of the docx and text converters have no such
    key, so only the first converter's library can override the name).
    When no processor yields, the call raises one error, which quotes the
    exception raised last. *)
Theorem process_document_first_success (env : DocumentProcessor.Env)
    (file_path : string) :
  (DocumentProcessor.path_exists env file_path = false ->
   exists e, DocumentProcessor.process_document env file_path = Raise e)
  /\ (DocumentProcessor.supports_file env file_path = true ->
      DocumentProcessor.path_exists env file_path = false ->
      DocumentProcessor.process_document env file_path
      = Raise (mkExn Exception ("File not found: " +:+ file_path)))
  /\ (forall (pre post : list DocumentProcessor.processor) (name : string)
             (f : DocumentProcessor.Env -> string -> outcome (string * gmap string pyval))
             (content : string) (metadata : gmap string pyval),
      DocumentProcessor.supports_file env file_path = true ->
      DocumentProcessor.path_exists env file_path = true ->
      DocumentProcessor.processors env = pre ++ (name, f) :: post ->
      forallb (fun p => negb (DocumentProcessor.yields env file_path p)) pre = true ->
      f env file_path = Return (content, metadata) ->
      truthy (strip content) = true ->
      exists document,
        DocumentProcessor.process_document env file_path = Return document
        /\ doc_content document = content
        /\ doc_metadata document !! "processor_used"
           = Some (default (VStr name) (metadata !! "processor_used"))
        /\ (metadata !! "processor_used" = None ->
            doc_metadata document !! "processor_used" = Some (VStr name))
        /\ (name <> "markitdown" ->
            doc_metadata document !! "processor_used" = Some (VStr name)))
  /\ (DocumentProcessor.supports_file env file_path = true ->
      DocumentProcessor.path_exists env file_path = true ->
      forallb (fun p => negb (DocumentProcessor.yields env file_path p))
              (DocumentProcessor.processors env) = true ->
      DocumentProcessor.process_document env file_path
      = Raise (mkExn Exception
          ("All processors failed for " +:+ file_path +:+ ". Last error: "
           +:+ match DocumentProcessor.last_raised env file_path
                       (DocumentProcessor.processors env) None with
               | Some e => str_exn e
               | None => "None"
               end))).
Proof.
  split; [|split; [|split]].
  - intros Hmiss. unfold DocumentProcessor.process_document.
    destruct (negb (DocumentProcessor.supports_file env file_path)); [eauto|].
    rewrite Hmiss. simpl. eauto.
  - intros Hsup Hmiss. unfold DocumentProcessor.process_document.
    rewrite Hsup, Hmiss. reflexivity.
  - intros pre post name f content metadata Hsup Hex Hprocs Hpre Hf Hc.
    exists (DocumentProcessor.build_document env file_path name content metadata).
    split; [|split; [reflexivity|split; [|split]]].
    + unfold DocumentProcessor.process_document. rewrite Hsup, Hex, Hprocs. simpl.
      now apply try_processors_first.
    + apply build_document_processor_label.
    + apply build_document_processor_used.
    + intros Hname. apply build_document_processor_used.
      assert (Hin : (name, f) ∈ DocumentProcessor.processors env).
      { rewrite Hprocs. apply elem_of_app. right. now left. }
      unfold DocumentProcessor.processors in Hin.
      repeat (apply elem_of_app in Hin as [Hin|Hin]).
      * destruct (DocumentProcessor.HAS_MARKITDOWN env);
          [|now apply elem_of_nil in Hin].
        apply list_elem_of_singleton in Hin. injection Hin as -> _. contradiction.
      * destruct (DocumentProcessor.HAS_DOCX env); [|now apply elem_of_nil in Hin].
        apply list_elem_of_singleton in Hin. injection Hin as -> ->.
        eapply docx_metadata. exact Hf.
      * apply list_elem_of_singleton in Hin. injection Hin as -> ->.
        eapply text_metadata. exact Hf.
  - intros Hsup Hex Hall. unfold DocumentProcessor.process_document.
    rewrite Hsup, Hex. simpl. now apply try_processors_all_fail.
Qed.

Lemma process_document_first_success_witness :
  exists document,
    DocumentProcessor.process_document Samples.files "notes.txt" = Return document
    /\ doc_content document = "alpha beta gamma"
    /\ doc_metadata document !! "processor_used" = Some (VStr "text").
Proof.
  destruct (process_document_first_success Samples.files "notes.txt")
    as (_ & _ & Hfirst & _).
  destruct (Hfirst [] [] "text" DocumentProcessor._process_with_text
              "alpha beta gamma"
              (<["encoding" := VStr "utf-8"]> (<["processor" := VStr "text"]> ∅)))
    as (document & Hrun & Hcontent & _ & Hmeta & _);
    try (vm_compute; reflexivity).
  exists document. split; [exact Hrun|]. split; [exact Hcontent|].
  apply Hmeta. vm_compute. reflexivity.
Defined.

(** C8 as stated fails: the first registered strategy, [markitdown],
    returns the text of [report.pdf], and the document does not record
    that strategy's name: the [processor_used] of the library's own
    metadata stands. *)
Lemma processor_used_overridden :
  exists document,
    DocumentProcessor.process_document Corner.labelled "report.pdf" = Return document
    /\ head (DocumentProcessor.processors Corner.labelled)
       = Some ("markitdown", DocumentProcessor._process_with_markitdown)
    /\ DocumentProcessor._process_with_markitdown Corner.labelled "report.pdf"
       = Return (doc_content document,
                 <["processor_used" := VStr "pdfminer"]> (<["pages" := VInt 12]> ∅))
    /\ doc_metadata document !! "processor_used" = Some (VStr "pdfminer")
    /\ doc_metadata document !! "processor_used" <> Some (VStr "markitdown").
Proof.
  eexists. split; [vm_compute; reflexivity|].
  split; [reflexivity|]. split; [reflexivity|]. split; [reflexivity|discriminate].
Qed.

Lemma web_search_merge_witness :
  length (filter (fun r => source r = "https://example.org/1")
            (snd (WebSearch.search (Samples.web 2 1 3) "rent index" 5))) = 1%nat.
Proof.
  destruct (web_search_merge (Samples.web 2 1 3) "rent index" 5)
    as (_ & _ & _ & _ & _ & Hone).
  apply Hone; apply list_elem_of_In; vm_compute; auto.
Defined.

(** The two engines overlap in one page: the merge lists it once, and the
    second engine was asked for the three results still missing. *)
Example merge_two_engines :
  fst (WebSearch.search (Samples.web 2 1 3) "rent index" 5)
  = [WebSearch.CallDuckDuckGo "rent index" 5; WebSearch.CallBing "rent index" 3]
  /\ map source (snd (WebSearch.search (Samples.web 2 1 3) "rent index" 5))
     = ["https://example.org/0"; "https://example.org/1";
        "https://example.org/2"; "https://example.org/3"].
Proof. split; vm_compute; reflexivity. Qed.

(** ** Runs of the model *)

(** A hit at distance 0.25 scores 0.75; a hit at distance 1.5 is clamped
    to 0. *)
Example similarity_is_clamped :
  map score (WebSearch.or_nothing
               (VectorStore.search (Samples.store_hit Samples.quarter) [] "lease" 5))
  = [Samples.three_quarters]
  /\ map score (WebSearch.or_nothing
                  (VectorStore.search (Samples.store_hit Samples.one_and_half) [] "lease" 5))
     = [Float.zero].
Proof. split; vm_compute; reflexivity. Qed.

(** The web search found three results, then the session failed to close:
    the answer is the error response. *)
Example close_failure_becomes_error_response :
  snd (Core.ask_question (Samples.world Samples.store (Samples.web_close_fails 3))
         Samples.empty_system "What is the latest rent index?" Core.no_kwargs)
  = Return [ ("answer", Core.RStr "Error processing question: connection reset");
             ("task_type", Core.RStr "error");
             ("processing_time", Core.RStr "0.00s");
             ("confidence", Core.RInt 0);
             ("sources", Core.RSources []);
             ("has_sources", Core.RBool false);
             ("total_sources", Core.RInt 0) ].
Proof. vm_compute. reflexivity. Qed.

(** The chat model failing does not reach [ask_question] as an exception:
    the answer carries the message and the sources found stay. *)
Example chat_failure_is_an_answer :
  exists d,
    snd (Core.ask_question Samples.world_chat_down Samples.empty_system
           "What is the latest rent index?" Core.no_kwargs) = Return d
    /\ assoc_get "answer" d
       = Some (Core.RStr "I encountered an error generating the response: rate limit")
    /\ assoc_get "confidence" d = Some (Core.RInt 85)
    /\ assoc_get "total_sources" d = Some (Core.RInt 3).
Proof. eexists. split; [vm_compute; reflexivity|]. repeat split. Qed.

(** A text file of blanks: the one registered processor returns blank
    text without raising, and the aggregated error has no exception to
    quote. *)
Example blank_file_fails :
  DocumentProcessor.process_document Samples.blank_files "notes.txt"
  = Raise (mkExn Exception "All processors failed for notes.txt. Last error: None").
Proof. vm_compute. reflexivity. Qed.

(** * Further properties *)

(** ** Words: [split] and [join] *)

Section WordFacts.

Import Shape.

Lemma all_nonspace_app (a b : string) :
  all_nonspace (a +:+ b) = all_nonspace a && all_nonspace b.
Proof.
  induction a as [|c a IH]; simpl; [reflexivity|]. rewrite IH. apply andb_assoc.
Qed.

Lemma string_app_nil_r (a : string) : a +:+ "" = a.
Proof.
  induction a as [|c a IH]; [reflexivity|].
  change (String c (a +:+ "") = String c a). now rewrite IH.
Qed.

Lemma string_app_assoc (a b c : string) : (a +:+ b) +:+ c = a +:+ (b +:+ c).
Proof.
  induction a as [|x a IH]; [reflexivity|].
  change (String x ((a +:+ b) +:+ c) = String x (a +:+ (b +:+ c))). now rewrite IH.
Qed.

Lemma string_app_eq_nil (a b : string) : a +:+ b = "" -> a = "" /\ b = "".
Proof. destruct a; simpl; [auto|discriminate]. Qed.

(** [split] gives words. *)
Lemma split_from_words (s w : string) :
  all_nonspace w = true -> Forall is_word (split_from w s).
Proof.
  revert w. induction s as [|c s IH]; intros w Hw; simpl.
  - destruct (String.eqb_spec w ""); repeat constructor; assumption.
  - destruct (isspace c) eqn:E.
    + destruct (String.eqb_spec w "").
      * now apply IH.
      * constructor; [split; assumption|]. now apply IH.
    + apply IH. rewrite all_nonspace_app, Hw. simpl. now rewrite E.
Qed.

Lemma split_words (text : string) : Forall is_word (split text).
Proof. now apply split_from_words. Qed.

(** A blank text has no words. *)
Lemma split_from_blank (s w : string) :
  has_nonspace s = false -> split_from w s = if String.eqb w "" then [] else [w].
Proof.
  revert w. induction s as [|c s IH]; intros w Hs; simpl; [reflexivity|].
  simpl in Hs. apply orb_false_iff in Hs as [Hc Hs]. apply negb_false_iff in Hc.
  rewrite Hc, (IH "" Hs). simpl. reflexivity.
Qed.

(** A text that is not blank has a word. *)
Lemma split_from_nonblank (s w : string) :
  has_nonspace s = true -> split_from w s <> [].
Proof.
  revert w. induction s as [|c s IH]; intros w Hs; simpl; [discriminate|].
  simpl in Hs. destruct (isspace c) eqn:E; simpl in Hs.
  - destruct (String.eqb w ""); [now apply IH|discriminate].
  - destruct s as [|d s].
    + simpl. destruct (String.eqb_spec (w +:+ String c "") "") as [Heq|]; [|discriminate].
      apply string_app_eq_nil in Heq as [_ Heq]. discriminate.
    + destruct (has_nonspace (String d s)) eqn:Hd; [now apply IH|].
      rewrite split_from_blank by assumption.
      destruct (String.eqb_spec (w +:+ String c "") "") as [Heq|]; [|discriminate].
      apply string_app_eq_nil in Heq as [_ Heq]. discriminate.
Qed.

(** Reading a word extends the run that [split] is in. *)
Lemma split_from_word (a s w : string) :
  all_nonspace a = true -> split_from w (a +:+ s) = split_from (w +:+ a) s.
Proof.
  revert w. induction a as [|c a IH]; intros w Ha.
  - now rewrite string_app_nil_r.
  - simpl in Ha. apply andb_true_iff in Ha as [Hc Ha]. apply negb_true_iff in Hc.
    change (split_from w (String c a +:+ s))
      with (if isspace c
            then (if String.eqb w "" then split_from "" (a +:+ s)
                  else w :: split_from "" (a +:+ s))
            else split_from (w +:+ String c "") (a +:+ s)).
    rewrite Hc, IH by assumption. now rewrite string_app_assoc.
Qed.

(** Splitting the words joined by single spaces gives the words back. *)
Lemma split_join (ws : list string) :
  Forall is_word ws -> split (join " " ws) = ws.
Proof.
  unfold split, join. induction ws as [|w ws IH]; intros Hws; [reflexivity|].
  apply Forall_cons_1 in Hws as [[Hne Hw] Hws]. specialize (IH Hws).
  destruct ws as [|w' ws].
  - simpl. rewrite <- (string_app_nil_r w) at 1.
    rewrite split_from_word by assumption. change ("" +:+ w) with w. simpl.
    destruct (String.eqb_spec w ""); [contradiction|reflexivity].
  - change (String.concat " " (w :: w' :: ws))
      with (w +:+ " " +:+ String.concat " " (w' :: ws)).
    rewrite split_from_word by assumption. change ("" +:+ w) with w.
    change (split_from w (" " +:+ String.concat " " (w' :: ws)))
      with (if String.eqb w "" then split_from "" (String.concat " " (w' :: ws))
            else w :: split_from "" (String.concat " " (w' :: ws))).
    destruct (String.eqb_spec w ""); [contradiction|]. now rewrite IH.
Qed.

End WordFacts.

(** ** More on the chunker *)

Section ChunkShape.

Import Shape.

Lemma slice_words (words : list string) (i j : Z) :
  Forall is_word words -> Forall is_word (slice words i j).
Proof. intros H. unfold slice. now apply Forall_take, Forall_drop. Qed.

(** Every chunk that the loop appends is the window at one of the
    indices it walks. *)
Lemma fold_chunk_step_windows (words : list string) (chunk_size : Z)
    (P : Z -> Prop) (idx : list Z) (chunks : list TextChunk) :
  Forall P idx ->
  Forall (fun c => exists i, P i /\ c = window_at words chunk_size i) chunks ->
  Forall (fun c => exists i, P i /\ c = window_at words chunk_size i)
         (fold_left (chunk_step words chunk_size) idx chunks).
Proof.
  revert chunks. induction idx as [|i idx IH]; intros chunks Hidx Hc; simpl;
    [exact Hc|].
  apply Forall_cons_1 in Hidx as [Hi Hidx]. apply IH; [exact Hidx|].
  unfold chunk_step. destruct (truthy _); [|exact Hc].
  apply Forall_app. split; [exact Hc|]. repeat constructor. now exists i.
Qed.

(** The indices of [range(0, n, step)] lie in [0, n). *)
Lemma range_bounds (n step : Z) (idx : list Z) :
  0 <= n -> range 0 n step = Return idx -> Forall (fun i => 0 <= i < n) idx.
Proof.
  intros Hn. destruct (Z.lt_total step 0) as [Hneg|[->|Hpos]].
  - rewrite range_negative_step by lia. intros [= <-]. constructor.
  - rewrite range_zero_step. discriminate.
  - rewrite range_positive_step by lia. intros [= <-].
    apply Forall_forall. intros i Hi.
    apply list_elem_of_In, in_map_iff in Hi as [k [<- Hk]]. apply in_seq in Hk.
    assert (Z.of_nat k * step < n) by (apply window_count_spec; lia). nia.
Qed.

Lemma create_chunks_shape (text : string) (chunk_size overlap : Z)
    (chunks : list TextChunk) :
  create_chunks text chunk_size overlap = Return chunks ->
  Forall (fun c => exists i, 0 <= i < len (split text)
                             /\ c = window_at (split text) chunk_size i) chunks.
Proof.
  unfold create_chunks.
  destruct (range 0 (len (split text)) (chunk_size - overlap)) as [idx|e] eqn:E;
    simpl; [|discriminate].
  intros [= <-]. apply fold_chunk_step_windows; [|constructor].
  eapply range_bounds; [apply len_nonneg|exact E].
Qed.

Lemma slice_app {A : Type} (l : list A) (i j k : Z) :
  0 <= i <= j -> j <= k -> slice l i j ++ slice l j k = slice l i k.
Proof.
  intros Hij Hjk. rewrite !slice_nonneg by lia.
  pose proof (len_nonneg l) as Hn.
  set (a := Z.min i (len l)). set (b := Z.min j (len l)). set (c := Z.min k (len l)).
  replace (Z.to_nat b) with (Z.to_nat a + Z.to_nat (b - a))%nat by lia.
  rewrite <- drop_drop, take_take_drop. f_equal. lia.
Qed.

Lemma slice_whole {A : Type} (l : list A) (k : Z) :
  len l <= k -> slice l 0 k = l.
Proof.
  intros Hk. pose proof (len_nonneg l). rewrite slice_nonneg by lia.
  replace (Z.min 0 (len l)) with 0 by lia. simpl.
  apply take_ge. unfold len in *. lia.
Qed.

Lemma join_app (sep : string) (a b : list string) :
  a <> [] -> b <> [] -> join sep (a ++ b) = join sep a +:+ sep +:+ join sep b.
Proof.
  unfold join. intros Ha Hb. induction a as [|x a IH]; [contradiction|].
  destruct a as [|y a].
  - destruct b; [contradiction|reflexivity].
  - change (String.concat sep ((x :: y :: a) ++ b))
      with (x +:+ sep +:+ String.concat sep ((y :: a) ++ b)).
    rewrite IH by discriminate.
    change (String.concat sep (x :: y :: a))
      with (x +:+ sep +:+ String.concat sep (y :: a)).
    now rewrite !string_app_assoc.
Qed.

(** Joining joined pieces is joining their concatenation. *)
Lemma join_concat (sep : string) (pieces : list (list string)) :
  Forall (fun p => p <> []) pieces ->
  join sep (map (join sep) pieces) = join sep (concat pieces).
Proof.
  induction pieces as [|p ps IH]; intros Hp; [reflexivity|].
  apply Forall_cons_1 in Hp as [Hp Hps]. specialize (IH Hps).
  destruct ps as [|p' ps].
  - simpl. now rewrite app_nil_r.
  - change (join sep (map (join sep) (p :: p' :: ps)))
      with (join sep p +:+ sep +:+ join sep (map (join sep) (p' :: ps))).
    rewrite IH. simpl concat.
    rewrite (join_app sep p (p' ++ concat ps)); [reflexivity|exact Hp|].
    apply Forall_cons_1 in Hps as [Hp' _]. destruct p'; [contradiction|discriminate].
Qed.

Lemma concat_windows (words : list string) (size : Z) (m a : nat) :
  0 < size ->
  concat (map (fun k : nat => slice words (Z.of_nat k * size) (Z.of_nat k * size + size))
              (seq a m))
  = slice words (Z.of_nat a * size) (Z.of_nat (a + m) * size).
Proof.
  intros Hs. revert a. induction m as [|m IH]; intros a; simpl.
  - rewrite Nat.add_0_r. rewrite slice_nonneg by lia.
    now rewrite Z.sub_diag, take_0.
  - rewrite IH.
    replace (Z.of_nat a * size + size) with (Z.of_nat (S a) * size) by lia.
    rewrite slice_app by nia. f_equal. lia.
Qed.

End ChunkShape.

(** X1.  A text without a visible character (empty, or whitespace only)
    gives no chunk at all, for every chunk size and overlap that differ. *)
Theorem create_chunks_blank_text (text : string) (chunk_size overlap : Z) :
  has_nonspace text = false -> chunk_size <> overlap ->
  create_chunks text chunk_size overlap = Return [].
Proof.
  intros Hblank Hne. unfold create_chunks, split.
  rewrite split_from_blank by assumption. simpl.
  destruct (Z.lt_total (chunk_size - overlap) 0) as [Hneg|[Hz|Hpos]]; [|lia|].
  - unfold len. simpl. now rewrite range_negative_step by lia.
  - unfold len. simpl. rewrite range_positive_step by lia.
    rewrite Z.div_small by lia. reflexivity.
Qed.

Lemma create_chunks_blank_text_witness :
  create_chunks "   " 1000 200 = Return [].
Proof. apply (create_chunks_blank_text "   " 1000 200); [reflexivity|lia]. Defined.

(** X2.  The content of a chunk is its words joined by single spaces and
    nothing else: splitting the content again gives exactly the words
    [words[start_pos : start_pos + chunk_size]] of the text, and for a
    positive chunk size their number is [end_pos - start_pos]. *)
Theorem chunk_content_round_trip (text : string) (chunk_size overlap : Z)
    (chunks : list TextChunk) (c : TextChunk) :
  create_chunks text chunk_size overlap = Return chunks -> c ∈ chunks ->
  split (content c) = slice (split text) (start_pos c) (start_pos c + chunk_size)
  /\ (0 < chunk_size -> len (split (content c)) = end_pos c - start_pos c).
Proof.
  intros Hrun Hc. apply create_chunks_shape in Hrun.
  rewrite Forall_forall in Hrun. destruct (Hrun c Hc) as (i & Hi & ->). simpl.
  assert (Hsplit : split (join " " (slice (split text) i (i + chunk_size)))
                   = slice (split text) i (i + chunk_size)).
  { apply split_join, slice_words, split_words. }
  split; [exact Hsplit|]. intros Hsize. rewrite Hsplit.
  rewrite length_slice_nonneg by lia. lia.
Qed.

Lemma chunk_content_round_trip_witness :
  split "d e f g" = slice (split "a b c d e f g h i j") 3 (3 + 4)
  /\ (0 < 4 -> len (split "d e f g") = 7 - 3).
Proof.
  apply (chunk_content_round_trip "a b c d e f g h i j" 4 1
           [ {| content := "a b c d"; start_pos := 0; end_pos := 4 |};
             {| content := "d e f g"; start_pos := 3; end_pos := 7 |};
             {| content := "g h i j"; start_pos := 6; end_pos := 10 |};
             {| content := "j"; start_pos := 9; end_pos := 10 |} ]
           {| content := "d e f g"; start_pos := 3; end_pos := 7 |}).
  - vm_compute. reflexivity.
  - right. left.
Defined.

(** X3.  Without overlap the chunks partition the text: their contents,
    joined by single spaces in order, are the words of the text joined by
    single spaces. *)
Theorem zero_overlap_partition (text : string) (chunk_size : Z)
    (chunks : list TextChunk) :
  0 < chunk_size ->
  create_chunks text chunk_size 0 = Return chunks ->
  join " " (map content chunks) = join " " (split text).
Proof.
  intros Hsize. rewrite create_chunks_windows by lia. intros [= <-].
  rewrite Z.sub_0_r, map_map. simpl.
  set (words := split text).
  set (m := Z.to_nat ((len words + chunk_size - 1) / chunk_size)).
  pose proof (len_nonneg words) as Hn.
  assert (Hm : forall k : nat, (k < m)%nat <-> Z.of_nat k * chunk_size < len words).
  { intros k. apply window_count_spec; lia. }
  rewrite <- (map_map (fun k : nat =>
                         slice words (Z.of_nat k * chunk_size)
                               (Z.of_nat k * chunk_size + chunk_size))
                      (join " ")).
  rewrite join_concat.
  - rewrite concat_windows by lia. simpl. f_equal. apply slice_whole.
    destruct (Z.le_gt_cases (len words) (Z.of_nat m * chunk_size)) as [?|Hlt];
      [assumption|].
    apply Hm in Hlt. lia.
  - apply Forall_forall. intros p Hp.
    apply list_elem_of_In, in_map_iff in Hp as [k [<- Hk]]. apply in_seq in Hk.
    assert (Hk' : Z.of_nat k * chunk_size < len words) by (apply Hm; lia).
    intros Hnil.
    assert (Hlen : len (slice words (Z.of_nat k * chunk_size)
                              (Z.of_nat k * chunk_size + chunk_size)) = 0)
      by now rewrite Hnil.
    rewrite length_slice_nonneg in Hlen by lia. lia.
Qed.

Lemma zero_overlap_partition_witness :
  join " " (map content
              [ {| content := "a b c"; start_pos := 0; end_pos := 3 |};
                {| content := "d e f"; start_pos := 3; end_pos := 6 |};
                {| content := "g"; start_pos := 6; end_pos := 7 |} ])
  = join " " (split "  a b   c d e f g ").
Proof.
  apply (zero_overlap_partition "  a b   c d e f g " 3); [lia|].
  vm_compute. reflexivity.
Defined.

(** X4.  For [0 <= overlap < chunk_size] the number of chunks is the
    number of words divided by the stride, rounded up; so a text of at
    most [chunk_size - overlap] words (and at least one) is a single
    chunk that holds all its words. *)
Theorem chunk_count (text : string) (chunk_size overlap : Z)
    (chunks : list TextChunk) :
  0 <= overlap < chunk_size ->
  create_chunks text chunk_size overlap = Return chunks ->
  len chunks = (len (split text) + (chunk_size - overlap) - 1) / (chunk_size - overlap)
  /\ (0 < len (split text) <= chunk_size - overlap ->
      chunks = [ {| content := join " " (split text);
                    start_pos := 0;
                    end_pos := len (split text) |} ]).
Proof.
  intros H. rewrite create_chunks_windows by assumption. intros [= <-].
  pose proof (len_nonneg (split text)) as Hn.
  split.
  - unfold len at 1. rewrite length_map, length_seq.
    rewrite Z2Nat.id; [reflexivity|]. apply Z.div_pos; lia.
  - intros Hshort.
    replace ((len (split text) + (chunk_size - overlap) - 1) / (chunk_size - overlap))
      with 1.
    + simpl. unfold window_at. simpl.
      rewrite slice_whole by lia. repeat f_equal. lia.
    + apply Z.div_unique with (r := len (split text) - 1); lia.
Qed.

Lemma chunk_count_witness :
  len [ {| content := "alpha beta gamma"; start_pos := 0; end_pos := 3 |} ]
  = (len (split "alpha beta gamma") + (1000 - 200) - 1) / (1000 - 200)
  /\ (0 < len (split "alpha beta gamma") <= 1000 - 200 ->
      [ {| content := "alpha beta gamma"; start_pos := 0; end_pos := 3 |} ]
      = [ {| content := join " " (split "alpha beta gamma");
             start_pos := 0;
             end_pos := len (split "alpha beta gamma") |} ]).
Proof.
  apply (chunk_count "alpha beta gamma" 1000 200); [lia|]. vm_compute. reflexivity.
Defined.

(** ** Text normalisation: [_clean_text] *)

Section CleanFacts.

Import Shape CleanLoops DocumentProcessor.

Lemma fold_clean_keep (lines acc : list string) :
  fold_left clean_keep lines acc = rev (keep (last_truthy acc) lines) ++ acc.
Proof.
  revert acc. induction lines as [|l ls IH]; intros acc; [reflexivity|].
  cbn [fold_left keep]. rewrite IH. unfold clean_keep.
  change (match acc with [] => false | last :: _ => truthy last end)
    with (last_truthy acc).
  destruct (truthy (strip l) || last_truthy acc); [|reflexivity].
  cbn [last_truthy rev]. now rewrite <- app_assoc.
Qed.

Lemma fold_clean_squeeze (lines acc : list string) (prev_empty : bool) :
  fst (fold_left clean_squeeze lines (acc, prev_empty))
  = rev (squeeze prev_empty lines) ++ acc.
Proof.
  revert acc prev_empty. induction lines as [|l ls IH]; intros acc pe; [reflexivity|].
  cbn [fold_left squeeze]. unfold clean_squeeze at 2.
  destruct (negb (truthy l)); [destruct (negb pe)|]; rewrite IH;
    cbn [rev]; now rewrite <- ?app_assoc.
Qed.

(** [_clean_text] through the two loops. *)
Lemma clean_text_loops (text : string) :
  _clean_text (Some text)
  = if negb (truthy text) then ""
    else join nl (squeeze false (keep false (split_lines text))).
Proof.
  unfold _clean_text. destruct (negb (truthy text)); [reflexivity|].
  rewrite fold_clean_keep, app_nil_r, rev_involutive.
  rewrite fold_clean_squeeze, app_nil_r, rev_involutive. reflexivity.
Qed.

(** *** [strip] *)

Lemma no_newline_lstrip (s : string) : no_newline s = true -> no_newline (lstrip s) = true.
Proof.
  induction s as [|c s IH]; simpl; [trivial|]. intros H.
  apply andb_true_iff in H as [Hc Hs].
  destruct (isspace c); [now apply IH|]. simpl. now rewrite Hc, Hs.
Qed.

Lemma no_newline_rstrip (s : string) : no_newline s = true -> no_newline (rstrip s) = true.
Proof.
  induction s as [|c s IH]; simpl; [trivial|]. intros H.
  apply andb_true_iff in H as [Hc Hs].
  destruct (isspace c && String.eqb (rstrip s) ""); [reflexivity|].
  simpl. now rewrite Hc, IH.
Qed.

Lemma head_ok_lstrip (s : string) : head_ok (lstrip s) = true.
Proof.
  induction s as [|c s IH]; simpl; [reflexivity|].
  destruct (isspace c) eqn:E; [exact IH|]. simpl. now rewrite E.
Qed.

Lemma head_ok_rstrip (s : string) : head_ok s = true -> head_ok (rstrip s) = true.
Proof.
  destruct s as [|c s]; simpl; [trivial|]. intros H.
  destruct (isspace c && String.eqb (rstrip s) ""); [reflexivity|exact H].
Qed.

Lemma last_ok_rstrip (s : string) : last_ok (rstrip s) = true.
Proof.
  induction s as [|c s IH]; simpl; [reflexivity|].
  destruct (isspace c) eqn:E; simpl.
  - destruct (String.eqb_spec (rstrip s) "") as [Heq|Hne]; [reflexivity|].
    destruct (rstrip s) as [|d r]; [contradiction|exact IH].
  - destruct (rstrip s) as [|d r]; [simpl; now rewrite E|exact IH].
Qed.

Lemma lstrip_head_ok (s : string) : head_ok s = true -> lstrip s = s.
Proof.
  destruct s as [|c s]; simpl; [trivial|]. intros H.
  apply negb_true_iff in H. now rewrite H.
Qed.

Lemma rstrip_last_ok (s : string) : last_ok s = true -> rstrip s = s.
Proof.
  induction s as [|c s IH]; [trivial|]. intros H.
  destruct s as [|d s].
  - simpl in *. apply negb_true_iff in H. now rewrite H.
  - change (last_ok (String c (String d s))) with (last_ok (String d s)) in H.
    specialize (IH H).
    change (rstrip (String c (String d s)))
      with (if isspace c && String.eqb (rstrip (String d s)) "" then EmptyString
            else String c (rstrip (String d s))).
    rewrite IH. simpl. now rewrite andb_false_r.
Qed.

(** [strip] leaves a string without whitespace at its ends, and such a
    string it leaves alone. *)
Lemma strip_ends (s : string) :
  head_ok (strip s) = true /\ last_ok (strip s) = true.
Proof.
  unfold strip. split; [apply head_ok_rstrip, head_ok_lstrip|apply last_ok_rstrip].
Qed.

Lemma strip_fixed (s : string) : head_ok s = true -> last_ok s = true -> strip s = s.
Proof.
  intros Hh Hl. unfold strip. rewrite lstrip_head_ok by assumption.
  now apply rstrip_last_ok.
Qed.

Lemma has_nonspace_rstrip (s : string) : has_nonspace (rstrip s) = has_nonspace s.
Proof.
  induction s as [|c s IH]; simpl; [reflexivity|].
  destruct (isspace c) eqn:E; simpl.
  - destruct (String.eqb (rstrip s) "") eqn:Hr; simpl.
    + pose proof (truthy_rstrip s) as Ht. unfold truthy in Ht. rewrite Hr in Ht.
      simpl in Ht. now rewrite <- Ht.
    + now rewrite E, IH.
  - now rewrite E.
Qed.

Lemma has_nonspace_strip (s : string) : has_nonspace (strip s) = has_nonspace s.
Proof. unfold strip. now rewrite has_nonspace_rstrip, has_nonspace_lstrip. Qed.

Lemma truthy_false (s : string) : truthy s = false -> s = "".
Proof.
  unfold truthy. intros H. apply negb_false_iff in H.
  now apply String.eqb_eq in H.
Qed.

End CleanFacts.

Section LineFacts.

Import Shape CleanLoops DocumentProcessor.

Lemma no_newline_app (a b : string) :
  no_newline (a +:+ b) = no_newline a && no_newline b.
Proof.
  induction a as [|c a IH]; simpl; [reflexivity|]. rewrite IH. apply andb_assoc.
Qed.

Lemma split_lines_no_newline (s cur : string) :
  no_newline cur = true -> Forall (fun l => no_newline l = true) (split_lines_from cur s).
Proof.
  revert cur. induction s as [|c s IH]; intros cur Hcur; simpl.
  - repeat constructor. exact Hcur.
  - destruct (Ascii.eqb c (ascii_of_nat 10)) eqn:E.
    + constructor; [exact Hcur|]. now apply IH.
    + apply IH. rewrite no_newline_app, Hcur. simpl. now rewrite E.
Qed.

Lemma split_lines_line (l rest cur : string) :
  no_newline l = true ->
  split_lines_from cur (l +:+ rest) = split_lines_from (cur +:+ l) rest.
Proof.
  revert cur. induction l as [|c l IH]; intros cur Hl.
  - now rewrite string_app_nil_r.
  - simpl in Hl. apply andb_true_iff in Hl as [Hc Hl]. apply negb_true_iff in Hc.
    change (split_lines_from cur (String c l +:+ rest))
      with (if Ascii.eqb c (ascii_of_nat 10)
            then cur :: split_lines_from "" (l +:+ rest)
            else split_lines_from (cur +:+ String c "") (l +:+ rest)).
    rewrite Hc, IH by assumption. now rewrite string_app_assoc.
Qed.

(** Lines joined by line feeds split into the same lines. *)
Lemma split_lines_join (lines : list string) :
  lines <> [] -> Forall (fun l => no_newline l = true) lines ->
  split_lines (join nl lines) = lines.
Proof.
  unfold split_lines, join. induction lines as [|l ls IH]; intros Hne Hall;
    [contradiction|].
  apply Forall_cons_1 in Hall as [Hl Hls].
  destruct ls as [|l' ls].
  - simpl. rewrite <- (string_app_nil_r l) at 1.
    rewrite split_lines_line by assumption. reflexivity.
  - change (String.concat nl (l :: l' :: ls))
      with (l +:+ nl +:+ String.concat nl (l' :: ls)).
    rewrite split_lines_line by assumption. change ("" +:+ l) with l.
    change (split_lines_from l (nl +:+ String.concat nl (l' :: ls)))
      with (l :: split_lines_from "" (String.concat nl (l' :: ls))).
    rewrite IH; [reflexivity|discriminate|assumption].
Qed.

Lemma has_nonspace_join_nl (lines : list string) :
  has_nonspace (join nl lines) = existsb has_nonspace lines.
Proof.
  unfold join. induction lines as [|l ls IH]; [reflexivity|].
  destruct ls as [|l' ls].
  - simpl. now rewrite orb_false_r.
  - change (String.concat nl (l :: l' :: ls))
      with (l +:+ nl +:+ String.concat nl (l' :: ls)).
    rewrite !has_nonspace_app, IH. reflexivity.
Qed.

Lemma has_nonspace_split_lines (s cur : string) :
  existsb has_nonspace (split_lines_from cur s) = has_nonspace cur || has_nonspace s.
Proof.
  revert cur. induction s as [|c s IH]; intros cur; simpl.
  - now rewrite orb_false_r.
  - destruct (Ascii.eqb_spec c (ascii_of_nat 10)) as [->|Hne].
    + simpl. now rewrite IH.
    + rewrite IH, has_nonspace_app. simpl. now rewrite orb_false_r, orb_assoc.
Qed.

Lemma has_nonspace_keep (lines : list string) (prev : bool) :
  existsb has_nonspace (keep prev lines) = existsb has_nonspace lines.
Proof.
  revert prev. induction lines as [|l ls IH]; intros prev; simpl; [reflexivity|].
  destruct (truthy (strip l)) eqn:E; simpl.
  - now rewrite IH, has_nonspace_strip.
  - rewrite truthy_strip in E. rewrite E. simpl.
    destruct prev; simpl; rewrite IH; [|reflexivity].
    now rewrite has_nonspace_strip, E.
Qed.

Lemma has_nonspace_squeeze (lines : list string) (prev_empty : bool) :
  existsb has_nonspace (squeeze prev_empty lines) = existsb has_nonspace lines.
Proof.
  revert prev_empty. induction lines as [|l ls IH]; intros pe; simpl; [reflexivity|].
  destruct (truthy l) eqn:E; simpl; [now rewrite IH|].
  apply truthy_false in E. subst l. simpl.
  destruct pe; simpl; now rewrite IH.
Qed.

(** The first loop leaves tidy lines. *)
Lemma keep_tidy (lines : list string) (prev : bool) :
  Forall (fun l => no_newline l = true) lines -> tidy prev (keep prev lines) = true.
Proof.
  revert prev. induction lines as [|l ls IH]; intros prev Hall; simpl; [reflexivity|].
  apply Forall_cons_1 in Hall as [Hl Hls].
  destruct (truthy (strip l) || prev) eqn:E; [|now apply IH].
  simpl. destruct (strip_ends l) as [Hh Ht]. rewrite Hh, Ht, E, IH by assumption.
  unfold strip. now rewrite no_newline_rstrip by now apply no_newline_lstrip.
Qed.

(** On tidy lines neither loop does anything. *)
Lemma keep_fixed (lines : list string) (prev : bool) :
  tidy prev lines = true -> keep prev lines = lines.
Proof.
  revert prev. induction lines as [|l ls IH]; intros prev H; simpl; [reflexivity|].
  simpl in H. repeat (apply andb_true_iff in H as [H ?]).
  rewrite strip_fixed by assumption.
  match goal with Hk : truthy l || prev = true |- _ => rewrite Hk end.
  now rewrite IH.
Qed.

Lemma squeeze_fixed (lines : list string) (prev prev_empty : bool) :
  (prev = true -> prev_empty = false) ->
  tidy prev lines = true -> squeeze prev_empty lines = lines.
Proof.
  revert prev prev_empty. induction lines as [|l ls IH]; intros prev pe Hinv H; simpl;
    [reflexivity|].
  simpl in H. repeat (apply andb_true_iff in H as [H ?]).
  destruct (truthy l) eqn:E; simpl.
  - f_equal. apply (IH true); [trivial|assumption].
  - match goal with Hk : false || prev = true |- _ => simpl in Hk; subst prev end.
    rewrite Hinv by reflexivity. simpl. f_equal.
    apply (IH false); [discriminate|assumption].
Qed.

Lemma tidy_first (lines : list string) :
  tidy false lines = true -> lines <> [] -> truthy (join nl lines) = true.
Proof.
  destruct lines as [|l ls]; [contradiction|]. intros H _. simpl in H.
  repeat (apply andb_true_iff in H as [H ?]).
  match goal with Hk : truthy l || false = true |- _ =>
    rewrite orb_false_r in Hk; rename Hk into Hl end.
  unfold truthy in *. apply negb_true_iff. apply negb_true_iff in Hl.
  apply String.eqb_neq. apply String.eqb_neq in Hl. unfold join.
  destruct ls; simpl; [exact Hl|]. intros Heq.
  apply string_app_eq_nil in Heq as [Heq _]. contradiction.
Qed.

Lemma tidy_no_newline (lines : list string) (prev : bool) :
  tidy prev lines = true -> Forall (fun l => no_newline l = true) lines.
Proof.
  revert prev. induction lines as [|l ls IH]; intros prev H; [constructor|].
  simpl in H. repeat (apply andb_true_iff in H as [H ?]).
  constructor; [assumption|]. eapply IH. eassumption.
Qed.

(** What [_clean_text] returns: nothing, or tidy lines joined. *)
Lemma clean_text_lines (text : string) :
  exists lines,
    _clean_text (Some text) = join nl lines /\ tidy false lines = true.
Proof.
  rewrite clean_text_loops. destruct (negb (truthy text)).
  - exists []. split; reflexivity.
  - set (kept := keep false (split_lines text)).
    assert (Hk : tidy false kept = true).
    { apply keep_tidy, split_lines_no_newline. reflexivity. }
    exists kept. split; [|exact Hk].
    rewrite (squeeze_fixed kept false false); [reflexivity|discriminate|exact Hk].
Qed.

End LineFacts.

Lemma clean_text_has_nonspace (text : string) :
  has_nonspace (DocumentProcessor._clean_text (Some text)) = has_nonspace text.
Proof.
  rewrite clean_text_loops.
  destruct (truthy text) eqn:E; simpl.
  - rewrite has_nonspace_join_nl, has_nonspace_squeeze, has_nonspace_keep.
    unfold split_lines. now rewrite has_nonspace_split_lines.
  - apply truthy_false in E. now subst text.
Qed.

(** X5.  Cleaning keeps a text visible or blank as it was: the test
    [content.strip()] that [process_document] makes on the cleaned text
    succeeds exactly when the raw text has a character that is not
    whitespace. *)
Theorem clean_text_visible (text : string) :
  truthy (strip (DocumentProcessor._clean_text (Some text))) = has_nonspace text.
Proof. rewrite truthy_strip. apply clean_text_has_nonspace. Qed.

(** X6.  The cleaned text is empty, or its lines are tidy: no line starts
    or ends with whitespace, the first line is not empty, and no two empty
    lines follow each other. *)
Theorem clean_text_tidy (text : string) :
  DocumentProcessor._clean_text (Some text) = ""
  \/ Shape.tidy false (split_lines (DocumentProcessor._clean_text (Some text))) = true.
Proof.
  destruct (clean_text_lines text) as (lines & -> & Htidy).
  destruct lines as [|l ls]; [now left|right].
  rewrite split_lines_join; [exact Htidy|discriminate|].
  eapply tidy_no_newline. exact Htidy.
Qed.

(** X7.  Cleaning is idempotent: cleaning a cleaned text changes
    nothing. *)
Theorem clean_text_idempotent (text : string) :
  DocumentProcessor._clean_text (Some (DocumentProcessor._clean_text (Some text)))
  = DocumentProcessor._clean_text (Some text).
Proof.
  destruct (clean_text_lines text) as (lines & -> & Htidy).
  destruct lines as [|l ls]; [reflexivity|].
  rewrite clean_text_loops.
  rewrite (tidy_first (l :: ls)) by (assumption || discriminate). simpl negb.
  cbv iota.
  rewrite split_lines_join; [|discriminate|eapply tidy_no_newline; exact Htidy].
  rewrite keep_fixed by assumption.
  rewrite (squeeze_fixed (l :: ls) false false); [reflexivity|discriminate|exact Htidy].
Qed.

(** A text with stray blanks and runs of empty lines, cleaned. *)
Example clean_text_sample :
  DocumentProcessor._clean_text
    (Some (nl +:+ "  Lease  " +:+ nl +:+ nl +:+ "  " +:+ nl +:+ nl +:+ " term: 5 years"
           +:+ nl))
  = "Lease" +:+ nl +:+ nl +:+ "term: 5 years" +:+ nl.
Proof. vm_compute. reflexivity. Qed.

(** ** What [process_document] returns *)

Section ProcessReturns.

Import DocumentProcessor.

Variable env : DocumentProcessor.Env.
Variable file_path : string.

(** A document that leaves the loop was built from what one of the
    processors tried returned, and that text is not blank. *)
Lemma try_processors_returns (todo : list processor) (last : option exn)
    (d : Document) :
  try_processors env file_path todo last = Return d ->
  exists name f content metadata,
    (name, f) ∈ todo
    /\ f env file_path = Return (content, metadata)
    /\ truthy (strip content) = true
    /\ d = build_document env file_path name content metadata.
Proof.
  revert last. induction todo as [|[n g] todo IH]; intros last; simpl; [discriminate|].
  destruct (g env file_path) as [[c m]|e] eqn:Hg.
  - destruct (truthy (strip c)) eqn:Hc.
    + intros [= <-]. exists n, g, c, m. repeat split; [now left|assumption..].
    + intros H. apply IH in H as (n' & f & c' & m' & Hin & H).
      exists n', f, c', m'. split; [now right|exact H].
  - intros H. apply IH in H as (n' & f & c' & m' & Hin & H).
    exists n', f, c', m'. split; [now right|exact H].
Qed.

End ProcessReturns.

(** A text that is not blank has at least one word. *)
Lemma words_of_visible_text (text : string) :
  has_nonspace text = true -> 1 <= len (split text).
Proof.
  intros H. pose proof (split_from_nonblank text "" H) as Hne.
  unfold split, len. destruct (split_from "" text); [contradiction|simpl; lia].
Qed.

(** X8.  A document that [process_document] returns comes from a file that
    is supported and exists; its content is the text that one of the
    registered processors returned, is not blank and has at least one
    word; its markdown content is the same text; its title is the file's
    stem; and its id is the digest of the path followed by the
    modification time, whichever processor produced the text. *)
Theorem process_document_returns (env : DocumentProcessor.Env) (file_path : string)
    (d : Document) :
  DocumentProcessor.process_document env file_path = Return d ->
  DocumentProcessor.supports_file env file_path = true
  /\ DocumentProcessor.path_exists env file_path = true
  /\ has_nonspace (doc_content d) = true
  /\ 1 <= word_count d
  /\ markdown_content d = doc_content d
  /\ doc_title d = DocumentProcessor.path_stem env file_path
  /\ doc_id d
     = DocumentProcessor.md5_hexdigest env
         (file_path +:+ DocumentProcessor.str_float env
                          (DocumentProcessor.st_mtime env file_path))
  /\ exists name f metadata,
       (name, f) ∈ DocumentProcessor.processors env
       /\ f env file_path = Return (doc_content d, metadata).
Proof.
  unfold DocumentProcessor.process_document.
  destruct (DocumentProcessor.supports_file env file_path); simpl; [|discriminate].
  destruct (DocumentProcessor.path_exists env file_path); simpl; [|discriminate].
  intros H.
  apply try_processors_returns in H as (name & f & content & metadata & Hin & Hf & Hc & ->).
  rewrite truthy_strip in Hc. simpl.
  repeat split; try assumption.
  - unfold word_count. simpl. now apply words_of_visible_text.
  - exists name, f, metadata. split; assumption.
Qed.

Lemma process_document_returns_witness :
  has_nonspace (doc_content Samples.notes_document) = true
  /\ 1 <= word_count Samples.notes_document
  /\ doc_id Samples.notes_document = "md5:notes.txt1.0".
Proof.
  destruct (process_document_returns Samples.files "notes.txt" Samples.notes_document)
    as (_ & _ & Hv & Hw & _ & _ & Hid & _); [vm_compute; reflexivity|].
  split; [exact Hv|]. split; [exact Hw|exact Hid].
Defined.

(** X9.  With neither optional converter installed, a supported, existing
    file goes through the plain text converter alone.  Its text is read as
    utf-8, or as latin-1 when the utf-8 read fails with a decode error.
    If the text has a visible character the document holds the cleaned
    text and names the processor [text], and its metadata say [utf-8]
    also after the latin-1 read; if the text is blank the call fails with
    the aggregated error, which then has no exception to quote. *)
Theorem plain_text_file (env : DocumentProcessor.Env) (file_path text : string) :
  DocumentProcessor.HAS_MARKITDOWN env = false ->
  DocumentProcessor.HAS_DOCX env = false ->
  DocumentProcessor.supports_file env file_path = true ->
  DocumentProcessor.path_exists env file_path = true ->
  (DocumentProcessor.read_utf8 env file_path = Return text
   \/ exists e, DocumentProcessor.read_utf8 env file_path = Raise e
                /\ exn_type e = UnicodeDecodeError
                /\ DocumentProcessor.read_latin1 env file_path = Return text) ->
  if has_nonspace text
  then exists d,
         DocumentProcessor.process_document env file_path = Return d
         /\ doc_content d = DocumentProcessor._clean_text (Some text)
         /\ doc_metadata d !! "processor_used" = Some (VStr "text")
         /\ doc_metadata d !! "encoding" = Some (VStr "utf-8")
  else DocumentProcessor.process_document env file_path
       = Raise (mkExn Exception
                  ("All processors failed for " +:+ file_path +:+ ". Last error: None")).
Proof.
  intros Hmk Hdx Hsup Hex Hread.
  assert (Hconv : DocumentProcessor._process_with_text env file_path
                  = Return (DocumentProcessor._clean_text (Some text),
                            <["encoding" := VStr "utf-8"]>
                              (<["processor" := VStr "text"]> ∅))).
  { unfold DocumentProcessor._process_with_text.
    assert (Hsuffix : String.eqb (lower (DocumentProcessor.path_suffix env file_path)) ".txt"
                      || String.eqb (lower (DocumentProcessor.path_suffix env file_path)) ".md"
                      = true).
    { pose proof Hsup as Hin.
      unfold DocumentProcessor.supports_file, DocumentProcessor.supported_extensions in Hin.
      rewrite Hmk, Hdx in Hin. apply bool_decide_eq_true in Hin.
      assert (Hcases : lower (DocumentProcessor.path_suffix env file_path) = ".txt"
                       \/ lower (DocumentProcessor.path_suffix env file_path) = ".md").
      { set_unfold in Hin. tauto. }
      destruct Hcases as [-> | ->]; reflexivity. }
    rewrite Hsuffix. simpl.
    destruct Hread as [->|(e & -> & -> & ->)]; reflexivity. }
  unfold DocumentProcessor.process_document, DocumentProcessor.processors.
  rewrite Hsup, Hex, Hmk, Hdx. simpl. rewrite Hconv.
  rewrite truthy_strip, clean_text_has_nonspace.
  destruct (has_nonspace text); [|reflexivity].
  eexists. split; [reflexivity|]. split; [reflexivity|]. split; reflexivity.
Qed.

Lemma plain_text_file_witness :
  exists d,
    DocumentProcessor.process_document (Cases.plain "  Rent is due.  ") "memo.MD"
    = Return d
    /\ doc_content d = DocumentProcessor._clean_text (Some "  Rent is due.  ")
    /\ doc_metadata d !! "processor_used" = Some (VStr "text")
    /\ doc_metadata d !! "encoding" = Some (VStr "utf-8").
Proof.
  apply (plain_text_file (Cases.plain "  Rent is due.  ") "memo.MD" "  Rent is due.  ");
    try reflexivity.
  right. eexists. repeat split.
Defined.

(** ** More on the vector store *)

Section StoreHealthy.

Import VectorStore.

Variable env : VectorStore.Env.
Variable document : Document.
Variable filename : string.

Hypothesis encoder_answers : forall s, exists embedding, encode env s = Return embedding.
Hypothesis index_accepts : forall c e, add_error env c e = None.
Hypothesis file_named : file_name env document = Return filename.

(** With the collaborators answering, a chunk whose id is new is added
    with its text, the document's id and title and the file name. *)
Lemma add_chunk_healthy (c : Collection) (i : nat) (chunk : TextChunk) :
  chunk_id document i ∉ ids c ->
  exists e, add_chunk env document c i chunk = (c ++ [e], Return tt)
            /\ entry_id e = chunk_id document i
            /\ entry_document e = content chunk
            /\ entry_metadata e !! "doc_id" = Some (doc_id document)
            /\ entry_metadata e !! "document_title" = Some (doc_title document)
            /\ entry_metadata e !! "filename" = Some filename.
Proof.
  intros Hout. unfold add_chunk, collection_get.
  apply filter_eqb_nil in Hout. rewrite Hout.
  destruct (encoder_answers (content chunk)) as [embedding Henc].
  destruct (get_absent env (chunk_id document i)); simpl; rewrite Henc, file_named;
    unfold collection_add; rewrite index_accepts;
    (eexists; split; [reflexivity|]; repeat split).
Qed.

Lemma add_chunks_healthy (chunks : list TextChunk) (i : nat) (c : Collection) :
  (forall j : nat, (i <= j)%nat -> chunk_id document j ∉ ids c) ->
  exists added,
    add_chunks env document c i chunks = (c ++ added, Return tt)
    /\ map entry_id added = map (chunk_id document) (seq i (length chunks))
    /\ map entry_document added = map content chunks
    /\ Forall (fun e => entry_metadata e !! "doc_id" = Some (doc_id document)
                        /\ entry_metadata e !! "document_title"
                           = Some (doc_title document)
                        /\ entry_metadata e !! "filename" = Some filename) added.
Proof.
  revert i c. induction chunks as [|chunk chunks IH]; intros i c Hfresh; simpl.
  - exists []. rewrite app_nil_r. repeat split; constructor.
  - destruct (add_chunk_healthy c i chunk (Hfresh i (le_n i)))
      as (e & -> & Hid & Hdoc & Hm1 & Hm2 & Hm3).
    destruct (IH (S i) (c ++ [e])) as (added & -> & Hids & Hdocs & Hmeta).
    + intros j Hj. unfold ids. rewrite map_app. simpl. intros Hin.
      apply elem_of_app in Hin as [Hin|Hin].
      * apply (Hfresh j); [lia|exact Hin].
      * apply list_elem_of_singleton in Hin. rewrite Hid in Hin.
        apply chunk_id_inj in Hin. lia.
    + exists (e :: added). rewrite <- app_assoc. simpl.
      rewrite Hid, Hdoc, Hids, Hdocs. repeat split. constructor; auto.
Qed.

End StoreHealthy.

(** A chunk of a document whose [file_name] raises is never added. *)
Lemma add_chunk_unnamed (env : VectorStore.Env) (document : Document)
    (c : VectorStore.Collection) (i : nat) (chunk : TextChunk) (err : exn) :
  VectorStore.file_name env document = Raise err ->
  fst (VectorStore.add_chunk env document c i chunk) = c.
Proof.
  intros Hname. unfold VectorStore.add_chunk.
  destruct (match VectorStore.collection_get env c (VectorStore.chunk_id document i) with
            | Return found => negb (length found =? 0)%nat
            | Raise _ => false
            end); [reflexivity|].
  destruct (VectorStore.encode env (content chunk)); [|reflexivity].
  now rewrite Hname.
Qed.

Lemma add_chunks_unnamed (env : VectorStore.Env) (document : Document)
    (chunks : list TextChunk) (c : VectorStore.Collection) (i : nat) (err : exn) :
  VectorStore.file_name env document = Raise err ->
  fst (VectorStore.add_chunks env document c i chunks) = c.
Proof.
  intros Hname. revert i. induction chunks as [|chunk chunks IH]; intros i; simpl;
    [reflexivity|].
  pose proof (add_chunk_unnamed env document c i chunk err Hname) as Hc.
  destruct (VectorStore.add_chunk env document c i chunk) as [c' [[]|e]];
    simpl in Hc; subst c'; [apply IH|reflexivity].
Qed.

(** X10.  When the encoder and the index answer and the index holds none
    of the document's chunk ids, [add_document] appends one record per
    chunk, in order: the [i]-th carries the id [{document.id}_chunk_{i}],
    the text of the [i]-th chunk, and the document's id, title and file
    name; this for a document whose [source_path] is absent or a string.
    A document whose [source_path] is of another type is never indexed:
    [file_name] raises, and [add_document] returns with the index as it
    was, whatever the encoder and the index do. *)
Theorem add_document_indexes_all (env : VectorStore.Env)
    (settings : Config.AppSettings) (c : VectorStore.Collection)
    (document : Document) :
  (forall (chunks : list TextChunk) (filename : string),
      (forall s, exists embedding, VectorStore.encode env s = Return embedding) ->
      (forall c' e, VectorStore.add_error env c' e = None) ->
      (forall i : nat, VectorStore.chunk_id document i ∉ VectorStore.ids c) ->
      create_chunks (doc_content document) (Config.chunk_size settings)
                    (Config.chunk_overlap settings) = Return chunks ->
      VectorStore.file_name env document = Return filename ->
      exists added,
        fst (VectorStore.add_document env settings c document) = c ++ added
        /\ map VectorStore.entry_id added
           = map (VectorStore.chunk_id document) (seq 0 (length chunks))
        /\ map VectorStore.entry_document added = map content chunks
        /\ Forall (fun e =>
                     VectorStore.entry_metadata e !! "doc_id" = Some (doc_id document)
                     /\ VectorStore.entry_metadata e !! "document_title"
                        = Some (doc_title document)
                     /\ VectorStore.entry_metadata e !! "filename" = Some filename)
                  added)
  /\ (forall v : pyval,
        doc_metadata document !! "source_path" = Some v ->
        (forall p, v <> VStr p) ->
        VectorStore.add_document env settings c document = (c, Return tt)).
Proof.
  split.
  - intros chunks filename Henc Hadd Hfresh Hchunks Hname.
    rewrite add_document_outcome. simpl.
    unfold VectorStore.add_document_try. rewrite Hchunks.
    destruct (add_chunks_healthy env document filename Henc Hadd Hname chunks 0 c)
      as (added & -> & H); [intros j _; apply Hfresh|].
    exists added. split; [reflexivity|exact H].
  - intros v Hv Hnot.
    assert (Hname : exists err, VectorStore.file_name env document = Raise err).
    { unfold VectorStore.file_name. rewrite Hv.
      destruct v as [p| |]; [now destruct (Hnot p)| |]; eauto. }
    destruct Hname as [err Hname].
    rewrite add_document_outcome. f_equal.
    unfold VectorStore.add_document_try.
    destruct (create_chunks _ _ _) as [chunks|e]; [|reflexivity].
    now apply (add_chunks_unnamed env document chunks c 0 err).
Qed.

Lemma add_document_indexes_all_witness :
  (exists added,
     fst (VectorStore.add_document Samples.store
            {| Config.chunk_size := 2; Config.chunk_overlap := 0 |} []
            Samples.notes_document) = [] ++ added
     /\ map VectorStore.entry_document added = ["alpha beta"; "gamma"]
     /\ Forall (fun e => VectorStore.entry_metadata e !! "filename" = Some "notes.txt")
               added)
  /\ VectorStore.add_document Samples.store
       {| Config.chunk_size := 2; Config.chunk_overlap := 0 |} []
       (mkDocument "d1" "notes" "alpha beta gamma" "alpha beta gamma"
                   (<["source_path" := VInt 5]> ∅) Float.zero)
     = ([], Return tt).
Proof.
  split.
  - destruct (add_document_indexes_all Samples.store
                {| Config.chunk_size := 2; Config.chunk_overlap := 0 |} []
                Samples.notes_document) as [Hall _].
    destruct (Hall [ {| content := "alpha beta"; start_pos := 0; end_pos := 2 |};
                     {| content := "gamma"; start_pos := 2; end_pos := 3 |} ]
                   "notes.txt")
      as (added & Hrun & _ & Hdocs & Hmeta).
    + intros s. now exists [Float.one].
    + reflexivity.
    + intros i Hin. now apply elem_of_nil in Hin.
    + vm_compute. reflexivity.
    + reflexivity.
    + exists added. split; [exact Hrun|]. split; [exact Hdocs|].
      eapply Forall_impl; [exact Hmeta|]. intros e (_ & _ & H). exact H.
  - destruct (add_document_indexes_all Samples.store
                {| Config.chunk_size := 2; Config.chunk_overlap := 0 |} []
                (mkDocument "d1" "notes" "alpha beta gamma" "alpha beta gamma"
                            (<["source_path" := VInt 5]> ∅) Float.zero)) as [_ Hnone].
    apply (Hnone (VInt 5)); [reflexivity|discriminate].
Defined.

(** X11.  With [chunk_overlap >= chunk_size] nothing is ever indexed:
    [add_document] returns with the index as it was (the chunker gives no
    chunk, or its [ValueError] is swallowed), and the loop of
    [load_documents] still registers the document and records success. *)
Theorem overlap_not_below_size_indexes_nothing :
  (forall (env : VectorStore.Env) (settings : Config.AppSettings)
          (c : VectorStore.Collection) (document : Document),
      Config.chunk_size settings <= Config.chunk_overlap settings ->
      VectorStore.add_document env settings c document = (c, Return tt))
  /\ (forall (env : Core.Env) (settings : Config.AppSettings) (sys : Core.State)
             (results : gmap string string) (f : string) (document : Document),
      Config.chunk_size settings <= Config.chunk_overlap settings ->
      DocumentProcessor.process_document (Core.doc_env env) f = Return document ->
      Core.load_one env settings (sys, results) f
      = ({| Core.registry := <[doc_id document := document]> (Core.registry sys);
            Core.collection := Core.collection sys |},
         <[f := "[OK] Success: " +:+ str_int (word_count document) +:+ " words"]>
           results)).
Proof.
  assert (Hadd : forall (env : VectorStore.Env) (settings : Config.AppSettings)
                        (c : VectorStore.Collection) (document : Document),
             Config.chunk_size settings <= Config.chunk_overlap settings ->
             VectorStore.add_document env settings c document = (c, Return tt)).
  { intros env settings c document Hle.
    rewrite add_document_outcome. f_equal.
    unfold VectorStore.add_document_try, create_chunks.
    destruct (Z.eq_dec (Config.chunk_size settings) (Config.chunk_overlap settings))
      as [Heq|Hne].
    - rewrite Heq, Z.sub_diag, range_zero_step. reflexivity.
    - rewrite range_negative_step by (try apply len_nonneg; lia). reflexivity. }
  split; [exact Hadd|].
  intros env settings sys results f document Hle Hdoc.
  unfold Core.load_one. rewrite Hdoc, Hadd by assumption. reflexivity.
Qed.

Lemma overlap_not_below_size_indexes_nothing_witness :
  VectorStore.add_document Samples.store
    {| Config.chunk_size := 200; Config.chunk_overlap := 1000 |}
    [] Samples.notes_document = ([], Return tt).
Proof.
  destruct overlap_not_below_size_indexes_nothing as [Hadd _].
  apply Hadd. simpl. lia.
Defined.

Section HitsFacts.

Import VectorStore.

Lemma hits_ranks (docs : list string) (metas : list (gmap string string))
    (dists : list spec_float) (i : nat) :
  map rank (hits i docs metas dists)
  = map (fun k : nat => Z.of_nat k + 1) (seq i (length (hits i docs metas dists))).
Proof.
  revert metas dists i.
  induction docs as [|doc docs IH]; intros [|m metas] [|d dists] i; try reflexivity.
  simpl. f_equal. apply IH.
Qed.

Lemma hits_length (docs : list string) (metas : list (gmap string string))
    (dists : list spec_float) (i : nat) :
  length (hits i docs metas dists)
  = (length docs `min` (length metas `min` length dists))%nat.
Proof.
  revert metas dists i.
  induction docs as [|doc docs IH]; intros [|m metas] [|d dists] i; simpl;
    try reflexivity; try lia.
  now rewrite IH.
Qed.

Lemma hits_lookup (docs : list string) (metas : list (gmap string string))
    (dists : list spec_float) (i k : nat) (r : SearchResult) :
  hits i docs metas dists !! k = Some r ->
  exists doc metadata distance,
    docs !! k = Some doc /\ metas !! k = Some metadata /\ dists !! k = Some distance
    /\ sr_content r = doc
    /\ source r = default "Unknown" (metadata !! "filename")
    /\ sr_metadata r = metadata
    /\ score r = similarity_score distance
    /\ source_type r = DOCUMENT
    /\ rank r = Z.of_nat (i + k) + 1.
Proof.
  revert metas dists i k.
  induction docs as [|doc docs IH]; intros [|m metas] [|d dists] i k; simpl;
    try discriminate.
  destruct k as [|k]; simpl.
  - intros [= <-]. exists doc, m, d. rewrite Nat.add_0_r. repeat split.
  - intros H. apply IH in H as (doc' & m' & d' & H1 & H2 & H3 & H4 & H5 & H6 & H7 & H8 & H9).
    exists doc', m', d'. repeat split; try assumption. rewrite H9. f_equal. lia.
Qed.

End HitsFacts.

(** X12.  [VectorStore.search] always returns a list.  The list is empty
    when the encoder or the index query fails.  When the index answers,
    the list has one result per position that the document, metadata and
    distance lists all have; the result at position [k] has rank [k + 1],
    the document text at [k], the similarity of the distance at [k], the
    [filename] of the metadata as its source ([Unknown] without one), and
    the source type DOCUMENT. *)
Theorem vector_search_results (env : VectorStore.Env) (c : VectorStore.Collection)
    (q : string) (n : Z) :
  exists rs,
    VectorStore.search env c q n = Return rs
    /\ map rank rs = map (fun k : nat => Z.of_nat k + 1) (seq 0 (length rs))
    /\ ((exists e, VectorStore.encode env q = Raise e) -> rs = [])
    /\ (forall embedding,
          VectorStore.encode env q = Return embedding ->
          (exists e, VectorStore.query env c embedding n = Raise e) -> rs = [])
    /\ (forall embedding docs docs' metas metas' dists dists',
          VectorStore.encode env q = Return embedding ->
          VectorStore.query env c embedding n
          = Return {| VectorStore.documents := docs :: docs';
                      VectorStore.metadatas := metas :: metas';
                      VectorStore.distances := dists :: dists' |} ->
          length rs = (length docs `min` (length metas `min` length dists))%nat
          /\ forall (k : nat) r, rs !! k = Some r ->
               exists doc metadata distance,
                 docs !! k = Some doc /\ metas !! k = Some metadata
                 /\ dists !! k = Some distance
                 /\ sr_content r = doc
                 /\ source r = default "Unknown" (metadata !! "filename")
                 /\ score r = VectorStore.similarity_score distance
                 /\ source_type r = DOCUMENT
                 /\ rank r = Z.of_nat k + 1).
Proof.
  unfold VectorStore.search, VectorStore.search_try.
  destruct (VectorStore.encode env q) as [embedding|e]; simpl.
  2:{ exists []. repeat split; try discriminate; reflexivity. }
  destruct (VectorStore.query env c embedding n) as [res|e] eqn:Hq; simpl.
  2:{ exists []. split; [reflexivity|]. split; [reflexivity|]. split; [reflexivity|].
      split; [reflexivity|].
      intros emb docs docs' metas metas' dists dists' [= <-] Hq'.
      rewrite Hq in Hq'. discriminate. }
  destruct res as [documents metadatas distances]. simpl.
  assert (Hempty : forall rs : list SearchResult, rs = [] ->
            map rank rs = map (fun k : nat => Z.of_nat k + 1) (seq 0 (length rs)))
    by (intros rs ->; reflexivity).
  destruct documents as [|[|doc docs] docs'].
  - exists []. split; [reflexivity|]. split; [reflexivity|].
    split; [intros [e He]; discriminate|].
    split; [intros emb [= <-] [e He]; rewrite Hq in He; discriminate|].
    intros emb d d' m m' ds ds' [= <-] Hq'. rewrite Hq in Hq'. discriminate.
  - exists []. split; [reflexivity|]. split; [reflexivity|].
    split; [intros [e He]; discriminate|].
    split; [intros emb [= <-] [e He]; rewrite Hq in He; discriminate|].
    intros emb d d' m m' ds ds' [= <-] Hq'. rewrite Hq in Hq'.
    inversion Hq'; subst. split; [reflexivity|].
    intros k r Hk. discriminate.
  - destruct metadatas as [|metas metas'];
      [|destruct distances as [|dists dists']]; simpl.
    + exists []. split; [reflexivity|]. split; [reflexivity|].
      split; [intros [e He]; discriminate|].
      split; [intros emb [= <-] [e He]; rewrite Hq in He; discriminate|].
      intros emb d d' m m' ds ds' [= <-] Hq'. rewrite Hq in Hq'. discriminate.
    + exists []. split; [reflexivity|]. split; [reflexivity|].
      split; [intros [e He]; discriminate|].
      split; [intros emb [= <-] [e He]; rewrite Hq in He; discriminate|].
      intros emb d d' m m' ds ds' [= <-] Hq'. rewrite Hq in Hq'. discriminate.
    + exists (VectorStore.hits 0 (doc :: docs) metas dists).
      split; [reflexivity|]. split; [apply hits_ranks|].
      split; [intros [e He]; discriminate|].
      split; [intros emb [= <-] [e He]; rewrite Hq in He; discriminate|].
      intros emb d d' m m' ds ds' [= <-] Hq'. rewrite Hq in Hq'.
      inversion Hq'; subst.
      split; [apply hits_length|].
      intros k r Hk.
      apply hits_lookup in Hk
        as (xdoc & xmeta & xdist & H1 & H2 & H3 & H4 & H5 & H6 & H7 & H8 & H9).
      exists xdoc, xmeta, xdist. repeat split; assumption.
Qed.

Lemma vector_search_results_witness :
  exists rs,
    VectorStore.search (Samples.store_hit Samples.quarter) [] "lease" 5 = Return rs
    /\ map rank rs = map (fun k : nat => Z.of_nat k + 1) (seq 0 (length rs)).
Proof.
  destruct (vector_search_results (Samples.store_hit Samples.quarter) [] "lease" 5)
    as (rs & Hrun & Hranks & _).
  exists rs. split; assumption.
Defined.

(** ** More on [load_documents] *)

Section BatchFacts.

Variable env : Core.Env.
Variable settings : Config.AppSettings.

(** The system after one pass of the loop. *)
Lemma load_one_state (sys : Core.State) (results : gmap string string) (f : string) :
  fst (Core.load_one env settings (sys, results) f)
  = match DocumentProcessor.process_document (Core.doc_env env) f with
    | Raise _ => sys
    | Return document =>
        {| Core.registry := <[doc_id document := document]> (Core.registry sys);
           Core.collection :=
             fst (VectorStore.add_document (Core.store_env env) settings
                    (Core.collection sys) document) |}
    end.
Proof.
  unfold Core.load_one.
  destruct (DocumentProcessor.process_document _ _) as [document|e]; [|reflexivity].
  rewrite add_document_outcome. reflexivity.
Qed.

(** A property of the system that every pass keeps holds after the
    loop. *)
Lemma load_loop_invariant (P : Core.State -> Prop) (file_paths : list string)
    (sys : Core.State) (results : gmap string string) :
  (forall s r f, P s -> P (fst (Core.load_one env settings (s, r) f))) ->
  P sys -> P (fst (fold_left (Core.load_one env settings) file_paths (sys, results))).
Proof.
  intros Hstep. revert sys results.
  induction file_paths as [|f fs IH]; intros sys results HP; [exact HP|].
  cbn [fold_left].
  destruct (Core.load_one env settings (sys, results) f) as [sys1 results1] eqn:E.
  apply IH. change sys1 with (fst (sys1, results1)). rewrite <- E. now apply Hstep.
Qed.

(** [add_document] only appends, and keeps the ids apart. *)
Lemma add_document_extends (c : VectorStore.Collection) (document : Document) :
  NoDup (VectorStore.ids c) ->
  exists added,
    fst (VectorStore.add_document (Core.store_env env) settings c document) = c ++ added
    /\ NoDup (VectorStore.ids (c ++ added)).
Proof.
  intros Hnd. rewrite add_document_outcome. simpl.
  unfold VectorStore.add_document_try.
  destruct (create_chunks _ _ _) as [chunks|e].
  - destruct (add_chunks_spec (Core.store_env env) document chunks 0 c Hnd)
      as (added & Heq & Hnd' & _).
    exists added. split; assumption.
  - exists []. simpl. now rewrite app_nil_r.
Qed.

End BatchFacts.

(** X13.  Loading a batch keeps the system consistent: the index only
    grows (the records it held stay, in place) and its ids stay free of
    duplicates; the registry keeps every document it held or replaces it
    by a document of the same id, and every document stays filed under
    its own id. *)
Theorem load_documents_keeps_consistency (env : Core.Env)
    (settings : Config.AppSettings) (sys : Core.State) (path : string) :
  NoDup (VectorStore.ids (Core.collection sys)) ->
  (forall k d, Core.registry sys !! k = Some d -> doc_id d = k) ->
  let sys' := fst (Core.load_documents env settings sys path) in
  NoDup (VectorStore.ids (Core.collection sys'))
  /\ (exists added, Core.collection sys' = Core.collection sys ++ added)
  /\ (forall k d, Core.registry sys' !! k = Some d -> doc_id d = k)
  /\ (forall k, is_Some (Core.registry sys !! k) -> is_Some (Core.registry sys' !! k)).
Proof.
  intros Hnd Hkeys sys'. unfold sys', Core.load_documents.
  destruct (Core.resolve_paths env path) as [file_paths|e]; simpl.
  2:{ split; [assumption|]. split; [exists []; now rewrite app_nil_r|].
      split; [assumption|auto]. }
  destruct (fold_left (Core.load_one env settings) file_paths (sys, ∅))
    as [sys1 results] eqn:E.
  change sys1 with (fst (sys1, results)). rewrite <- E.
  apply (load_loop_invariant env settings
           (fun s => NoDup (VectorStore.ids (Core.collection s))
                     /\ (exists added, Core.collection s = Core.collection sys ++ added)
                     /\ (forall k d, Core.registry s !! k = Some d -> doc_id d = k)
                     /\ (forall k, is_Some (Core.registry sys !! k) ->
                                   is_Some (Core.registry s !! k)))).
  - intros s r f (Hnd1 & (added & Hpre) & Hk & Hdom).
    rewrite load_one_state.
    destruct (DocumentProcessor.process_document (Core.doc_env env) f) as [document|e'].
    + destruct (add_document_extends env settings (Core.collection s) document Hnd1)
        as (added' & Heq & Hnd2).
      simpl. rewrite Heq. split; [exact Hnd2|]. split; [|split].
      * exists (added ++ added'). now rewrite Hpre, app_assoc.
      * intros k d Hd. destruct (decide (k = doc_id document)) as [->|Hne].
        -- rewrite lookup_insert_eq in Hd. now injection Hd as <-.
        -- rewrite lookup_insert_ne in Hd by congruence. now apply Hk.
      * intros k Hin. destruct (decide (k = doc_id document)) as [->|Hne].
        -- rewrite lookup_insert_eq. eauto.
        -- rewrite lookup_insert_ne by congruence. now apply Hdom.
    + split; [assumption|]. split; [now exists added|]. split; assumption.
  - split; [assumption|]. split; [exists []; now rewrite app_nil_r|].
    split; [assumption|auto].
Qed.

Lemma load_documents_keeps_consistency_witness :
  NoDup (VectorStore.ids
           (Core.collection
              (fst (Core.load_documents (Samples.world Samples.store (Samples.web 0 0 0))
                      Config.default_settings Samples.empty_system "notes.txt")))).
Proof.
  apply (load_documents_keeps_consistency
           (Samples.world Samples.store (Samples.web 0 0 0))
           Config.default_settings Samples.empty_system "notes.txt").
  - constructor.
  - intros k d Hd. discriminate.
Defined.

(** X14.  Once the path resolves to files, [load_documents] returns a
    mapping with exactly one entry per file and nothing else: the success
    line with the word count where [process_document] returned, the error
    line with the message where it raised.  A file that fails does not
    stop the batch.  The keys are the paths as [pathlib] writes them: a
    path that names a supported file resolves to the one path
    [str(Path(path))]. *)
Theorem load_documents_reports_every_file (env : Core.Env)
    (settings : Config.AppSettings) (sys : Core.State) (path : string) :
  (forall file_paths : list string,
      Core.resolve_paths env path = Return file_paths ->
      exists sys' results,
        Core.load_documents env settings sys path = (sys', Return results)
        /\ (forall f, f ∉ file_paths -> results !! f = None)
        /\ (forall f, f ∈ file_paths ->
              results !! f
              = Some match DocumentProcessor.process_document (Core.doc_env env) f with
                     | Return document =>
                         "[OK] Success: " +:+ str_int (word_count document) +:+ " words"
                     | Raise e => "[ERROR] Error: " +:+ str_exn e
                     end))
  /\ (Core.path_exists env (Core.path_str env path) = Return true ->
      Core.is_file env (Core.path_str env path) = Return true ->
      DocumentProcessor.supports_file (Core.doc_env env) (Core.path_str env path) = true ->
      Core.resolve_paths env path = Return [Core.path_str env path]).
Proof.
  split.
  - intros file_paths Hpaths. unfold Core.load_documents. rewrite Hpaths.
    destruct (fold_left (Core.load_one env settings) file_paths (sys, ∅))
      as [sys' results] eqn:E.
    exists sys', results. split; [reflexivity|].
    assert (Hres : forall f, results !! f
                    = if bool_decide (f ∈ file_paths)
                      then Some (Core.recorded env f) else None).
    { intros f. change results with (snd (sys', results)). rewrite <- E.
      rewrite load_loop_results. reflexivity. }
    split; intros f Hf; rewrite Hres.
    + now rewrite bool_decide_eq_false_2.
    + now rewrite bool_decide_eq_true_2.
  - intros Hex Hfile Hsup. unfold Core.resolve_paths.
    now rewrite Hex, Hfile, Hsup.
Qed.

Lemma load_documents_reports_every_file_witness :
  exists sys' results,
    Core.load_documents (Samples.world Samples.store (Samples.web 0 0 0))
      Config.default_settings Samples.empty_system "./notes.txt"
    = (sys', Return results)
    /\ results !! "notes.txt" = Some ("[OK] Success: " +:+ str_int 3 +:+ " words")
    /\ results !! "./notes.txt" = None.
Proof.
  destruct (load_documents_reports_every_file
              (Samples.world Samples.store (Samples.web 0 0 0))
              Config.default_settings Samples.empty_system "./notes.txt")
    as [Hall Hone].
  destruct (Hall ["notes.txt"]) as (sys' & results & Hrun & Hout & Hin).
  - apply Hone; reflexivity.
  - exists sys', results. split; [exact Hrun|]. split.
    + rewrite (Hin "notes.txt") by (now left). reflexivity.
    + apply Hout. intros H. apply list_elem_of_singleton in H. discriminate.
Defined.

(** A directory of two files, one of which cannot be read: both are
    reported, under the paths that [glob] gave. *)
Example load_directory :
  exists sys' results,
    Core.load_documents Batch.world Config.default_settings Samples.empty_system "./docs"
    = (sys', Return results)
    /\ results !! "docs/a.txt" = Some ("[OK] Success: " +:+ str_int 2 +:+ " words")
    /\ results !! "docs/b.md"
       = Some "[ERROR] Error: All processors failed for docs/b.md. Last error: Permission denied"
    /\ size results = 2%nat.
Proof.
  eexists. eexists. split; [vm_compute; reflexivity|].
  split; [reflexivity|]. split; [reflexivity|]. vm_compute. reflexivity.
Qed.

(** What ends the loop over the extensions early is what [glob]
    raised. *)
Lemma glob_all_raises (env : Core.Env) (path_obj : string) (exts : list string)
    (e : exn) :
  Core.glob_all env path_obj exts = Raise e ->
  exists ext, Core.glob env path_obj ext = Raise e.
Proof.
  induction exts as [|ext exts IH]; simpl; [discriminate|].
  destruct (Core.glob env path_obj ext) as [found|e'] eqn:E; simpl.
  - destruct (Core.glob_all env path_obj exts) as [more|e'']; simpl;
      [discriminate|].
    intros [= <-]. now apply IH.
  - intros [= <-]. now exists ext.
Qed.

Lemma glob_all_nothing (env : Core.Env) (path_obj : string) (exts : list string) :
  (forall ext, Core.glob env path_obj ext = Return []) ->
  Core.glob_all env path_obj exts = Return [].
Proof.
  intros Hglob. induction exts as [|ext exts IH]; simpl; [reflexivity|].
  now rewrite Hglob, IH.
Qed.

(** X15.  [load_documents] fails only while it resolves the path, before
    any file is touched, and the system is then as before.  The exception
    is one of its own [ValueError]s, or the exception that [exists()],
    [is_file()], [is_dir()] or [glob()] raised.  A path that does not
    exist, and a directory without a supported file, are such
    failures. *)
Theorem load_documents_fails_fast (env : Core.Env) (settings : Config.AppSettings)
    (sys : Core.State) (path : string) :
  (forall e, snd (Core.load_documents env settings sys path) = Raise e ->
     Core.resolve_paths env path = Raise e
     /\ fst (Core.load_documents env settings sys path) = sys
     /\ (exn_type e = ValueError
         \/ Core.path_exists env (Core.path_str env path) = Raise e
         \/ Core.is_file env (Core.path_str env path) = Raise e
         \/ Core.is_dir env (Core.path_str env path) = Raise e
         \/ exists ext, Core.glob env (Core.path_str env path) ext = Raise e))
  /\ (Core.path_exists env (Core.path_str env path) = Return false ->
      Core.load_documents env settings sys path
      = (sys, Raise (mkExn ValueError ("Path not found: " +:+ path))))
  /\ (Core.path_exists env (Core.path_str env path) = Return true ->
      Core.is_file env (Core.path_str env path) = Return false ->
      Core.is_dir env (Core.path_str env path) = Return true ->
      (forall ext, Core.glob env (Core.path_str env path) ext = Return []) ->
      Core.load_documents env settings sys path
      = (sys, Raise (mkExn ValueError
                       ("No supported files found in directory: " +:+ path))))
  /\ (forall e, Core.path_exists env (Core.path_str env path) = Raise e ->
      Core.load_documents env settings sys path = (sys, Raise e)).
Proof.
  split; [|split; [|split]].
  - intros e. unfold Core.load_documents.
    destruct (Core.resolve_paths env path) as [file_paths|e'] eqn:E.
    + destruct (fold_left _ _ _). discriminate.
    + simpl. intros [= <-]. split; [reflexivity|]. split; [reflexivity|].
      unfold Core.resolve_paths in E.
      destruct (Core.path_exists env (Core.path_str env path)) as [[|]|e1];
        [| injection E as <-; now left | injection E as <-; right; now left].
      destruct (Core.is_file env (Core.path_str env path)) as [[|]|e2];
        [| | injection E as <-; right; right; now left].
      * destruct (DocumentProcessor.supports_file _ _); [discriminate|].
        injection E as <-. now left.
      * destruct (Core.is_dir env (Core.path_str env path)) as [[|]|e3];
          [| injection E as <-; now left
           | injection E as <-; right; right; right; now left].
        destruct (Core.glob_all env (Core.path_str env path) _) as [[|f fs]|e4] eqn:G;
          [injection E as <-; now left | discriminate |].
        injection E as <-. right. right. right. right.
        eapply glob_all_raises. exact G.
  - intros Hmiss. unfold Core.load_documents, Core.resolve_paths.
    now rewrite Hmiss.
  - intros Hex Hfile Hdir Hglob. unfold Core.load_documents, Core.resolve_paths.
    rewrite Hex, Hfile, Hdir. now rewrite glob_all_nothing.
  - intros e He. unfold Core.load_documents, Core.resolve_paths.
    now rewrite He.
Qed.

Lemma load_documents_fails_fast_witness :
  Core.load_documents Batch.world Config.default_settings Samples.empty_system "nowhere"
  = (Samples.empty_system, Raise (mkExn ValueError "Path not found: nowhere"))
  /\ Core.load_documents Corner.locked Config.default_settings Samples.empty_system
       "docs"
     = (Samples.empty_system,
        Raise (mkExn OSError "[Errno 13] Permission denied: 'docs'")).
Proof.
  split.
  - destruct (load_documents_fails_fast Batch.world Config.default_settings
                Samples.empty_system "nowhere") as (_ & Hmissing & _).
    apply Hmissing. reflexivity.
  - destruct (load_documents_fails_fast Corner.locked Config.default_settings
                Samples.empty_system "docs") as (_ & _ & _ & Hrefused).
    apply Hrefused. reflexivity.
Defined.

(** ** More on the web search *)

Section EngineFacts.

Import WebSearch Engines.

Lemma parse_ddg_results (q : string) (i : nat) (divs : list DdgDiv) (r : SearchResult) :
  r ∈ parse_ddg q i divs ->
  from_duckduckgo q (Z.of_nat (i + length divs)) r /\ Z.of_nat i < rank r.
Proof.
  revert i. induction divs as [|d divs IH]; intros i; simpl.
  - intros H. now apply elem_of_nil in H.
  - intros H. apply elem_of_app in H as [H|H].
    + destruct (ddg_title d), (ddg_snippet d); try (now apply elem_of_nil in H).
      apply list_elem_of_singleton in H as ->. unfold from_duckduckgo. simpl.
      repeat split; lia.
    + apply IH in H as [(H1 & H2 & H3 & H4) H5]. unfold from_duckduckgo.
      repeat split; try assumption; lia.
Qed.

Lemma parse_bing_results (q : string) (i : nat) (items : list BingItem) (r : SearchResult) :
  r ∈ parse_bing q i items ->
  from_bing q (Z.of_nat (i + length items)) r /\ Z.of_nat i + 10 < rank r.
Proof.
  revert i. induction items as [|d items IH]; intros i; simpl.
  - intros H. now apply elem_of_nil in H.
  - intros H. apply elem_of_app in H as [H|H].
    + destruct (bing_h2 d) as [[? [?|]]|], (bing_caption d);
        try (now apply elem_of_nil in H).
      apply list_elem_of_singleton in H as ->. unfold from_bing. simpl.
      repeat split; lia.
    + apply IH in H as [(H1 & H2 & H3 & H4) H5]. unfold from_bing.
      repeat split; try assumption; lia.
Qed.

Lemma search_duckduckgo_results (env : Env) (q : string) (n : Z) (r : SearchResult) :
  0 <= n -> r ∈ or_nothing (_search_duckduckgo env q n) -> from_duckduckgo q n r.
Proof.
  intros Hn. unfold _search_duckduckgo.
  destruct (ddg_get env _) as [response|e]; simpl;
    [|intros H; now apply elem_of_nil in H].
  destruct (negb (status response =? 200)); simpl;
    [intros H; now apply elem_of_nil in H|].
  intros H. apply parse_ddg_results in H as [(H1 & H2 & H3 & H4) _].
  pose proof (len_slice_to (containers response) n Hn). unfold len in *.
  repeat split; try assumption; lia.
Qed.

Lemma search_bing_results (env : Env) (q : string) (n : Z) (r : SearchResult) :
  0 <= n -> r ∈ or_nothing (_search_bing env q n) -> from_bing q n r.
Proof.
  intros Hn. unfold _search_bing.
  destruct (bing_get env _) as [response|e]; simpl;
    [|intros H; now apply elem_of_nil in H].
  destruct (negb (status response =? 200)); simpl;
    [intros H; now apply elem_of_nil in H|].
  intros H. apply parse_bing_results in H as [(H1 & H2 & H3 & H4) _].
  pose proof (len_slice_to (containers response) n Hn). unfold len in *.
  repeat split; try assumption; lia.
Qed.

Lemma search_duckduckgo_down (env : Env) (q : string) (n : Z) :
  (forall url, down (ddg_get env url)) -> or_nothing (_search_duckduckgo env q n) = [].
Proof.
  intros Hdown. unfold _search_duckduckgo.
  specialize (Hdown ("https://html.duckduckgo.com/html/?q=" +:+ replace_space_plus q)).
  destruct (ddg_get env _) as [response|e]; simpl; [|reflexivity].
  simpl in Hdown. apply Z.eqb_neq in Hdown. now rewrite Hdown.
Qed.

Lemma search_bing_down (env : Env) (q : string) (n : Z) :
  (forall url, down (bing_get env url)) -> or_nothing (_search_bing env q n) = [].
Proof.
  intros Hdown. unfold _search_bing.
  specialize (Hdown ("https://www.bing.com/search?q=" +:+ replace_space_plus q)).
  destruct (bing_get env _) as [response|e]; simpl; [|reflexivity].
  simpl in Hdown. apply Z.eqb_neq in Hdown. now rewrite Hdown.
Qed.

End EngineFacts.

(** X16.  A [max_results] that is not positive still costs a request to
    the first engine, never one to the second, and gives the empty
    list. *)
Theorem web_search_nonpositive_budget (env : WebSearch.Env) (q : string) (n : Z) :
  n <= 0 -> WebSearch.search env q n = ([WebSearch.CallDuckDuckGo q n], []).
Proof.
  intros Hn.
  assert (Hfinal : snd (WebSearch.search env q n) = []).
  { rewrite search_final. unfold WebSearch.spec_merge.
    replace (Z.to_nat n) with 0%nat by lia. apply take_0. }
  revert Hfinal. unfold WebSearch.search.
  pose proof (len_nonneg
                (WebSearch.or_nothing (WebSearch._search_duckduckgo env q n))) as Hlen.
  destruct (Z.ltb_spec
              (len (WebSearch.or_nothing (WebSearch._search_duckduckgo env q n))) n);
    [lia|].
  simpl. now intros ->.
Qed.

Lemma web_search_nonpositive_budget_witness :
  WebSearch.search (Samples.web 3 0 3) "rent index" 0
  = ([WebSearch.CallDuckDuckGo "rent index" 0], []).
Proof. apply (web_search_nonpositive_budget (Samples.web 3 0 3) "rent index" 0). lia. Defined.

(** X17.  The list that [search] returns is the first engine's results
    followed by the second engine's.  Every result is of type WEB and
    records the query and its engine; a result of the first engine has a
    rank from 1 to [max_results], a result of the second a rank from 11
    to [10 + max_results]. *)
Theorem web_results_by_engine (env : WebSearch.Env) (q : string) (n : Z) :
  exists first second,
    snd (WebSearch.search env q n) = first ++ second
    /\ Forall (Engines.from_duckduckgo q n) first
    /\ Forall (Engines.from_bing q n) second.
Proof.
  rewrite search_final.
  set (ddg := WebSearch.or_nothing (WebSearch._search_duckduckgo env q n)).
  set (bing := if len ddg <? n
               then WebSearch.or_nothing (WebSearch._search_bing env q (n - len ddg))
               else []).
  destruct (Z.le_gt_cases n 0) as [Hn|Hn].
  { exists [], []. unfold WebSearch.spec_merge.
    replace (Z.to_nat n) with 0%nat by lia. rewrite take_0.
    split; [reflexivity|]. split; constructor. }
  assert (Hsub : WebSearch.spec_merge n (ddg ++ bing) `sublist_of` ddg ++ bing).
  { unfold WebSearch.spec_merge.
    etransitivity; [apply sublist_take|apply spec_dedup_sublist]. }
  apply sublist_app_r in Hsub as (first & second & Heq & Hfirst & Hsecond).
  exists first, second. split; [exact Heq|]. split.
  - apply Forall_forall. intros r Hr.
    apply (search_duckduckgo_results env q n r); [lia|].
    eapply elem_of_sublist; [exact Hr|exact Hfirst].
  - apply Forall_forall. intros r Hr.
    assert (Hin : r ∈ bing) by (eapply elem_of_sublist; [exact Hr|exact Hsecond]).
    unfold bing in Hin.
    destruct (Z.ltb_spec (len ddg) n) as [Hlt|Hge]; [|now apply elem_of_nil in Hin].
    pose proof (len_nonneg ddg) as Hlen.
    apply search_bing_results in Hin as (H1 & H2 & H3 & H4); [|lia].
    repeat split; try assumption; lia.
Qed.

(** X18.  An engine that is down (its request raises or answers with a
    status other than 200) costs the search nothing but its results: with
    the first engine down the search returns the second engine's results,
    asked for in full and merged; with both down it returns the empty
    list. *)
Theorem web_search_degrades (env : WebSearch.Env) (q : string) (n : Z) :
  ((forall url, Engines.down (WebSearch.ddg_get env url)) ->
   0 < n ->
   WebSearch.search env q n
   = ([WebSearch.CallDuckDuckGo q n; WebSearch.CallBing q n],
      WebSearch.spec_merge n (WebSearch.or_nothing (WebSearch._search_bing env q n))))
  /\ ((forall url, Engines.down (WebSearch.ddg_get env url)) ->
      (forall url, Engines.down (WebSearch.bing_get env url)) ->
      snd (WebSearch.search env q n) = []).
Proof.
  split.
  - intros Hddg Hn.
    assert (Hfinal := search_final env q n). simpl in Hfinal.
    rewrite (search_duckduckgo_down env q n Hddg) in Hfinal.
    revert Hfinal. unfold WebSearch.search.
    rewrite (search_duckduckgo_down env q n Hddg).
    change (len (@nil SearchResult)) with 0.
    destruct (Z.ltb_spec 0 n); [|lia]. rewrite Z.sub_0_r. simpl.
    now intros ->.
  - intros Hddg Hbing. rewrite search_final.
    rewrite (search_duckduckgo_down env q n Hddg).
    destruct (len (@nil SearchResult) <? n);
      [rewrite (search_bing_down env q _ Hbing)|];
      unfold WebSearch.spec_merge; simpl; apply take_nil.
Qed.

Lemma web_search_degrades_witness :
  WebSearch.search (Vary.first_engine_down 2) "rent index" 5
  = ([WebSearch.CallDuckDuckGo "rent index" 5; WebSearch.CallBing "rent index" 5],
     WebSearch.spec_merge 5
       (WebSearch.or_nothing
          (WebSearch._search_bing (Vary.first_engine_down 2) "rent index" 5))).
Proof.
  apply (web_search_degrades (Vary.first_engine_down 2) "rent index" 5).
  - intros url. simpl. lia.
  - lia.
Defined.

(** With the first engine down the two pages of the second engine come
    back. *)
Example first_engine_down_run :
  map source (snd (WebSearch.search (Vary.first_engine_down 2) "rent index" 5))
  = ["https://example.org/0"; "https://example.org/1"].
Proof. vm_compute. reflexivity. Qed.

(** ** Choosing the model *)

Section ProbeFacts.

Import LLMInit.

Variable env : LLMInit.Env.

(** What the loop over the candidates comes to. *)
Lemma try_models_spec (options : list string) :
  match try_models env options with
  | Return model =>
      exists before after,
        options = before ++ model :: after
        /\ probe env model = None
        /\ Forall (fun m => probe env m <> None) before
  | Raise e =>
      e = mkExn Exception "No OpenAI models are available for your account"
      /\ Forall (fun m => probe env m <> None) options
  end.
Proof.
  induction options as [|m rest IH]; simpl.
  - split; [reflexivity|constructor].
  - destruct (probe env m) as [e|] eqn:E.
    + assert (Hgo : (if contains "model_not_found" (str_exn e)
                        || contains "does not exist" (str_exn e)
                     then try_models env rest else try_models env rest)
                    = try_models env rest)
        by (destruct (_ || _); reflexivity).
      rewrite Hgo. destruct (try_models env rest) as [model|e'].
      * destruct IH as (before & after & -> & Hp & Hall).
        exists (m :: before), after. split; [reflexivity|]. split; [exact Hp|].
        constructor; [congruence|exact Hall].
      * destruct IH as [-> Hall]. split; [reflexivity|].
        constructor; [congruence|exact Hall].
    + exists [], rest. split; [reflexivity|]. split; [exact E|constructor].
Qed.

End ProbeFacts.

(** X19.  [_get_available_model] adopts the first candidate whose test
    request succeeds, in the order: preferred model, then the four fixed
    fallbacks.  So the preferred model is adopted whenever it answers; a
    model that is adopted answered its test, and every candidate before
    it failed, whatever the failure was; and the call raises exactly when
    all candidates failed. *)
Theorem get_available_model_first_working (env : LLMInit.Env) (preferred : string) :
  (LLMInit.probe env preferred = None ->
   LLMInit._get_available_model env preferred = Return preferred)
  /\ (forall model,
        LLMInit._get_available_model env preferred = Return model ->
        LLMInit.probe env model = None
        /\ exists before after,
             [preferred; "gpt-4o-mini"; "gpt-4o"; "gpt-4"; "gpt-4.1-mini-2025-04-14"]
             = before ++ model :: after
             /\ Forall (fun m => LLMInit.probe env m <> None) before)
  /\ ((exists e, LLMInit._get_available_model env preferred = Raise e)
      <-> Forall (fun m => LLMInit.probe env m <> None)
                 [preferred; "gpt-4o-mini"; "gpt-4o"; "gpt-4"; "gpt-4.1-mini-2025-04-14"]).
Proof.
  pose proof (try_models_spec env (LLMInit.model_options preferred)) as Hspec.
  unfold LLMInit._get_available_model.
  change (LLMInit.model_options preferred)
    with [preferred; "gpt-4o-mini"; "gpt-4o"; "gpt-4"; "gpt-4.1-mini-2025-04-14"] in *.
  split; [|split].
  - intros Hok. simpl. now rewrite Hok.
  - intros model Hrun. rewrite Hrun in Hspec.
    destruct Hspec as (before & after & Heq & Hp & Hall).
    split; [exact Hp|]. now exists before, after.
  - split.
    + intros [e Hrun]. rewrite Hrun in Hspec. apply Hspec.
    + intros Hall.
      destruct (LLMInit.try_models env _) as [model|e]; [|eauto].
      destruct Hspec as (before & after & Heq & Hp & _).
      rewrite Forall_forall in Hall. exfalso. apply (Hall model); [|exact Hp].
      rewrite Heq. apply elem_of_app. right. now left.
Qed.

Lemma get_available_model_first_working_witness :
  LLMInit._get_available_model (Vary.only_model "gpt-4o") "gpt-4o" = Return "gpt-4o"
  /\ LLMInit.probe (Vary.only_model "gpt-4o") "gpt-4o" = None.
Proof.
  destruct (get_available_model_first_working (Vary.only_model "gpt-4o") "gpt-4o")
    as (Hpref & Hadopt & _).
  split; [apply Hpref; reflexivity|].
  apply (Hadopt "gpt-4o"). apply Hpref. reflexivity.
Defined.

(** A preferred model that does not exist: the second fallback is the
    first that answers. *)
Example fallback_model :
  LLMInit._get_available_model (Vary.only_model "gpt-4o") "gpt-5-turbo" = Return "gpt-4o".
Proof. vm_compute. reflexivity. Qed.

(** ** More on [ask_question] *)

Lemma slice_to_app {A : Type} (a b : list A) (n : Z) :
  0 <= n <= len a -> slice_to (a ++ b) n = slice_to a n.
Proof.
  intros Hn. unfold slice_to. rewrite !slice_nonneg by lia.
  unfold len in *. rewrite length_app.
  replace (Z.min 0 (Z.of_nat (length a + length b))) with 0 by lia.
  replace (Z.min 0 (Z.of_nat (length a))) with 0 by lia.
  simpl. rewrite !Z.sub_0_r.
  replace (Z.min n (Z.of_nat (length a + length b))) with n by lia.
  replace (Z.min n (Z.of_nat (length a))) with n by lia.
  change (Z.to_nat 0) with 0%nat. rewrite !drop_0.
  apply take_app_le. lia.
Qed.

Lemma len_slice_to_min {A : Type} (l : list A) (n : Z) :
  0 <= n -> len (slice_to l n) = Z.min n (len l).
Proof.
  intros Hn. unfold slice_to. rewrite length_slice_nonneg by lia.
  pose proof (len_nonneg l). lia.
Qed.

(** The dict that leaves the [try] block, in terms of the answer and of
    the results gathered. *)
Lemma ask_question_try_shape (env : Core.Env) (sys : Core.State) (q : string)
    (kw : Core.Kwargs) (d : Core.ResponseDict) :
  snd (Core.ask_question_try env sys q kw) = Return d ->
  exists answer all_results,
    d = [ ("answer", Core.RStr answer);
          ("task_type", Core.RStr (TaskType_value (LLM.classify q)));
          ("processing_time", Core.RStr (Core.elapsed env));
          ("confidence", Core.RInt (match all_results with [] => 0 | _ => 85 end));
          ("sources", Core.RSources (map Core.source_entry (slice_to all_results 5)));
          ("has_sources", Core.RBool (0 <? len all_results));
          ("total_sources", Core.RInt (len all_results)) ].
Proof.
  unfold Core.ask_question_try.
  destruct (Core.make_request q kw) as [request|e]; [|discriminate].
  walk_try_block; try discriminate; cbn [snd]; intros [= <-];
    first [ eexists _, _; reflexivity | eexists _, []; reflexivity ].
Qed.

(** X20.  Every response of [ask_question], the error response included,
    is consistent in its source fields: the confidence is 85 or 0 and is
    85 exactly when sources were found; [has_sources] says the same; the
    [sources] list holds the first five of them at most, so its length is
    the smaller of 5 and [total_sources]. *)
Theorem ask_question_source_fields (env : Core.Env) (sys : Core.State) (q : string)
    (kw : Core.Kwargs) :
  exists d confidence total has listed,
    snd (Core.ask_question env sys q kw) = Return d
    /\ assoc_get "confidence" d = Some (Core.RInt confidence)
    /\ assoc_get "total_sources" d = Some (Core.RInt total)
    /\ assoc_get "has_sources" d = Some (Core.RBool has)
    /\ assoc_get "sources" d = Some (Core.RSources listed)
    /\ 0 <= total
    /\ (confidence = 85 \/ confidence = 0)
    /\ (confidence = 85 <-> 0 < total)
    /\ (has = true <-> 0 < total)
    /\ len listed = Z.min 5 total.
Proof.
  pose proof (ask_question_try_shape env sys q kw) as Hshape.
  unfold Core.ask_question.
  destruct (Core.ask_question_try env sys q kw) as [calls [d|e]]; simpl in *.
  - destruct (Hshape d eq_refl) as (answer & all_results & ->).
    eexists.
    exists (match all_results with [] => 0 | _ => 85 end), (len all_results),
      (0 <? len all_results), (map Core.source_entry (slice_to all_results 5)).
    pose proof (len_nonneg all_results) as Hn.
    repeat (split; [reflexivity|]).
    split; [exact Hn|].
    split; [destruct all_results; auto|].
    split; [destruct all_results; unfold len; simpl; split; intros; lia|].
    split; [apply Z.ltb_lt|].
    unfold len at 1. rewrite length_map. fold (len (slice_to all_results 5)).
    apply len_slice_to_min. lia.
  - eexists. exists 0, 0, false, [].
    repeat split; first [reflexivity | lia | discriminate | auto].
Qed.

(** X21.  The context given to the chat model holds the first
    [max_results] results, documents first.  So when the vector store
    returns at least [max_results] hits, what the web search finds never
    reaches the chat model: the answer is the same whatever the engines
    return. *)
Theorem answer_ignores_web_when_documents_fill_context (env : Core.Env)
    (sys : Core.State) (q : string) (kw : Core.Kwargs) (request : QueryRequest)
    (hits : list SearchResult) :
  Core.make_request q kw = Return request ->
  include_documents request = true ->
  LLM.classify q <> WEB_SEARCH ->
  VectorStore.search (Core.store_env env) (Core.collection sys) q (max_results request)
  = Return hits ->
  0 <= max_results request <= len hits ->
  exists answer,
    forall w : WebSearch.Env,
      WebSearch.session_close w = None ->
      exists d,
        snd (Core.ask_question (Vary.with_web env w) sys q kw) = Return d
        /\ assoc_get "answer" d = Some (Core.RStr answer).
Proof.
  intros Hreq Hdocs Htype Hsearch Hn.
  destruct (generate_response_returns (Core.llm_env env) request
              match map Core.context_part (slice_to hits (max_results request)) with
              | [] => "No relevant context found."
              | _ => join nl (map Core.context_part (slice_to hits (max_results request)))
              end) as [answer Hanswer].
  exists answer. intros w Hclose.
  assert (Hne : TaskType_eqb (LLM.classify q) WEB_SEARCH = false)
    by (destruct (LLM.classify q); try reflexivity; contradiction).
  unfold Core.ask_question, Core.ask_question_try.
  rewrite Hreq, Hdocs, Hne.
  cbn [negb andb Vary.with_web Core.store_env Core.web_env Core.llm_env orb].
  rewrite Hsearch.
  destruct (include_web request && TaskType_eqb (LLM.classify q) HYBRID_SEARCH).
  - destruct (WebSearch.search w q (max_results request)) as [requests web_results].
    rewrite Hclose, slice_to_app by exact Hn. rewrite Hanswer.
    eexists. split; reflexivity.
  - rewrite Hanswer. eexists. split; reflexivity.
Qed.

Lemma answer_ignores_web_when_documents_fill_context_witness :
  exists answer d,
    snd (Core.ask_question
           (Vary.with_web (Samples.world (Samples.store_hit Samples.quarter)
                                         (Samples.web 0 0 0))
                          (Samples.web 3 0 0))
           Samples.empty_system "Tell me about your company"
           {| Core.kw_task_type := None; Core.kw_max_results := Some 1;
              Core.kw_include_web := None; Core.kw_include_documents := None;
              Core.kw_other := [] |}) = Return d
    /\ assoc_get "answer" d = Some (Core.RStr answer).
Proof.
  destruct (answer_ignores_web_when_documents_fill_context
              (Samples.world (Samples.store_hit Samples.quarter) (Samples.web 0 0 0))
              Samples.empty_system "Tell me about your company"
              {| Core.kw_task_type := None; Core.kw_max_results := Some 1;
                 Core.kw_include_web := None; Core.kw_include_documents := None;
                 Core.kw_other := [] |}
              {| question := "Tell me about your company"; task_type := None;
                 max_results := 1; include_web := true; include_documents := true |}
              (WebSearch.or_nothing
                 (VectorStore.search (Samples.store_hit Samples.quarter) [] 
                    "Tell me about your company" 1)))
    as [answer Hall].
  - reflexivity.
  - reflexivity.
  - vm_compute. discriminate.
  - vm_compute. reflexivity.
  - split; [simpl; lia|vm_compute; discriminate].
  - destruct (Hall (Samples.web 3 0 0) eq_refl) as (d & Hd). now exists answer, d.
Defined.

(** Walks the retrieval part of the [try] block and stops before the
    chat model is asked. *)
Ltac walk_retrieval :=
  repeat match goal with
    | |- context [if ?flag && negb (TaskType_eqb ?t WEB_SEARCH) then _ else _] =>
        destruct (flag && negb (TaskType_eqb t WEB_SEARCH))
    | |- context [if ?flag && (TaskType_eqb ?t WEB_SEARCH || TaskType_eqb ?t HYBRID_SEARCH)
                  then _ else _] =>
        destruct (flag && (TaskType_eqb t WEB_SEARCH || TaskType_eqb t HYBRID_SEARCH))
    | |- context [VectorStore.search ?e ?c ?q ?n] =>
        let rs := fresh "doc_results" in
        destruct (vector_search_returns e c q n) as [rs ->]
    | |- context [WebSearch.search ?e ?q ?n] =>
        let requests := fresh "requests" in
        let rs := fresh "web_results" in
        destruct (WebSearch.search e q n) as [requests rs]
    | |- context [WebSearch.session_close ?e] =>
        destruct (WebSearch.session_close e)
    end.

(** X22.  The [task_type] keyword of [ask_question] decides neither which
    sources are consulted nor which task type the response reports: both
    follow the classifier, whatever the keyword says. *)
Theorem task_type_keyword_does_not_route (env : Core.Env) (sys : Core.State)
    (q : string) (kw : Core.Kwargs) (t : option (option TaskType)) :
  fst (Core.ask_question env sys q (Vary.with_task_type kw t))
  = fst (Core.ask_question env sys q kw)
  /\ (forall d,
        snd (Core.ask_question_try env sys q (Vary.with_task_type kw t)) = Return d ->
        assoc_get "task_type" d = Some (Core.RStr (TaskType_value (LLM.classify q)))).
Proof.
  split.
  - rewrite !ask_question_calls.
    destruct (Core.kw_other kw) as [|k ks] eqn:Hother.
    + erewrite (ask_question_try_calls env sys q (Vary.with_task_type kw t));
        [|unfold Core.make_request; simpl; rewrite Hother; reflexivity].
      erewrite (ask_question_try_calls env sys q kw);
        [|unfold Core.make_request; rewrite Hother; reflexivity].
      reflexivity.
    + unfold Core.ask_question_try, Core.make_request. simpl. now rewrite Hother.
  - intros d Hd. apply ask_question_try_shape in Hd as (answer & all_results & ->).
    reflexivity.
Qed.

Lemma generate_response_base_prompt (l l' : LLM.Env) (request : QueryRequest)
    (context : string) :
  task_type request = None ->
  (forall u, LLM.chat_completion l LLM.base_prompt u
             = LLM.chat_completion l' LLM.base_prompt u) ->
  LLM.generate_response l request context = LLM.generate_response l' request context.
Proof.
  intros Ht Hagree. unfold LLM.generate_response. rewrite Ht. simpl.
  now rewrite Hagree.
Qed.

(** X23.  Unless the caller passes a [task_type], the chat model is always
    asked under the base system prompt: the task type found by the
    classifier never selects a prompt.  Two chat models that answer alike
    under the base prompt give the same response to every question. *)
Theorem classification_does_not_select_prompt (env : Core.Env) (sys : Core.State)
    (q : string) (kw : Core.Kwargs) (l l' : LLM.Env) :
  default None (Core.kw_task_type kw) = None ->
  (forall u, LLM.chat_completion l LLM.base_prompt u
             = LLM.chat_completion l' LLM.base_prompt u) ->
  Core.ask_question (Vary.with_llm env l) sys q kw
  = Core.ask_question (Vary.with_llm env l') sys q kw.
Proof.
  intros Ht Hagree.
  assert (Htry : Core.ask_question_try (Vary.with_llm env l) sys q kw
                 = Core.ask_question_try (Vary.with_llm env l') sys q kw).
  { unfold Core.ask_question_try, Core.make_request.
    destruct (Core.kw_other kw); [|reflexivity].
    cbn [Vary.with_llm Core.store_env Core.web_env Core.llm_env
         include_documents include_web max_results].
    walk_retrieval; try reflexivity;
      rewrite (generate_response_base_prompt l l') by (exact Ht || exact Hagree);
      reflexivity. }
  unfold Core.ask_question. rewrite Htry. reflexivity.
Qed.

Lemma classification_does_not_select_prompt_witness :
  Core.ask_question
    (Vary.with_llm (Samples.world Samples.store (Samples.web 2 0 0)) Samples.chat)
    Samples.empty_system "Please summarize the latest lease" Core.no_kwargs
  = Core.ask_question
      (Vary.with_llm (Samples.world Samples.store (Samples.web 2 0 0)) Outage.picky_chat)
      Samples.empty_system "Please summarize the latest lease" Core.no_kwargs.
Proof.
  apply (classification_does_not_select_prompt
           (Samples.world Samples.store (Samples.web 2 0 0)) Samples.empty_system
           "Please summarize the latest lease" Core.no_kwargs
           Samples.chat Outage.picky_chat).
  - reflexivity.
  - intros u. reflexivity.
Defined.

(** X24.  What [add_document] writes about a chunk, [search] reads back:
    a hit whose metadata are those of a record that [add_document] stored
    for a document has that document's title as its title and the
    document's file name as its source. *)
Theorem indexed_title_round_trip (env : VectorStore.Env) (document : Document)
    (c : VectorStore.Collection) (i : nat) (chunk : TextChunk) (e : VectorStore.Entry)
    (docs : list string) (metas : list (gmap string string)) (dists : list spec_float)
    (k : nat) (r : SearchResult) :
  VectorStore.add_chunk env document c i chunk = (c ++ [e], Return tt) ->
  VectorStore.hits 0 docs metas dists !! k = Some r ->
  metas !! k = Some (VectorStore.entry_metadata e) ->
  title r = doc_title document
  /\ VectorStore.file_name env document = Return (source r)
  /\ sr_metadata r !! "doc_id" = Some (doc_id document).
Proof.
  intros Hadd Hhit Hmeta.
  assert (He : exists filename,
             VectorStore.file_name env document = Return filename
             /\ VectorStore.entry_metadata e
                = <["doc_id" := doc_id document]>
                    (<["document_title" := doc_title document]>
                    (<["filename" := filename]> ∅))).
  { unfold VectorStore.add_chunk in Hadd.
    destruct (match VectorStore.collection_get env c (VectorStore.chunk_id document i) with
              | Return found => negb (length found =? 0)%nat
              | Raise _ => false
              end).
    - injection Hadd as Hc. exfalso.
      assert (Hlen : length c = length (c ++ [e])) by (now rewrite <- Hc).
      rewrite length_app in Hlen. simpl in Hlen. lia.
    - destruct (VectorStore.encode env (content chunk)) as [embedding|err];
        [|discriminate].
      destruct (VectorStore.file_name env document) as [filename|err];
        [|discriminate].
      unfold VectorStore.collection_add in Hadd.
      destruct (VectorStore.add_error env c _); [discriminate|].
      injection Hadd as Hc. apply app_inv_head in Hc. injection Hc as <-.
      now exists filename. }
  destruct He as (filename & Hname & He).
  apply hits_lookup in Hhit
    as (doc & metadata & distance & _ & Hm & _ & _ & Hsrc & Hmd & _).
  rewrite Hmeta in Hm. injection Hm as <-.
  unfold title. rewrite Hsrc, Hmd, He, Hname. repeat split.
Qed.

Lemma indexed_title_round_trip_witness :
  exists e r,
    VectorStore.add_chunk Samples.store Samples.notes_document [] 0
      {| content := "alpha beta"; start_pos := 0; end_pos := 2 |}
    = ([] ++ [e], Return tt)
    /\ VectorStore.hits 0 ["alpha beta"] [VectorStore.entry_metadata e]
         [Samples.quarter] !! 0%nat = Some r
    /\ title r = "notes"
    /\ source r = "notes.txt"
    /\ VectorStore.file_name Samples.store Samples.notes_document = Return (source r).
Proof.
  eexists. eexists. split; [reflexivity|]. split; [reflexivity|].
  destruct (indexed_title_round_trip Samples.store Samples.notes_document [] 0
              {| content := "alpha beta"; start_pos := 0; end_pos := 2 |}
              _ ["alpha beta"] [_] [Samples.quarter] 0 _
              eq_refl eq_refl eq_refl) as (Ht & Hs & _).
  split; [exact Ht|]. split; [reflexivity|exact Hs].
Defined.

Lemma task_type_keyword_does_not_route_witness :
  fst (Core.ask_question (Samples.world Samples.store (Samples.web 2 0 0))
         Samples.empty_system "Please summarize the lease"
         (Vary.with_task_type Core.no_kwargs (Some (Some WEB_SEARCH))))
  = [Core.DocumentSearch "Please summarize the lease" 5]
  /\ exists d,
       snd (Core.ask_question_try (Samples.world Samples.store (Samples.web 2 0 0))
              Samples.empty_system "Please summarize the lease"
              (Vary.with_task_type Core.no_kwargs (Some (Some WEB_SEARCH)))) = Return d
       /\ assoc_get "task_type" d = Some (Core.RStr "summarization").
Proof.
  destruct (task_type_keyword_does_not_route
              (Samples.world Samples.store (Samples.web 2 0 0)) Samples.empty_system
              "Please summarize the lease" Core.no_kwargs (Some (Some WEB_SEARCH)))
    as [Hcalls Htype].
  split.
  - rewrite Hcalls. reflexivity.
  - eexists. split; [reflexivity|]. apply Htype. reflexivity.
Defined.

(** ** Outages *)

(** With both engines down the web search finds nothing. *)
Lemma web_search_all_down (env : WebSearch.Env) (q : string) (n : Z) :
  (forall url, Engines.down (WebSearch.ddg_get env url)) ->
  (forall url, Engines.down (WebSearch.bing_get env url)) ->
  snd (WebSearch.search env q n) = [].
Proof.
  intros Hddg Hbing. rewrite search_final.
  rewrite (search_duckduckgo_down env q n Hddg).
  destruct (len (@nil SearchResult) <? n);
    [rewrite (search_bing_down env q _ Hbing)|];
    unfold WebSearch.spec_merge; simpl; apply take_nil.
Qed.

(** With the encoder down the document search finds nothing. *)
Lemma vector_search_encoder_down (env : VectorStore.Env) (c : VectorStore.Collection)
    (q : string) (n : Z) (e : exn) :
  VectorStore.encode env q = Raise e -> VectorStore.search env c q n = Return [].
Proof.
  intros Hdown. unfold VectorStore.search, VectorStore.search_try.
  now rewrite Hdown.
Qed.

(** A slice of the empty list is empty. *)
Lemma slice_to_nil {A : Type} (j : Z) : slice_to (@nil A) j = [].
Proof. unfold slice_to, slice. rewrite drop_nil. apply take_nil. Qed.

(** The confidence says whether anything was found. *)
Lemma confidence_by_count {A : Type} (l : list A) :
  match l with [] => 0 | _ => 85 end = if 0 <? len l then 85 else 0.
Proof.
  destruct l as [|x l]; [reflexivity|]. unfold len. simpl length.
  destruct (Z.ltb_spec 0 (Z.of_nat (S (length l)))); [reflexivity|lia].
Qed.

(** X25.  A failure of the chat model is not an error response: when
    every call of the model raises [e], and the request is built and the
    web session closes, [ask_question] answers with the text
    "I encountered an error generating the response: <e>", reports the
    classifier's task type, and still the confidence 85 whenever a source
    was found. *)
Theorem chat_outage_is_an_answer (env : Core.Env) (sys : Core.State) (q : string)
    (kw : Core.Kwargs) (e : exn) :
  (forall s u, LLM.chat_completion (Core.llm_env env) s u = Raise e) ->
  Core.kw_other kw = [] ->
  WebSearch.session_close (Core.web_env env) = None ->
  exists d total,
    snd (Core.ask_question env sys q kw) = Return d
    /\ assoc_get "answer" d
       = Some (Core.RStr ("I encountered an error generating the response: "
                          +:+ str_exn e))
    /\ assoc_get "task_type" d = Some (Core.RStr (TaskType_value (LLM.classify q)))
    /\ assoc_get "total_sources" d = Some (Core.RInt total)
    /\ assoc_get "confidence" d = Some (Core.RInt (if 0 <? total then 85 else 0)).
Proof.
  intros Hdown Hother Hclose.
  unfold Core.ask_question, Core.ask_question_try, Core.make_request.
  rewrite Hother, Hclose.
  walk_retrieval; unfold LLM.generate_response; rewrite Hdown; cbn [snd];
    eexists; eexists; (split; [reflexivity|]);
    repeat (split; [reflexivity|]);
    first [ reflexivity
          | exact (f_equal (fun z => Some (Core.RInt z)) (confidence_by_count _)) ].
Qed.

Lemma chat_outage_is_an_answer_witness :
  exists d,
    snd (Core.ask_question Samples.world_chat_down Samples.empty_system
           "What is the latest rent index?" Core.no_kwargs) = Return d
    /\ assoc_get "answer" d
       = Some (Core.RStr "I encountered an error generating the response: rate limit")
    /\ assoc_get "task_type" d = Some (Core.RStr "web_search").
Proof.
  destruct (chat_outage_is_an_answer Samples.world_chat_down Samples.empty_system
              "What is the latest rent index?" Core.no_kwargs
              (mkExn Exception "rate limit"))
    as (d & total & Hd & Hanswer & Htype & _).
  - reflexivity.
  - reflexivity.
  - reflexivity.
  - exists d. split; [exact Hd|]. split; [exact Hanswer | exact Htype].
Defined.

(** X26.  With every retrieval source down (the encoder raises, both
    engines are down) a question is still answered: the chat model is
    asked with the context "No relevant context found.", and the response
    reports the classifier's task type with no source, the confidence 0
    and [has_sources] false; it is not the error response. *)
Theorem retrieval_outage_is_answered (env : Core.Env) (sys : Core.State)
    (q : string) (kw : Core.Kwargs) (request : QueryRequest) :
  Core.make_request q kw = Return request ->
  (exists e, VectorStore.encode (Core.store_env env) q = Raise e) ->
  (forall url, Engines.down (WebSearch.ddg_get (Core.web_env env) url)) ->
  (forall url, Engines.down (WebSearch.bing_get (Core.web_env env) url)) ->
  WebSearch.session_close (Core.web_env env) = None ->
  exists answer,
    LLM.generate_response (Core.llm_env env) request "No relevant context found."
    = Return answer
    /\ snd (Core.ask_question env sys q kw)
       = Return [ ("answer", Core.RStr answer);
                  ("task_type", Core.RStr (TaskType_value (LLM.classify q)));
                  ("processing_time", Core.RStr (Core.elapsed env));
                  ("confidence", Core.RInt 0);
                  ("sources", Core.RSources []);
                  ("has_sources", Core.RBool false);
                  ("total_sources", Core.RInt 0) ].
Proof.
  intros Hrequest [e Hencode] Hddg Hbing Hclose.
  destruct (generate_response_returns (Core.llm_env env) request
              "No relevant context found.") as [answer Hanswer].
  exists answer. split; [exact Hanswer|].
  pose proof (web_search_all_down (Core.web_env env) q (max_results request) Hddg Hbing)
    as Hweb.
  unfold Core.ask_question, Core.ask_question_try.
  rewrite Hrequest, Hclose,
    (vector_search_encoder_down _ (Core.collection sys) q (max_results request) e Hencode).
  destruct (WebSearch.search (Core.web_env env) q (max_results request))
    as [requests web_results].
  simpl in Hweb. subst web_results.
  destruct (include_documents request && negb (TaskType_eqb (LLM.classify q) WEB_SEARCH)),
    (include_web request
     && (TaskType_eqb (LLM.classify q) WEB_SEARCH
         || TaskType_eqb (LLM.classify q) HYBRID_SEARCH));
    cbn [app]; rewrite !slice_to_nil; cbn [map]; rewrite Hanswer; reflexivity.
Qed.

Lemma retrieval_outage_is_answered_witness :
  snd (Core.ask_question (Outage.dark Outage.echo_chat) Samples.empty_system
         "Is the deposit refundable?" Core.no_kwargs)
  = Return [ ("answer",
              Core.RStr ("Context:" +:+ nl +:+ "No relevant context found." +:+ nl +:+ nl
                         +:+ "Question: Is the deposit refundable?" +:+ nl +:+ nl
                         +:+ "Please provide a comprehensive answer based on the context above."));
             ("task_type", Core.RStr "hybrid_search");
             ("processing_time", Core.RStr "0.00s");
             ("confidence", Core.RInt 0);
             ("sources", Core.RSources []);
             ("has_sources", Core.RBool false);
             ("total_sources", Core.RInt 0) ].
Proof.
  destruct (retrieval_outage_is_answered (Outage.dark Outage.echo_chat)
              Samples.empty_system "Is the deposit refundable?" Core.no_kwargs
              {| question := "Is the deposit refundable?"; task_type := None;
                 max_results := 5; include_web := true; include_documents := true |})
    as (answer & Hanswer & Hresponse).
  - reflexivity.
  - eexists. reflexivity.
  - intros url. exact I.
  - intros url. simpl. lia.
  - reflexivity.
  - rewrite Hresponse. vm_compute in Hanswer. injection Hanswer as <-.
    vm_compute. reflexivity.
Defined.

(** ** The [.env] file *)

Section EnvFileFacts.

Import Shape EnvFile.

Lemma rstrip_blank (s : string) : has_nonspace s = false -> rstrip s = "".
Proof.
  intros H. apply truthy_false. now rewrite truthy_rstrip.
Qed.

Lemma lstrip_blank_app (pad s : string) : blank pad -> lstrip (pad +:+ s) = lstrip s.
Proof.
  unfold blank. induction pad as [|c pad IH]; [reflexivity|].
  change (String c pad +:+ s) with (String c (pad +:+ s)). simpl.
  intros H. apply orb_false_iff in H as [Hc Hpad].
  apply negb_false_iff in Hc. rewrite Hc. now apply IH.
Qed.

Lemma rstrip_cons (c : ascii) (s : string) :
  rstrip (String c s)
  = if isspace c && String.eqb (rstrip s) "" then "" else String c (rstrip s).
Proof. reflexivity. Qed.

Lemma rstrip_app_blank (s pad : string) : blank pad -> rstrip (s +:+ pad) = rstrip s.
Proof.
  intros Hpad. induction s as [|c s IH].
  - change ("" +:+ pad) with pad. now rewrite rstrip_blank.
  - change (String c s +:+ pad) with (String c (s +:+ pad)). simpl. now rewrite IH.
Qed.

(** Stripping on the right stops at a piece that ends in a character
    that is not whitespace. *)
Lemma rstrip_app_solid (a b : string) :
  a <> "" -> last_ok a = true -> rstrip (a +:+ b) = a +:+ rstrip b.
Proof.
  induction a as [|c a IH]; [contradiction|]. intros _ Hlast.
  change (String c a +:+ b) with (String c (a +:+ b)).
  change (String c a +:+ rstrip b) with (String c (a +:+ rstrip b)).
  rewrite rstrip_cons.
  destruct a as [|d a].
  - change ("" +:+ b) with b. change ("" +:+ rstrip b) with (rstrip b).
    simpl in Hlast. apply negb_true_iff in Hlast. now rewrite Hlast.
  - change (last_ok (String c (String d a))) with (last_ok (String d a)) in Hlast.
    rewrite IH by (discriminate || assumption).
    change (String d a +:+ rstrip b) with (String d (a +:+ rstrip b)).
    simpl String.eqb. now rewrite andb_false_r.
Qed.

Lemma last_ok_app (a b : string) : b <> "" -> last_ok (a +:+ b) = last_ok b.
Proof.
  intros Hb. induction a as [|c a IH]; [reflexivity|].
  change (String c a +:+ b) with (String c (a +:+ b)).
  destruct (a +:+ b) as [|d r] eqn:Hab.
  - destruct a; [|discriminate]. now destruct b.
  - exact IH.
Qed.

Lemma lstrip_rstrip (s : string) : lstrip (rstrip s) = rstrip (lstrip s).
Proof.
  induction s as [|c s IH]; [reflexivity|]. simpl.
  destruct (isspace c) eqn:Hc; simpl.
  - destruct (String.eqb_spec (rstrip s) "") as [Hr|Hr].
    + simpl. symmetry. apply rstrip_blank. rewrite has_nonspace_lstrip.
      rewrite <- truthy_rstrip. unfold truthy. now rewrite Hr.
    + simpl. now rewrite Hc.
  - now rewrite Hc.
Qed.

Lemma strip_rstrip (s : string) : strip (rstrip s) = strip s.
Proof.
  unfold strip. rewrite lstrip_rstrip.
  apply rstrip_last_ok, last_ok_rstrip.
Qed.

(** Whitespace around a string that has none at its ends is what [strip]
    removes. *)
Lemma strip_padded (p1 s p2 : string) :
  blank p1 -> blank p2 -> head_ok s = true -> last_ok s = true ->
  strip (p1 +:+ s +:+ p2) = s.
Proof.
  intros H1 H2 Hh Hl. unfold strip. rewrite lstrip_blank_app by assumption.
  destruct s as [|c s].
  - change ("" +:+ p2) with p2. apply rstrip_blank.
    now rewrite has_nonspace_lstrip.
  - change (String c s +:+ p2) with (String c (s +:+ p2)).
    rewrite lstrip_head_ok by exact Hh.
    change (String c (s +:+ p2)) with (String c s +:+ p2).
    rewrite rstrip_app_blank by assumption. now apply rstrip_last_ok.
Qed.

Lemma blank_no_equals (pad : string) : blank pad -> no_equals pad = true.
Proof.
  unfold blank. induction pad as [|c pad IH]; [reflexivity|]. simpl.
  intros H. apply orb_false_iff in H as [Hc Hpad]. rewrite IH by assumption.
  apply negb_false_iff in Hc.
  destruct (Ascii.eqb_spec c "="%char) as [->|]; [discriminate|reflexivity].
Qed.

Lemma no_equals_app (a b : string) :
  no_equals (a +:+ b) = no_equals a && no_equals b.
Proof.
  induction a as [|c a IH]; [reflexivity|].
  change (String c a +:+ b) with (String c (a +:+ b)). simpl.
  now rewrite IH, andb_assoc.
Qed.

(** [split] at the first equals sign. *)
Lemma split_once_first (a b : string) :
  no_equals a = true -> split_once "=" (a +:+ "=" +:+ b) = [a; b].
Proof.
  induction a as [|c a IH]; intros Ha.
  - reflexivity.
  - change (String c a +:+ "=" +:+ b) with (String c (a +:+ "=" +:+ b)).
    simpl in *. apply andb_true_iff in Ha as [Hc Ha].
    apply negb_true_iff in Hc. rewrite Hc, IH by assumption. reflexivity.
Qed.

Lemma contains_equals (a b : string) : contains "=" (a +:+ "=" +:+ b) = true.
Proof.
  induction a as [|c a IH].
  - change ("" +:+ "=" +:+ b) with (String "=" b). destruct b; reflexivity.
  - change (String c a +:+ "=" +:+ b) with (String c (a +:+ "=" +:+ b)).
    simpl. rewrite IH. apply orb_true_r.
Qed.

Lemma startswith_app (p : ascii) (a b : string) :
  a <> "" -> startswith (String p "") (a +:+ b) = startswith (String p "") a.
Proof.
  destruct a as [|c a]; [contradiction|]. intros _.
  change (String c a +:+ b) with (String c (a +:+ b)).
  unfold startswith. simpl. destruct (ascii_dec p c); [|reflexivity].
  destruct (a +:+ b), a; reflexivity.
Qed.

Lemma endswith_app (q a : string) : endswith q (a +:+ q) = true.
Proof.
  induction a as [|c a IH].
  - change ("" +:+ q) with q. destruct q; simpl; [reflexivity|].
    now rewrite Ascii.eqb_refl, String.eqb_refl.
  - change (String c a +:+ q) with (String c (a +:+ q)). simpl.
    rewrite IH. apply orb_true_r.
Qed.

Lemma list_ascii_app (a b : string) :
  list_ascii_of_string (a +:+ b) = list_ascii_of_string a ++ list_ascii_of_string b.
Proof.
  induction a as [|c a IH]; [reflexivity|].
  change (String c a +:+ b) with (String c (a +:+ b)). simpl. now rewrite IH.
Qed.

(** [s[1:-1]] removes the two quotes. *)
Lemma slice_str_inner (q q' : ascii) (value : string) :
  slice_str (String q "" +:+ value +:+ String q' "") 1 (-1) = value.
Proof.
  unfold slice_str.
  change (String q "" +:+ value +:+ String q' "")
    with (String q (value +:+ String q' "")).
  simpl list_ascii_of_string. rewrite list_ascii_app. simpl list_ascii_of_string.
  unfold slice, adjust_index, len. simpl length. rewrite length_app. simpl length.
  set (n := length (list_ascii_of_string value)).
  destruct (Z.ltb_spec 1 0); [lia|]. destruct (Z.ltb_spec (-1) 0); [|lia].
  replace (Z.to_nat (Z.min 1 (Z.of_nat (S (n + 1))))) with 1%nat by lia.
  replace (Z.to_nat (Z.max 0 (-1 + Z.of_nat (S (n + 1)))
                     - Z.min 1 (Z.of_nat (S (n + 1))))) with n by lia.
  change (drop 1 (q :: list_ascii_of_string value ++ [q']))
    with (list_ascii_of_string value ++ [q']).
  unfold n. rewrite take_app_length.
  apply string_of_list_ascii_of_string.
Qed.

Lemma unquote_quoted (q : string) (value : string) :
  q = dquote \/ q = squote -> unquote (q +:+ value +:+ q) = value.
Proof.
  intros Hq. unfold unquote, quoted.
  assert (Hstart : startswith q (q +:+ value +:+ q) = true).
  { destruct Hq as [-> | ->]; unfold startswith, dquote, squote;
      [change (String (ascii_of_nat 34) "" +:+ value +:+ String (ascii_of_nat 34) "")
         with (String (ascii_of_nat 34) (value +:+ String (ascii_of_nat 34) ""))
      |change (String (ascii_of_nat 39) "" +:+ value +:+ String (ascii_of_nat 39) "")
         with (String (ascii_of_nat 39) (value +:+ String (ascii_of_nat 39) ""))];
      simpl; destruct (value +:+ _); reflexivity. }
  assert (Hend : endswith q (q +:+ value +:+ q) = true).
  { rewrite <- string_app_assoc. apply endswith_app. }
  assert (Hslice : slice_str (q +:+ value +:+ q) 1 (-1) = value).
  { destruct Hq as [-> | ->]; apply slice_str_inner. }
  destruct Hq as [-> | ->]; rewrite Hstart, Hend, Hslice; cbn [andb orb];
    rewrite ?orb_true_r; reflexivity.
Qed.

(** What [load_line] makes of an assignment, in terms of the text left
    of the first equals sign and the text right of it. *)
Lemma load_line_assignment (env : Env) (p : Process) (n : nat)
    (pad1 key pad2 rest : string) :
  is_name key -> blank pad1 -> blank pad2 ->
  load_line env p n (pad1 +:+ key +:+ pad2 +:+ "=" +:+ rest)
  = match setenv env p key (unquote (strip rest)) with
    | (p', Return _) => (p', Return tt)
    | (p', Raise e) =>
        if is_value_error e
        then ({| environ := environ p';
                 printed := printed p'
                            ++ [warning n (key +:+ pad2 +:+ "=" +:+ rstrip rest)] |},
              Return tt)
        else (p', Raise e)
    end.
Proof.
  intros (Hne & Hhead & Hlast & Heq & Hhash) H1 H2.
  assert (Hline : strip (pad1 +:+ key +:+ pad2 +:+ "=" +:+ rest)
                  = (key +:+ pad2) +:+ "=" +:+ rstrip rest).
  { unfold strip. rewrite lstrip_blank_app by assumption.
    replace (key +:+ pad2 +:+ "=" +:+ rest) with ((key +:+ pad2 +:+ "=") +:+ rest)
      by now rewrite !string_app_assoc.
    assert (Hsolid : key +:+ pad2 +:+ "=" <> "").
    { destruct key; [contradiction|discriminate]. }
    assert (Hh : head_ok (key +:+ pad2 +:+ "=") = true).
    { destruct key; [contradiction|exact Hhead]. }
    assert (Hl : last_ok (key +:+ pad2 +:+ "=") = true).
    { rewrite <- string_app_assoc. now rewrite last_ok_app by discriminate. }
    rewrite lstrip_head_ok.
    - rewrite rstrip_app_solid by assumption. now rewrite !string_app_assoc.
    - destruct key; [contradiction|exact Hhead]. }
  unfold load_line. rewrite Hline.
  set (line := (key +:+ pad2) +:+ "=" +:+ rstrip rest).
  assert (Hskip : negb (truthy line) || startswith "#" line = false).
  { unfold line. rewrite string_app_assoc, startswith_app by exact Hne.
    rewrite Hhash. destruct key; [contradiction|reflexivity]. }
  assert (Hcontains : contains "=" line = true) by apply contains_equals.
  rewrite Hskip, Hcontains. unfold assign, line.
  rewrite split_once_first
    by (rewrite no_equals_app, Heq, blank_no_equals by assumption; reflexivity).
  rewrite strip_rstrip.
  assert (Hkey : strip (key +:+ pad2) = key).
  { apply (strip_padded "" key pad2); try assumption. reflexivity. }
  rewrite Hkey, string_app_assoc. reflexivity.
Qed.

(** The lines of a file are loaded one after the other. *)
Lemma load_lines_app (env : Env) (p : Process) (n : nat) (l1 l2 : list string) :
  load_lines env p n (l1 ++ l2)
  = match load_lines env p n l1 with
    | (p', Return _) => load_lines env p' (n + length l1) l2
    | (p', Raise e) => (p', Raise e)
    end.
Proof.
  revert p n. induction l1 as [|raw l1 IH]; intros p n; simpl.
  - now rewrite Nat.add_0_r.
  - destruct (load_line env p n raw) as [p' [[]|e]]; [|reflexivity].
    rewrite IH. now rewrite Nat.add_succ_r.
Qed.

(** The last line of a file whose other lines load. *)
Lemma load_env_file_last (env : Env) (p p' : Process) (path : string)
    (lines : list string) (raw : string) :
  path_exists env path = true ->
  read_lines env path = (lines ++ [raw], None) ->
  load_lines env p 1 lines = (p', Return tt) ->
  load_env_file env p path = load_line env p' (S (length lines)) raw.
Proof.
  intros Hexists Hread Hlines. unfold load_env_file.
  rewrite Hexists, Hread. simpl negb. cbv iota.
  rewrite load_lines_app, Hlines. simpl.
  destruct (load_line env p' (S (length lines)) raw) as [p'' [[]|e]]; reflexivity.
Qed.

End EnvFileFacts.

(** X27.  The last assignment of a [.env] file whose other lines load
    reaches the environment as written: for a name [key] and whitespace
    [pad1] .. [pad4], the line [pad1 key pad2 = pad3 value pad4] sets
    [key] to [value] when [value] is written bare, and the same line
    with [value] between two double or two single quotes sets [key] to
    [value] whatever [value] holds (whitespace at its ends, equals signs
    and number signs included). *)
Theorem env_assignment_round_trip (env : EnvFile.Env) (p p' : EnvFile.Process)
    (path : string) (lines : list string)
    (key value pad1 pad2 pad3 pad4 : string) :
  EnvFile.path_exists env path = true ->
  EnvFile.load_lines env p 1 lines = (p', Return tt) ->
  EnvFile.is_name key ->
  EnvFile.blank pad1 -> EnvFile.blank pad2 -> EnvFile.blank pad3 -> EnvFile.blank pad4 ->
  EnvFile.putenv_error env key value = None ->
  (EnvFile.is_bare value ->
   EnvFile.read_lines env path
   = (lines ++ [pad1 +:+ key +:+ pad2 +:+ "=" +:+ pad3 +:+ value +:+ pad4], None) ->
   EnvFile.load_env_file env p path
   = ({| EnvFile.environ := <[key := value]> (EnvFile.environ p');
         EnvFile.printed := EnvFile.printed p' |}, Return tt))
  /\ (forall q, q = EnvFile.dquote \/ q = EnvFile.squote ->
        EnvFile.read_lines env path
        = (lines ++ [pad1 +:+ key +:+ pad2 +:+ "=" +:+ pad3
                     +:+ (q +:+ value +:+ q) +:+ pad4], None) ->
        EnvFile.load_env_file env p path
        = ({| EnvFile.environ := <[key := value]> (EnvFile.environ p');
              EnvFile.printed := EnvFile.printed p' |}, Return tt)).
Proof.
  intros Hexists Hlines Hkey H1 H2 H3 H4 Hos. split.
  - intros (Hh & Hl & Hq) Hread.
    rewrite (load_env_file_last env p p' path lines _ Hexists Hread Hlines).
    rewrite load_line_assignment by assumption.
    rewrite strip_padded by assumption.
    unfold EnvFile.unquote. rewrite Hq. unfold EnvFile.setenv. now rewrite Hos.
  - intros q Hq Hread.
    rewrite (load_env_file_last env p p' path lines _ Hexists Hread Hlines).
    rewrite load_line_assignment by assumption.
    rewrite strip_padded; try assumption.
    + rewrite unquote_quoted by exact Hq. unfold EnvFile.setenv. now rewrite Hos.
    + destruct Hq as [-> | ->]; reflexivity.
    + rewrite <- string_app_assoc, last_ok_app;
        destruct Hq as [-> | ->]; (reflexivity || discriminate).
Qed.

Lemma env_assignment_round_trip_witness :
  EnvFile.load_env_file
    (EnvFile.accepting ["# settings" +:+ nl; "CHUNK_SIZE=500" +:+ nl;
                        " NOTE = 'a=b # c ' " +:+ nl])
    EnvFile.fresh ".env"
  = ({| EnvFile.environ := <["NOTE" := "a=b # c "]> (<["CHUNK_SIZE" := "500"]> ∅);
        EnvFile.printed := [] |}, Return tt).
Proof.
  destruct (env_assignment_round_trip
              (EnvFile.accepting ["# settings" +:+ nl; "CHUNK_SIZE=500" +:+ nl;
                                  " NOTE = 'a=b # c ' " +:+ nl])
              EnvFile.fresh
              {| EnvFile.environ := <["CHUNK_SIZE" := "500"]> ∅; EnvFile.printed := [] |}
              ".env" ["# settings" +:+ nl; "CHUNK_SIZE=500" +:+ nl]
              "NOTE" "a=b # c " " " " " " " (" " +:+ nl)) as [_ Hquoted].
  - reflexivity.
  - reflexivity.
  - repeat split; discriminate.
  - reflexivity.
  - reflexivity.
  - reflexivity.
  - reflexivity.
  - reflexivity.
  - apply (Hquoted EnvFile.squote); [right; reflexivity | reflexivity].
Defined.

(** A comment after a bare value is part of the value, and a line that
    starts with [export] names a variable with a space in its name. *)
Example env_file_is_not_a_shell_script :
  EnvFile.environ
    (fst (EnvFile.load_env_file
            (EnvFile.accepting ["TOP_K_RESULTS=5 # default" +:+ nl;
                                "export LOG_LEVEL=DEBUG" +:+ nl])
            EnvFile.fresh ".env"))
  = <["export LOG_LEVEL" := "DEBUG"]> (<["TOP_K_RESULTS" := "5 # default"]> ∅).
Proof. reflexivity. Qed.
